(** * A shallow embedding of the NixOS VM test driver (test-driver.py)

    The development follows [nixos/lib/test-driver/test-driver.py]:
    the retry primitive, the monitor and shell channels of a [Machine],
    its life cycle ([start], [connect], [shutdown], [crash],
    [wait_for_shutdown]), the systemd probes built on [execute], and the
    part of [main] that creates the VLAN switches and the machines.

    Conventions of the model.
    - A Python [str] is a [string]; each character stands for the code
      point of the same number, so the modelled alphabet is
      U+0000..U+00FF.  On that alphabet the classes of [re] are exact:
      [\s] is [str.isspace], [\d] is '0'..'9', [.] is anything but a
      line feed.
    - [bytes] are [string]s as well, one character per byte.
    - Effects are threaded through a state-and-error monad.  A call
      either returns, raises, or never returns ([Blocked]: a read on a
      stream on which nothing more arrives, an [accept] nobody answers,
      a [wait] on a child that does not exit).
    - The guest, the emulator and the switch are the environment: what
      they send and whether they answer is data of the [World].  The
      monitor delivers byte segments, cut to the size a read asks for;
      the shell delivers the text each read decodes to.
    - Writing to a channel always succeeds; what is written is recorded
      in the trace of the host, together with the log lines, the sleeps
      and the processes spawned.
    - The console reader thread only feeds a queue no modelled
      operation reads; its start is recorded and nothing more.
    - The file system is a map from the text of a path to the entry
      there.  A text names its entry with the slashes at its end
      removed; the root and the working directory are directories
      that are always there.  Making an entry needs the directory
      above it, a name the system takes (no NUL, no component above
      255 bytes, less than 4096 bytes in all), and for a socket less
      than 108 bytes.  Other spellings of a name (through [.], [..]
      or doubled slashes) are not resolved, and of symbolic links
      only the dangling one is an entry of its own.
    - [main] is followed up to the loop that cleans the state
      directories (lines 847 to 866); what comes after it, the [exec]
      of the lines that name the machines and the test script itself,
      runs text the model does not interpret. *)

From Stdlib Require Import ZArith Bool Ascii String List Lia.
From stdpp Require Import base option gmap strings.
Import ListNotations.

Local Open Scope string_scope.
Local Open Scope Z_scope.

(** ** Text *)

Module Text.

Definition LF : ascii := "010"%char.

Fixpoint take (n : nat) (s : string) : string :=
  match n, s with
  | S k, String c r => String c (take k r)
  | _, _ => EmptyString
  end.

Fixpoint drop (n : nat) (s : string) : string :=
  match n, s with
  | S k, String _ r => drop k r
  | _, _ => s
  end.

(** Length of the longest prefix whose characters all satisfy [p]. *)
Fixpoint span (p : ascii -> bool) (s : string) : nat :=
  match s with
  | String c r => if p c then S (span p r) else O
  | EmptyString => O
  end.

(** [needle in hay] *)
Fixpoint contains (needle hay : string) : bool :=
  String.prefix needle hay ||
  match hay with
  | String _ r => contains needle r
  | EmptyString => false
  end.

(** [s.endswith(suffix)] *)
Definition endswith (s suffix : string) : bool :=
  (String.length suffix <=? String.length s)%nat &&
  String.eqb (drop (String.length s - String.length suffix) s) suffix.

(** [str.isspace] on one character: the characters [\s] matches and
    [str.split()] splits on. *)
Definition isspace (c : ascii) : bool :=
  let n := nat_of_ascii c in
  ((9 <=? n) && (n <=? 13) || (28 <=? n) && (n <=? 32)
   || (n =? 133) || (n =? 160))%nat.

Definition isdigit (c : ascii) : bool :=
  let n := nat_of_ascii c in ((48 <=? n) && (n <=? 57))%nat.

(** [int(s)] for a non-empty string of decimal digits. *)
Definition digit_value (c : ascii) : Z := Z.of_nat (nat_of_ascii c) - 48.

Fixpoint int_acc (acc : Z) (s : string) : Z :=
  match s with
  | String c r => int_acc (10 * acc + digit_value c) r
  | EmptyString => acc
  end.

Definition int (s : string) : Z := int_acc 0 s.

(** [s.split(sep)] for a one-character separator: always at least one
    field, empty fields are kept. *)
Fixpoint split_on (sep : ascii) (s : string) : list string :=
  match s with
  | EmptyString => [EmptyString]
  | String c r =>
      if Ascii.eqb c sep then EmptyString :: split_on sep r
      else match split_on sep r with
           | f :: fs => String c f :: fs
           | [] => [String c EmptyString]
           end
  end.

(** [s.split()]: fields are the maximal runs of non-space characters. *)
Fixpoint split_ws_aux (cur : string) (s : string) : list string :=
  match s with
  | EmptyString => if String.eqb cur "" then [] else [cur]
  | String c r =>
      if isspace c
      then (if String.eqb cur "" then split_ws_aux "" r
            else cur :: split_ws_aux "" r)
      else split_ws_aux (cur ++ String c "") r
  end.

Definition split (s : string) : list string := split_ws_aux "" s.

(** [s.replace(c, by)] for a one-character pattern. *)
Fixpoint replace_char (c : ascii) (by_ : string) (s : string) : string :=
  match s with
  | EmptyString => EmptyString
  | String d r =>
      (if Ascii.eqb d c then by_ else String d "") ++ replace_char c by_ r
  end.

(** [c in s] for one character. *)
Definition NUL : ascii := "000"%char.

Fixpoint mem (c : ascii) (s : string) : bool :=
  match s with
  | String d r => Ascii.eqb d c || mem c r
  | EmptyString => false
  end.

(** [len(s.encode())]: on the modelled alphabet a code point takes one
    byte below U+0080 and two from there on. *)
Fixpoint utf8_length (s : string) : nat :=
  match s with
  | String c r => ((if (nat_of_ascii c <? 128)%nat then 1 else 2) + utf8_length r)%nat
  | EmptyString => O
  end.

(** [s.rstrip(c)] for one character. *)
Fixpoint rstrip (c : ascii) (s : string) : string :=
  match s with
  | EmptyString => EmptyString
  | String d r =>
      match rstrip c r with
      | EmptyString => if Ascii.eqb d c then EmptyString else String d EmptyString
      | r' => String d r'
      end
  end.

(** [s.rfind(c) + 1]: the length of the part of [s] that ends with
    the last [c], 0 when there is none. *)
Fixpoint rfind_end (c : ascii) (s : string) : nat :=
  match s with
  | EmptyString => O
  | String d r =>
      match rfind_end c r with
      | O => if Ascii.eqb d c then 1%nat else O
      | S n => S (S n)
      end
  end.

(** [str(n)] for an integer. *)
Fixpoint digits_of_pos (fuel : nat) (n : N) (acc : string) : string :=
  match fuel with
  | O => acc
  | S k =>
      let d := ascii_of_N (48 + N.modulo n 10) in
      let q := N.div n 10 in
      if N.eqb q 0 then String d acc else digits_of_pos k q (String d acc)
  end.

Definition str_of_Z (z : Z) : string :=
  let body := digits_of_pos (S (N.to_nat (N.log2 (Z.abs_N z)))) (Z.abs_N z) "" in
  if z <? 0 then String "-" body else body.

End Text.

(** ** The fragment of [re] the driver uses *)

Module Re.
Import Text.

Inductive cls : Type :=
| Dot                  (* .     : any character but a line feed *)
| Space                (* \s *)
| Digit                (* \d *)
| Not (c : ascii).     (* [^c] *)

Definition in_cls (k : cls) (c : ascii) : bool :=
  match k with
  | Dot => negb (Ascii.eqb c LF)
  | Space => isspace c
  | Digit => isdigit c
  | Not d => negb (Ascii.eqb c d)
  end.

(** One piece of a pattern: a literal, a greedy repetition of a class
    (at least [min] characters, captured as a group or not), or an
    anchor. *)
Inductive item : Type :=
| Lit (s : string)
| Rep (captured : bool) (min : nat) (k : cls)
| Bos                  (* ^ *)
| Eos.                 (* $ : at the end, or before a final line feed *)

Definition pattern := list item.

(** Greedy choice with backtracking: the longest repetition first. *)
Fixpoint longest_first {R} (try : nat -> option R) (lo extra : nat) : option R :=
  match try (lo + extra)%nat with
  | Some r => Some r
  | None => match extra with
            | O => None
            | S e => longest_first try lo e
            end
  end.

(** Matching [p] at offset [pos], the rest of the subject being [s];
    the result is the list of captured groups. *)
Fixpoint match_at (p : pattern) (pos : nat) (s : string) : option (list string) :=
  match p with
  | [] => Some []
  | Lit l :: rest =>
      if String.prefix l s
      then match_at rest (pos + String.length l) (drop (String.length l) s)
      else None
  | Rep captured min k :: rest =>
      let n := span (in_cls k) s in
      if (n <? min)%nat then None
      else longest_first
             (fun j => match match_at rest (pos + j) (drop j s) with
                       | Some gs => Some (if captured then take j s :: gs else gs)
                       | None => None
                       end)
             min (n - min)
  | Bos :: rest => if (pos =? 0)%nat then match_at rest pos s else None
  | Eos :: rest =>
      if String.eqb s "" || String.eqb s (String LF "")
      then match_at rest pos s else None
  end.

(** [re.compile(p).match(s)] *)
Definition re_match (p : pattern) (s : string) : option (list string) :=
  match_at p 0 s.

(** [re.search(p, s)]: the leftmost start that matches. *)
Fixpoint search_from (p : pattern) (pos : nat) (s : string) : option (list string) :=
  match match_at p pos s with
  | Some gs => Some gs
  | None => match s with
            | String _ r => search_from p (S pos) r
            | EmptyString => None
            end
  end.

Definition re_search (p : pattern) (s : string) : option (list string) :=
  search_from p 0 s.

End Re.

(** ** Results and the state-and-error monad *)

(** A Python exception: its class and its message. *)
Inductive exn : Type := Exn (class message : string).

Inductive Result (S A : Type) : Type :=
| Returned (a : A) (s : S)     (* the call returns [a] *)
| Raised (e : exn) (s : S)     (* the call raises [e] *)
| Blocked (s : S).             (* the call never returns *)

Arguments Returned {S A} a s.
Arguments Raised {S A} e s.
Arguments Blocked {S A} s.

Definition M (S A : Type) : Type := S -> Result S A.

Definition ret {S A} (a : A) : M S A := fun s => Returned a s.

Definition bind {S A B} (m : M S A) (k : A -> M S B) : M S B :=
  fun s => match m s with
           | Returned a s' => k a s'
           | Raised e s' => Raised e s'
           | Blocked s' => Blocked s'
           end.

Definition raise {S A} (e : exn) : M S A := fun s => Raised e s.
Definition block {S A} : M S A := fun s => Blocked s.
Definition get {S} : M S S := fun s => Returned s s.
Definition modify {S} (f : S -> S) : M S unit := fun s => Returned tt (f s).

(** [try: m except Exception as e: h(e)] *)
Definition catch {S A} (m : M S A) (h : exn -> M S A) : M S A :=
  fun s => match m s with
           | Raised e s' => h e s'
           | r => r
           end.

Definition class_of (e : exn) : string := match e with Exn c _ => c end.

(** The subclasses of [OSError] the host raises, and the class
    itself. *)
Definition is_OSError (e : exn) : bool :=
  existsb (String.eqb (class_of e))
    ["OSError"; "FileExistsError"; "FileNotFoundError"; "NotADirectoryError";
     "IsADirectoryError"; "PermissionError"].

Notation "x <- m ;; k" := (bind m (fun x => k))
  (at level 100, m at next level, right associativity).
Notation "m ;; k" := (bind m (fun _ => k))
  (at level 100, right associativity).

(** The state a result ends in, whatever its kind. *)
Definition final {S A} (r : Result S A) : S :=
  match r with
  | Returned _ s => s
  | Raised _ s => s
  | Blocked s => s
  end.

(** The value a call returned, [d] if it did not return. *)
Definition value {S A} (d : A) (r : Result S A) : A :=
  match r with
  | Returned a _ => a
  | _ => d
  end.

(** [for x in xs: body(x)] *)
Fixpoint for_each {S A} (xs : list A) (body : A -> M S unit) : M S unit :=
  match xs with
  | [] => ret tt
  | x :: r => body x ;; for_each r body
  end.

(** [[f(x) for x in xs]] *)
Fixpoint map_m {S A B} (f : A -> M S B) (xs : list A) : M S (list B) :=
  match xs with
  | [] => ret []
  | x :: r => y <- f x ;; ys <- map_m f r ;; ret (y :: ys)
  end.

(** ** The host: file system, environment, processes, streams *)

Inductive fkind : Type :=
| RegularFile
| Directory
| SocketFile
| DanglingLink.        (* a symbolic link whose target is not there *)

Inductive channel : Type := MonitorChannel | ShellChannel | SwitchPty.

Inductive event : Type :=
| Log (line : string)                                   (* a line of the driver log *)
| Slept (secs : Z)                                      (* time.sleep *)
| Sent (c : channel) (data : string)                    (* bytes written to a channel *)
| Spawned (argv : list string) (cwd : string)
          (env : gmap string string) (pid : Z)          (* subprocess.Popen *)
| ThreadStarted                                         (* the console reader *)
| Flushed.                                              (* sys.stdout.flush *)

(** What one [vde_switch] does once spawned. *)
Record Switch : Type := {
  switch_infix : string;     (* the random part mkdtemp puts in the name *)
  switch_spawns : bool;      (* Popen finds and runs the binary *)
  switch_answers : bool;     (* a line arrives on its stdout *)
  switch_creates_ctl : bool  (* the control socket appears *)
}.

Record World : Type := {
  fs : gmap string fkind;
  environ : gmap string string;
  trace : list event;                (* most recent first *)
  next_pid : Z;
  next_fd : nat;
  monitor_peer : bool;               (* the emulator connects to the monitor socket *)
  shell_peer : bool;                 (* the guest connects to the shell socket *)
  monitor_in : list string;          (* byte segments the monitor will deliver; an empty one is end of file *)
  shell_in : list string;            (* what successive reads of the shell decode to *)
  emulator_exits : bool;             (* the emulator process eventually exits *)
  switches : list Switch;            (* behaviour of the switches still to be spawned *)
  tempdir : string;                  (* what tempfile.gettempdir() answers *)
  abspath : string -> string         (* what os.path.abspath answers, a matter of the working directory *)
}.

Module W.

Definition set_fs (f : gmap string fkind -> gmap string fkind) (w : World) : World :=
  {| fs := f (fs w); environ := environ w; trace := trace w; next_pid := next_pid w;
     next_fd := next_fd w; monitor_peer := monitor_peer w; shell_peer := shell_peer w;
     monitor_in := monitor_in w; shell_in := shell_in w;
     emulator_exits := emulator_exits w; switches := switches w; tempdir := tempdir w;
     abspath := abspath w |}.

Definition set_environ (f : gmap string string -> gmap string string) (w : World) : World :=
  {| fs := fs w; environ := f (environ w); trace := trace w; next_pid := next_pid w;
     next_fd := next_fd w; monitor_peer := monitor_peer w; shell_peer := shell_peer w;
     monitor_in := monitor_in w; shell_in := shell_in w;
     emulator_exits := emulator_exits w; switches := switches w; tempdir := tempdir w;
     abspath := abspath w |}.

Definition emit (e : event) (w : World) : World :=
  {| fs := fs w; environ := environ w; trace := e :: trace w; next_pid := next_pid w;
     next_fd := next_fd w; monitor_peer := monitor_peer w; shell_peer := shell_peer w;
     monitor_in := monitor_in w; shell_in := shell_in w;
     emulator_exits := emulator_exits w; switches := switches w; tempdir := tempdir w;
     abspath := abspath w |}.

Definition set_next_pid (p : Z) (w : World) : World :=
  {| fs := fs w; environ := environ w; trace := trace w; next_pid := p;
     next_fd := next_fd w; monitor_peer := monitor_peer w; shell_peer := shell_peer w;
     monitor_in := monitor_in w; shell_in := shell_in w;
     emulator_exits := emulator_exits w; switches := switches w; tempdir := tempdir w;
     abspath := abspath w |}.

Definition set_next_fd (n : nat) (w : World) : World :=
  {| fs := fs w; environ := environ w; trace := trace w; next_pid := next_pid w;
     next_fd := n; monitor_peer := monitor_peer w; shell_peer := shell_peer w;
     monitor_in := monitor_in w; shell_in := shell_in w;
     emulator_exits := emulator_exits w; switches := switches w; tempdir := tempdir w;
     abspath := abspath w |}.

Definition set_monitor_in (l : list string) (w : World) : World :=
  {| fs := fs w; environ := environ w; trace := trace w; next_pid := next_pid w;
     next_fd := next_fd w; monitor_peer := monitor_peer w; shell_peer := shell_peer w;
     monitor_in := l; shell_in := shell_in w;
     emulator_exits := emulator_exits w; switches := switches w; tempdir := tempdir w;
     abspath := abspath w |}.

Definition set_shell_in (l : list string) (w : World) : World :=
  {| fs := fs w; environ := environ w; trace := trace w; next_pid := next_pid w;
     next_fd := next_fd w; monitor_peer := monitor_peer w; shell_peer := shell_peer w;
     monitor_in := monitor_in w; shell_in := l;
     emulator_exits := emulator_exits w; switches := switches w; tempdir := tempdir w;
     abspath := abspath w |}.

Definition set_switches (l : list Switch) (w : World) : World :=
  {| fs := fs w; environ := environ w; trace := trace w; next_pid := next_pid w;
     next_fd := next_fd w; monitor_peer := monitor_peer w; shell_peer := shell_peer w;
     monitor_in := monitor_in w; shell_in := shell_in w;
     emulator_exits := emulator_exits w; switches := l; tempdir := tempdir w;
     abspath := abspath w |}.

End W.

(** ** Machines *)

(** A listening socket: its descriptor and the path it is bound to. *)
Record Listener : Type := { listener_fd : nat; listener_path : string }.

(** A [subprocess.Popen] object. *)
Record Popen : Type := { popen_pid : Z }.

(** The attributes of a [Machine].  The attributes [start] creates
    ([monitor_socket], [shell_socket], [process], [shell], [last_lines])
    are absent ([None]) before the first [start]. *)
Record Machine : Type := {
  name : string;
  script : string;
  state_dir : string;
  shared_dir : string;
  booted : bool;
  connected : bool;
  pid : option Z;
  socket : option nat;
  monitor : option nat;
  allow_reboot : bool;
  monitor_socket : option Listener;
  shell_socket : option Listener;
  process : option Popen;
  shell : option nat;
  last_lines : option (list string)
}.

Module Mc.

Definition set_booted (b : bool) (m : Machine) : Machine :=
  {| name := name m; script := script m; state_dir := state_dir m;
     shared_dir := shared_dir m; booted := b; connected := connected m;
     pid := pid m; socket := socket m; monitor := monitor m;
     allow_reboot := allow_reboot m; monitor_socket := monitor_socket m;
     shell_socket := shell_socket m; process := process m; shell := shell m;
     last_lines := last_lines m |}.

Definition set_connected (b : bool) (m : Machine) : Machine :=
  {| name := name m; script := script m; state_dir := state_dir m;
     shared_dir := shared_dir m; booted := booted m; connected := b;
     pid := pid m; socket := socket m; monitor := monitor m;
     allow_reboot := allow_reboot m; monitor_socket := monitor_socket m;
     shell_socket := shell_socket m; process := process m; shell := shell m;
     last_lines := last_lines m |}.

Definition set_pid (p : option Z) (m : Machine) : Machine :=
  {| name := name m; script := script m; state_dir := state_dir m;
     shared_dir := shared_dir m; booted := booted m; connected := connected m;
     pid := p; socket := socket m; monitor := monitor m;
     allow_reboot := allow_reboot m; monitor_socket := monitor_socket m;
     shell_socket := shell_socket m; process := process m; shell := shell m;
     last_lines := last_lines m |}.

Definition set_monitor (c : option nat) (m : Machine) : Machine :=
  {| name := name m; script := script m; state_dir := state_dir m;
     shared_dir := shared_dir m; booted := booted m; connected := connected m;
     pid := pid m; socket := socket m; monitor := c;
     allow_reboot := allow_reboot m; monitor_socket := monitor_socket m;
     shell_socket := shell_socket m; process := process m; shell := shell m;
     last_lines := last_lines m |}.

Definition set_monitor_socket (l : option Listener) (m : Machine) : Machine :=
  {| name := name m; script := script m; state_dir := state_dir m;
     shared_dir := shared_dir m; booted := booted m; connected := connected m;
     pid := pid m; socket := socket m; monitor := monitor m;
     allow_reboot := allow_reboot m; monitor_socket := l;
     shell_socket := shell_socket m; process := process m; shell := shell m;
     last_lines := last_lines m |}.

Definition set_shell_socket (l : option Listener) (m : Machine) : Machine :=
  {| name := name m; script := script m; state_dir := state_dir m;
     shared_dir := shared_dir m; booted := booted m; connected := connected m;
     pid := pid m; socket := socket m; monitor := monitor m;
     allow_reboot := allow_reboot m; monitor_socket := monitor_socket m;
     shell_socket := l; process := process m; shell := shell m;
     last_lines := last_lines m |}.

Definition set_process (p : option Popen) (m : Machine) : Machine :=
  {| name := name m; script := script m; state_dir := state_dir m;
     shared_dir := shared_dir m; booted := booted m; connected := connected m;
     pid := pid m; socket := socket m; monitor := monitor m;
     allow_reboot := allow_reboot m; monitor_socket := monitor_socket m;
     shell_socket := shell_socket m; process := p; shell := shell m;
     last_lines := last_lines m |}.

Definition set_shell (c : option nat) (m : Machine) : Machine :=
  {| name := name m; script := script m; state_dir := state_dir m;
     shared_dir := shared_dir m; booted := booted m; connected := connected m;
     pid := pid m; socket := socket m; monitor := monitor m;
     allow_reboot := allow_reboot m; monitor_socket := monitor_socket m;
     shell_socket := shell_socket m; process := process m; shell := c;
     last_lines := last_lines m |}.

Definition set_last_lines (q : option (list string)) (m : Machine) : Machine :=
  {| name := name m; script := script m; state_dir := state_dir m;
     shared_dir := shared_dir m; booted := booted m; connected := connected m;
     pid := pid m; socket := socket m; monitor := monitor m;
     allow_reboot := allow_reboot m; monitor_socket := monitor_socket m;
     shell_socket := shell_socket m; process := process m; shell := shell m;
     last_lines := q |}.

End Mc.

(** The state a method of a machine runs in: the machine and the host. *)
Record St : Type := { self : Machine; world : World }.

Definition on_self (f : Machine -> Machine) (st : St) : St :=
  {| self := f (self st); world := world st |}.

Definition on_world (f : World -> World) (st : St) : St :=
  {| self := self st; world := f (world st) |}.

(** A computation on the host, run from a method. *)
Definition lift {A} (m : M World A) : M St A :=
  fun st => match m (world st) with
            | Returned a w => Returned a {| self := self st; world := w |}
            | Raised e w => Raised e {| self := self st; world := w |}
            | Blocked w => Blocked {| self := self st; world := w |}
            end.

(** A method called on machine [m] from the host; the machine as the
    call leaves it is handed back with the result. *)
Definition call {A} (m : Machine) (f : M St A) : M World (A * Machine) :=
  fun w => match f {| self := m; world := w |} with
           | Returned a st => Returned (a, self st) (world st)
           | Raised e st => Raised e (world st)
           | Blocked st => Blocked (world st)
           end.

(** ** Host primitives *)

Module Host.
Import Text.

Definition dq : string := String (ascii_of_nat 34) "".
Definition nl : string := String LF "".

(** [os.path.join(a, b)] *)
Definition path_join (a b : string) : string :=
  if String.prefix "/" b then b
  else if String.eqb a "" || endswith a "/" then a ++ b
  else a ++ "/" ++ b.

(** [sep.join(parts)] *)
Fixpoint join (sep : string) (parts : list string) : string :=
  match parts with
  | [] => ""
  | [x] => x
  | x :: r => x ++ sep ++ join sep r
  end.

Definition logger_info (line : string) : M World unit :=
  modify (W.emit (Log line)).

Definition time_sleep (secs : Z) : M World unit :=
  modify (W.emit (Slept secs)).

(** *** The file system *)

(** [os.path.split(p)]: what is before the last slash, without the
    slashes that end it unless it is slashes only, and what is after. *)
Definition path_split (p : string) : string * string :=
  let i := rfind_end "/" p in
  let head := take i p in
  (if String.eqb (rstrip "/" head) "" then head else rstrip "/" head, drop i p).

(** The text under which the entry of [p] is kept: [p] without the
    slashes at its end, unless it is slashes only. *)
Definition key (p : string) : string :=
  if String.eqb (rstrip "/" p) "" then p else rstrip "/" p.

(** A name the system does not take: one that holds a NUL is refused
    by Python, one that is too long by the kernel. *)
Definition refused (p : string) : option exn :=
  if mem NUL p then Some (Exn "ValueError" "embedded null byte")
  else if (4096 <=? utf8_length p)%nat
          || existsb (fun c => (255 <? utf8_length c)%nat) (split_on "/" p)
  then Some (Exn "OSError" "File name too long")
  else None.

(** [os.lstat(p)], as far as the kind of the entry goes: the root is a
    directory, the empty name names nothing. *)
Definition lstat (w : World) (p : string) : option fkind :=
  if String.eqb p "" then None
  else match refused p with
       | Some _ => None
       | None => if String.eqb (rstrip "/" p) "" then Some Directory
                 else fs w !! key p
       end.

(** [os.stat(p)]: a dangling link leads nowhere. *)
Definition stat (w : World) (p : string) : option fkind :=
  match lstat w p with
  | Some DanglingLink => None
  | k => k
  end.

(** The directory in which the entry of [p] is or would be; the
    working directory, for a name without a slash, is there. *)
Definition above (w : World) (p : string) : option fkind :=
  let d := fst (path_split (key p)) in
  if String.eqb d "" then Some Directory else stat w d.

(** What keeps the system from making an entry at [p]: the name
    itself, the way to it, or what is there already. *)
Definition in_the_way (w : World) (p : string) : option exn :=
  if String.eqb p "" then Some (Exn "FileNotFoundError" p)
  else match refused p with
       | Some e => Some e
       | None =>
           match above w p with
           | None => Some (Exn "FileNotFoundError" p)
           | Some Directory =>
               match lstat w p with
               | Some _ => Some (Exn "FileExistsError" p)
               | None => None
               end
           | Some _ => Some (Exn "NotADirectoryError" p)
           end
       end.

Definition os_path_exists (p : string) : M World bool :=
  w <- get ;; ret (match stat w p with Some _ => true | None => false end).

Definition os_path_isfile (p : string) : M World bool :=
  w <- get ;; ret (match stat w p with Some RegularFile => true | _ => false end).

Definition os_path_isdir (p : string) : M World bool :=
  w <- get ;; ret (match stat w p with Some Directory => true | _ => false end).

(** [os.unlink(p)] *)
Definition os_unlink (p : string) : M World unit :=
  w <- get ;;
  match refused p with
  | Some e => raise e
  | None =>
      match lstat w p with
      | None => raise (Exn "FileNotFoundError" p)
      | Some Directory => raise (Exn "IsADirectoryError" p)
      | Some _ => modify (W.set_fs (delete (key p)))
      end
  end.

(** [os.mkdir(p)] *)
Definition os_mkdir (p : string) : M World unit :=
  w <- get ;;
  match in_the_way w p with
  | Some e => raise e
  | None => modify (W.set_fs (insert (key p) Directory))
  end.

(** [os.makedirs(name, exist_ok=True)]: the directories above are made
    first, then [name]; a directory that is there already is fine.
    The call on the head is on a shorter text, so [fuel] above the
    length of [name] is never used up. *)
Fixpoint makedirs (fuel : nat) (name : string) : M World unit :=
  match fuel with
  | O => block
  | S k =>
      let '(head, tail) := path_split name in
      let '(head, tail) :=
        if String.eqb tail "" then path_split head else (head, tail) in
      finished <-
        (if negb (String.eqb head "") && negb (String.eqb tail "") then
           present <- os_path_exists head ;;
           if present then ret false
           else
             catch (makedirs k head)
                   (fun e => if String.eqb (class_of e) "FileExistsError"
                             then ret tt else raise e) ;;
             ret (String.eqb tail ".")
         else ret false) ;;
      if (finished : bool) then ret tt
      else
        catch (os_mkdir name)
              (fun e => if is_OSError e then
                          isdir <- os_path_isdir name ;;
                          if (isdir : bool) then ret tt else raise e
                        else raise e)
  end.

Definition os_makedirs (p : string) : M World unit :=
  makedirs (S (String.length p)) p.

(** [shutil.rmtree(p)]: a directory goes with everything below it;
    anything else is an error. *)
Definition below (dir p : string) : bool :=
  String.eqb p dir
  || String.prefix (if String.eqb (rstrip "/" dir) "" then dir else dir ++ "/") p.

Definition shutil_rmtree (p : string) : M World unit :=
  w <- get ;;
  match refused p with
  | Some e => raise e
  | None =>
      match lstat w p with
      | None => raise (Exn "FileNotFoundError" p)
      | Some Directory =>
          modify (W.set_fs (filter (fun kv => below (key p) (fst kv) = false)))
      | Some RegularFile => raise (Exn "NotADirectoryError" p)
      | Some SocketFile => raise (Exn "OSError" p)
      | Some DanglingLink => raise (Exn "FileNotFoundError" p)
      end
  end.

Definition fresh_fd : M World nat :=
  w <- get ;; modify (W.set_next_fd (S (next_fd w))) ;; ret (next_fd w).

(** [socket.socket(AF_UNIX, SOCK_STREAM)], [bind(path)], [listen(1)].
    Python refuses a path with a NUL or of 108 bytes and more; the
    empty path is bound to an address that is no file; any other path
    needs its directory and must be free, and binding makes the socket
    file. *)
Definition socket_bind_listen (path : string) : M World Listener :=
  fd <- fresh_fd ;;
  w <- get ;;
  if mem NUL path then raise (Exn "ValueError" "embedded null byte")
  else if (108 <=? utf8_length path)%nat
  then raise (Exn "OSError" "AF_UNIX path too long")
  else if String.eqb path ""
  then ret {| listener_fd := fd; listener_path := path |}
  else
    match above w path with
    | None => raise (Exn "FileNotFoundError" path)
    | Some Directory =>
        match lstat w path with
        | Some _ => raise (Exn "OSError" "Address already in use")
        | None =>
            modify (W.set_fs (insert (key path) SocketFile)) ;;
            ret {| listener_fd := fd; listener_path := path |}
        end
    | Some _ => raise (Exn "NotADirectoryError" path)
    end.

(** [listener.accept()] on the monitor or the shell socket. *)
Definition socket_accept (c : channel) : M World nat :=
  w <- get ;;
  let answered := match c with
                  | MonitorChannel => monitor_peer w
                  | ShellChannel => shell_peer w
                  | SwitchPty => false
                  end in
  if answered then fresh_fd else block.

(** [subprocess.Popen(...)]: no argument may hold a NUL, and the
    child needs its working directory. *)
Definition subprocess_Popen (argv : list string) (cwd : string)
    (env : gmap string string) : M World Popen :=
  w <- get ;;
  if existsb (mem NUL) argv then raise (Exn "ValueError" "embedded null byte")
  else
    match refused cwd with
    | Some e => raise e
    | None =>
        match stat w cwd with
        | Some Directory =>
            modify (W.emit (Spawned argv cwd env (next_pid w))) ;;
            modify (W.set_next_pid (next_pid w + 1)) ;;
            ret {| popen_pid := next_pid w |}
        | Some _ => raise (Exn "NotADirectoryError" cwd)
        | None => raise (Exn "FileNotFoundError" cwd)
        end
    end.

(** [os.environ[name] = value]: a name or value with a NUL and a name
    that is empty or holds an equals sign are refused, and nothing is
    set then. *)
Definition os_environ_set (name value : string) : M World unit :=
  if mem NUL name || mem NUL value
  then raise (Exn "ValueError" "embedded null byte")
  else if String.eqb name "" || mem "=" name
  then raise (Exn "ValueError" "illegal environment variable name")
  else modify (W.set_environ (insert name value)).

(** [process.wait()] on the emulator. *)
Definition process_wait : M World unit :=
  w <- get ;; if emulator_exits w then ret tt else block.

Definition send (c : channel) (data : string) : M World unit :=
  modify (W.emit (Sent c data)).

(** [monitor.recv(n)]: at most [n] bytes of the segment that arrives
    next; the rest of a longer segment stays for the next read. *)
Definition monitor_recv (n : nat) : M World string :=
  w <- get ;;
  match monitor_in w with
  | [] => block
  | seg :: rest =>
      if (String.length seg <=? n)%nat
      then modify (W.set_monitor_in rest) ;; ret seg
      else modify (W.set_monitor_in (drop n seg :: rest)) ;; ret (take n seg)
  end.

(** [shell.recv(n)] decoded with errors ignored, and the bare
    [shell.recv(n)] of [connect]: the text of the next read. *)
Definition shell_recv : M World string :=
  w <- get ;;
  match shell_in w with
  | [] => block
  | chunk :: rest => modify (W.set_shell_in rest) ;; ret chunk
  end.

(** [bytes.decode()], strict UTF-8, onto the modelled alphabet: ASCII
    bytes and the two-byte forms of U+0080..U+00FF; anything else
    raises. *)
Fixpoint utf8_decode (b : string) : option string :=
  match b with
  | EmptyString => Some EmptyString
  | String c r =>
      let n := nat_of_ascii c in
      if (n <? 128)%nat then option_map (String c) (utf8_decode r)
      else if ((n =? 194) || (n =? 195))%nat then
        match r with
        | String d r' =>
            let m := nat_of_ascii d in
            if ((128 <=? m) && (m <? 192))%nat
            then option_map (String (ascii_of_nat ((n - 192) * 64 + (m - 128))))
                            (utf8_decode r')
            else None
        | EmptyString => None
        end
      else None
  end.

Definition decode {S} (b : string) : M S string :=
  match utf8_decode b with
  | Some s => ret s
  | None => raise (Exn "UnicodeDecodeError" "utf-8")
  end.

(** An upper bound on the reads a stream of segments can serve. *)
Fixpoint pending_reads (segs : list string) : nat :=
  match segs with
  | [] => O
  | seg :: rest => (S (String.length seg) + pending_reads rest)%nat
  end.

End Host.

(** ** The driver *)

Module Driver.
Import Text Re Host.

(** *** retry *)

(** The [for _ in range(n)] loop of [retry]; [true] when the loop was
    left by [return]. *)
Fixpoint retry_loop (n : nat) (fn : bool -> M St bool) : M St bool :=
  match n with
  | O => ret false
  | S k =>
      ok <- fn false ;;
      if ok then ret true
      else lift (time_sleep 1) ;; retry_loop k fn
  end.

Definition retry (fn : bool -> M St bool) : M St unit :=
  returned <- retry_loop 900 fn ;;
  if returned then ret tt
  else
    ok <- fn true ;;
    if negb ok then raise (Exn "Exception" "action timed out") else ret tt.

(** *** Attributes and logging *)

Definition set_self (f : Machine -> Machine) : M St unit := modify (on_self f).

(** [self.logger.info(msg)]: the adapter puts the machine's name first. *)
Definition log_info (msg : string) : M St unit :=
  st <- get ;; lift (logger_info (name (self st) ++ ": " ++ msg)).

(** Reading an attribute that [start] has not created yet. *)
Definition attribute {A} (attr : string) (v : option A) : M St A :=
  match v with
  | Some a => ret a
  | None => raise (Exn "AttributeError" attr)
  end.

Definition assert_not_none {A} (v : option A) : M St A :=
  match v with
  | Some a => ret a
  | None => raise (Exn "AssertionError" "")
  end.

(** *** The monitor channel *)

Definition prompt : string := "(qemu) ".

(** The [while True] loop of [wait_for_monitor_prompt].  Every turn
    takes bytes off the stream or blocks, so [fuel] above
    [pending_reads] is never used up. *)
Fixpoint monitor_loop (fuel : nat) (answer : string) : M St string :=
  match fuel with
  | O => block
  | S k =>
      undecoded_answer <- lift (monitor_recv 1024) ;;
      if String.eqb undecoded_answer "" then ret answer
      else
        text <- decode undecoded_answer ;;
        let answer := answer ++ text in
        if endswith answer prompt then ret answer
        else monitor_loop k answer
  end.

Definition wait_for_monitor_prompt : M St string :=
  st <- get ;;
  assert_not_none (monitor (self st)) ;;
  monitor_loop (S (pending_reads (monitor_in (world st)))) "".

Definition send_monitor_command (command : string) : M St string :=
  let message := command ++ nl in
  log_info ("sending monitor command: " ++ command) ;;
  st <- get ;;
  assert_not_none (monitor (self st)) ;;
  lift (send MonitorChannel message) ;;
  wait_for_monitor_prompt.

(** *** start *)

Definition create_socket (path : string) : M World Listener :=
  present <- os_path_exists path ;;
  (if present then os_unlink path else ret tt) ;;
  socket_bind_listen path.

Definition qemu_options (m : Machine) (env : gmap string string)
    (monitor_path shell_path : string) : string :=
  join " "
    [ if allow_reboot m then "" else "-no-reboot";
      "-monitor unix:" ++ monitor_path;
      "-chardev socket,id=shell,path=" ++ shell_path;
      "-device virtio-serial";
      "-device virtconsole,chardev=shell";
      "-device virtio-rng-pci";
      match env !! "DISPLAY" with Some _ => "-serial stdio" | None => "-nographic" end ]
  ++ " " ++ default "" (env !! "QEMU_OPTS").

Definition start : M St unit :=
  st <- get ;;
  if booted (self st) then ret tt
  else
    log_info "starting vm" ;;
    let monitor_path := path_join (state_dir (self st)) "monitor" in
    ms <- lift (create_socket monitor_path) ;;
    set_self (Mc.set_monitor_socket (Some ms)) ;;
    let shell_path := path_join (state_dir (self st)) "shell" in
    ss <- lift (create_socket shell_path) ;;
    set_self (Mc.set_shell_socket (Some ss)) ;;
    st1 <- get ;;
    let os_environ := environ (world st1) in
    let environment :=
      <["QEMU_OPTS" := qemu_options (self st1) os_environ monitor_path shell_path]>
      (<["USE_TMPDIR" := "1"]>
      (<["SHARED_DIR" := shared_dir (self st1)]>
      (<["TMPDIR" := state_dir (self st1)]> os_environ))) in
    p <- lift (subprocess_Popen ["/bin/sh"; "-c"; script (self st1)]
                                (state_dir (self st1)) environment) ;;
    set_self (Mc.set_process (Some p)) ;;
    mon <- lift (socket_accept MonitorChannel) ;;
    set_self (Mc.set_monitor (Some mon)) ;;
    sh <- lift (socket_accept ShellChannel) ;;
    set_self (Mc.set_shell (Some sh)) ;;
    set_self (Mc.set_last_lines (Some [])) ;;
    lift (modify (W.emit ThreadStarted)) ;;
    wait_for_monitor_prompt ;;
    set_self (Mc.set_pid (Some (popen_pid p))) ;;
    set_self (Mc.set_booted true) ;;
    log_info ("QEMU running (pid " ++ str_of_Z (popen_pid p) ++ ")").

(** *** connect *)

(** The log line with the time connecting took carries no number here:
    the model has no clock to read. *)
Definition connect : M St unit :=
  st <- get ;;
  if connected (self st) then ret tt
  else
    log_info "waiting for the VM to finish booting" ;;
    start ;;
    st1 <- get ;;
    attribute "shell" (shell (self st1)) ;;
    lift shell_recv ;;
    log_info "connected to guest root shell" ;;
    log_info "(connecting took  seconds)" ;;
    set_self (Mc.set_connected true).

(** *** The shell channel *)

Definition sentinel : string := "|!=EOF".

(** The compiled pattern of [execute]: a captured run of [.], the
    literal sentinel, one or more [\s], a captured run of one or more
    [\d]. *)
Definition status_code_pattern : pattern :=
  [Rep true 0 Dot; Lit sentinel; Rep false 1 Space; Rep true 1 Digit].

(** [match[i]], groups counted from 1. *)
Definition group (i : nat) (gs : list string) : string := nth (i - 1) gs "".

(** The [while True] loop of [execute]; every turn takes a chunk off
    the stream or blocks. *)
Fixpoint execute_loop (fuel : nat) (output : string) : M St (Z * string) :=
  match fuel with
  | O => block
  | S k =>
      chunk <- lift shell_recv ;;
      match re_match status_code_pattern chunk with
      | Some gs =>
          let output := output ++ group 1 gs in
          let status_code := int (group 2 gs) in
          ret (status_code, output)
      | None => execute_loop k (output ++ chunk)
      end
  end.

Definition execute (command : string) : M St (Z * string) :=
  connect ;;
  let out_command := "( " ++ command ++ " ); echo '|!=EOF' $?" ++ nl in
  st <- get ;;
  attribute "shell" (shell (self st)) ;;
  lift (send ShellChannel out_command) ;;
  execute_loop (S (length (shell_in (world st)))) "".

(** *** The service manager *)

Definition systemctl (q : string) (user : option string) : M St (Z * string) :=
  match user with
  | Some u =>
      let q := replace_char "'" "\'" q in
      execute ("su -l " ++ u ++ " --shell /bin/sh -c "
               ++ "$'XDG_RUNTIME_DIR=/run/user/`id -u` "
               ++ "systemctl --user " ++ q ++ "'")
  | None => execute ("systemctl " ++ q)
  end.

(** The compiled pattern of [get_unit_info]: start of text, a captured
    run of one or more characters other than [=], the character [=], a
    captured run of [.], end of text. *)
Definition line_pattern : pattern :=
  [Bos; Rep true 1 (Not "="); Lit "="; Rep true 0 Dot; Eos].

(** [dict(tuple_from_line(line) for line in lines if line_pattern.match(line))]:
    a later line with the same key wins. *)
Definition dict_of_lines (lines : list string) : gmap string string :=
  fold_left (fun d line =>
               match re_match line_pattern line with
               | Some gs => <[group 1 gs := group 2 gs]> d
               | None => d
               end) lines ∅.

Definition get_unit_info (unit_ : string) (user : option string)
    : M St (gmap string string) :=
  r <- systemctl ("--no-pager show " ++ dq ++ unit_ ++ dq) user ;;
  let '(status, lines) := r in
  if negb (status =? 0) then
    raise (Exn "Exception"
             ("retrieving systemctl info for unit " ++ dq ++ unit_ ++ dq ++ " "
              ++ match user with
                 | None => ""
                 | Some u => "under user " ++ dq ++ u ++ dq
                 end
              ++ " failed with exit code " ++ str_of_Z status))
  else ret (dict_of_lines (split_on LF lines)).

(** [d[key]] *)
Definition getitem (d : gmap string string) (key : string) : M St string :=
  match d !! key with
  | Some v => ret v
  | None => raise (Exn "KeyError" key)
  end.

Definition unit_failed (unit_ state : string) : exn :=
  Exn "Exception"
      ("unit " ++ dq ++ unit_ ++ dq ++ " reached state " ++ dq ++ state ++ dq).

Definition unit_inactive (unit_ : string) : exn :=
  Exn "Exception"
      ("unit " ++ dq ++ unit_ ++ dq ++ " is inactive and there are no pending jobs").

Definition check_active (unit_ : string) (user : option string) (_ : bool)
    : M St bool :=
  info <- get_unit_info unit_ user ;;
  state <- getitem info "ActiveState" ;;
  (if String.eqb state "failed" then raise (unit_failed unit_ state) else ret tt) ;;
  (if String.eqb state "inactive" then
     r <- systemctl "list-jobs --full 2>&1" user ;;
     let '(status, jobs) := r in
     if contains "No jobs" jobs then
       info <- get_unit_info unit_ user ;;
       state' <- getitem info "ActiveState" ;;
       if String.eqb state' state then raise (unit_inactive unit_) else ret tt
     else ret tt
   else ret tt) ;;
  ret (String.eqb state "active").

Definition wait_for_unit (unit_ : string) (user : option string) : M St unit :=
  retry (check_active unit_ user).

(** *** Shutting down *)

Definition wait_for_shutdown : M St unit :=
  st <- get ;;
  if negb (booted (self st)) then ret tt
  else
    log_info "waiting for the VM to power off" ;;
    lift (modify (W.emit Flushed)) ;;
    attribute "process" (process (self st)) ;;
    lift process_wait ;;
    set_self (Mc.set_pid None) ;;
    set_self (Mc.set_booted false) ;;
    set_self (Mc.set_connected false).

Definition shutdown : M St unit :=
  st <- get ;;
  if negb (booted (self st)) then ret tt
  else
    attribute "shell" (shell (self st)) ;;
    lift (send ShellChannel ("poweroff" ++ nl)) ;;
    wait_for_shutdown.

Definition crash : M St unit :=
  st <- get ;;
  if negb (booted (self st)) then ret tt
  else
    log_info "forced crash" ;;
    send_monitor_command "quit" ;;
    wait_for_shutdown.

(** *** The state directory *)

Definition cleanup_statedir : M St unit :=
  log_info "delete the VM state directory" ;;
  st <- get ;;
  isfile <- lift (os_path_isfile (state_dir (self st))) ;;
  if isfile then lift (shutil_rmtree (state_dir (self st))) else ret tt.

End Driver.

(** ** Start-up of the driver *)

(** ** The composer of the start command *)

Module Composer.
Import Text Host.

Section CreateStartcommand.

(** [os.path.abspath], whose answer depends on the working directory
    of the driver. *)
Variable abspath : string -> string.

(** [args[key]] in a computation that can raise [KeyError]. *)
Definition item (args : gmap string string) (key : string) : exn + string :=
  match args !! key with
  | Some v => inr v
  | None => inl (Exn "KeyError" key)
  end.

Definition create_startcommand (args : gmap string string) : exn + string :=
  let net_backend :=
    "-netdev user,id=net0"
    ++ match args !! "netBackendArgs" with Some a => "," ++ a | None => "" end in
  let net_frontend :=
    "-device virtio-net-pci,netdev=net0"
    ++ match args !! "netFrontendArgs" with Some a => "," ++ a | None => "" end in
  let start_command :=
    "qemu-kvm -m 384 " ++ net_backend ++ " " ++ net_frontend ++ " $QEMU_OPTS " in
  let with_hda : exn + string :=
    match args !! "hda" with
    | Some hda =>
        let hda_path := abspath hda in
        if String.eqb (default "" (args !! "hdaInterface")) "scsi" then
          inr (start_command
               ++ "-drive id=hda,file=" ++ hda_path ++ ",werror=report,if=none "
               ++ "-device scsi-hd,drive=hda ")
        else
          match item args "hdaInterface" with
          | inl e => inl e
          | inr iface =>
              inr (start_command
                   ++ "-drive file=" ++ hda_path ++ ",if=" ++ iface
                   ++ ",werror=report ")
          end
    | None => inr start_command
    end in
  match with_hda with
  | inl e => inl e
  | inr start_command =>
      let start_command :=
        start_command
        ++ match args !! "cdrom" with
           | Some cdrom => "-cdrom " ++ cdrom ++ " "
           | None => ""
           end in
      let start_command :=
        start_command
        ++ match args !! "usb" with
           | Some usb =>
               "-device piix3-usb-uhci -drive " ++ "id=usbdisk,file=" ++ usb
               ++ ",if=none,readonly " ++ "-device usb-storage,drive=usbdisk "
           | None => ""
           end in
      let start_command :=
        start_command
        ++ match args !! "bios" with
           | Some bios => "-bios " ++ bios ++ " "
           | None => ""
           end in
      inr (start_command ++ default "" (args !! "qemuFlags"))
  end.

End CreateStartcommand.

End Composer.

(** ** The driver's [main] *)

Module Main.
Import Text Re Host Driver Composer.

(** What [create_vlan] returns: the VLAN id, the socket directory, the
    switch process and the file object on the master side of the pty. *)
Record Vlan : Type := {
  vlan_nr : string;
  vde_socket : string;
  vde_process : Popen;
  vlan_fd : nat
}.

(** A switch that cannot be run: the host has none left to give. *)
Definition no_switch : Switch :=
  {| switch_infix := ""; switch_spawns := false;
     switch_answers := false; switch_creates_ctl := false |}.

Definition next_switch : M World Switch :=
  w <- get ;;
  match switches w with
  | [] => ret no_switch
  | sw :: rest => modify (W.set_switches rest) ;; ret sw
  end.

(** [tempfile.mkdtemp(prefix, suffix)]: the directory is made with
    [os.mkdir] under a name with a random part, here [infix].  The
    library tries further names when one is taken; the model has one
    candidate a call, and a candidate that is taken ends the call the
    way running out of candidates does. *)
Definition tempfile_mkdtemp (prefix infix suffix : string) : M World string :=
  w <- get ;;
  let path := path_join (tempdir w) (prefix ++ infix ++ suffix) in
  catch (os_mkdir path)
        (fun e => if String.eqb (class_of e) "FileExistsError"
                  then raise (Exn "FileExistsError"
                                  "No usable temporary directory name found")
                  else raise e) ;;
  ret path.

(** [subprocess.Popen] of the switch binary; a switch that runs may
    create its control socket. *)
Definition spawn_switch (sw : Switch) (socket_dir : string) : M World Popen :=
  if switch_spawns sw then
    w <- get ;;
    modify (W.emit (Spawned ["vde_switch"; "-s"; socket_dir; "--dirmode"; "0700"]
                            "" (environ w) (next_pid w))) ;;
    modify (W.set_next_pid (next_pid w + 1)) ;;
    (if switch_creates_ctl sw
     then modify (W.set_fs (insert (path_join socket_dir "ctl") SocketFile))
     else ret tt) ;;
    ret {| popen_pid := next_pid w |}
  else raise (Exn "FileNotFoundError" "vde_switch").

Definition create_vlan (vlan_nr : string) : M World Vlan :=
  logger_info ("starting VDE switch for network " ++ vlan_nr) ;;
  sw <- next_switch ;;
  vde_socket <- tempfile_mkdtemp "nixos-test-vde-" (switch_infix sw)
                                 ("-vde" ++ vlan_nr ++ ".ctl") ;;
  pty_master <- fresh_fd ;;
  pty_slave <- fresh_fd ;;
  vde_process <- spawn_switch sw vde_socket ;;
  send SwitchPty ("version" ++ nl) ;;
  (if switch_answers sw then ret tt else block) ;;
  present <- os_path_exists (path_join vde_socket "ctl") ;;
  if negb present then raise (Exn "Exception" "cannot start vde_switch")
  else ret {| vlan_nr := vlan_nr; vde_socket := vde_socket;
              vde_process := vde_process; vlan_fd := pty_master |}.

(** [list(dict.fromkeys(keys))]: a dictionary keeps its keys in the
    order of their first insertion. *)
Definition dict_add_key (keys : list string) (k : string) : list string :=
  if bool_decide (k ∈ keys) then keys else keys ++ [k].

Definition fromkeys (keys : list string) : list string :=
  fold_left dict_add_key keys [].

(** The pattern of [Machine.__init__]: the literal [run-], a captured
    run of one or more [.], the literal [-vm], end of text. *)
Definition name_pattern : pattern :=
  [Lit "run-"; Rep true 1 Dot; Lit "-vm"; Eos].

Definition create_dir (tmp_dir name : string) : M World string :=
  let path := path_join tmp_dir name in
  os_makedirs path ;; ret path.

(** [Machine.__init__(args)].  The dictionary is given by its entries
    that are texts, [args], and its entry [allowReboot], a truth
    value.  The default script is composed before it is known whether
    it is needed, so that a dictionary the composer fails on fails
    here. *)
Definition Machine_init (args : gmap string string) (allowReboot : option bool)
    : M World Machine :=
  w <- get ;;
  let name :=
    match args !! "name" with
    | Some n => n
    | None =>
        match args !! "startCommand" with
        | Some cmd =>
            if String.eqb cmd "" then "machine"
            else match re_search name_pattern cmd with
                 | Some gs => group 1 gs
                 | None => "machine"
                 end
        | None => "machine"
        end
    end in
  composed <- match create_startcommand (abspath w) args with
              | inl e => raise e
              | inr command => ret command
              end ;;
  let script := default composed (args !! "startCommand") in
  let tmp_dir := default (tempdir w) (environ w !! "TMPDIR") in
  state_dir <- create_dir tmp_dir ("vm-state-" ++ name) ;;
  shared_dir <- create_dir tmp_dir "shared-xchg" ;;
  ret {| name := name; script := script;
         state_dir := state_dir; shared_dir := shared_dir;
         booted := false; connected := false; pid := None;
         socket := None; monitor := None;
         allow_reboot := default false allowReboot;
         monitor_socket := None; shell_socket := None; process := None;
         shell := None; last_lines := None |}.

(** [create_machine(args)]: the entry [redirectSerial] it adds to the
    dictionary is read by nothing in the driver. *)
Definition create_machine (args : gmap string string) (allowReboot : option bool)
    : M World Machine :=
  Machine_init args allowReboot.

(** [main], from the parsing of the command line to the loop that
    cleans the state directories (lines 847 to 866). *)
Definition main (keep_vm_state : bool) (vm_scripts : list string)
    : M World (list Vlan * list Machine) :=
  w <- get ;;
  let vlan_nrs := fromkeys (split (default "" (environ w !! "VLANS"))) in
  vde_sockets <- map_m create_vlan vlan_nrs ;;
  for_each vde_sockets
    (fun v => os_environ_set ("QEMU_VDE_SOCKET_" ++ vlan_nr v) (vde_socket v)) ;;
  machines <- map_m (fun s => create_machine {[ "startCommand" := s ]} None)
                    vm_scripts ;;
  for_each machines
    (fun machine =>
       if negb keep_vm_state then call machine cleanup_statedir ;; ret tt
       else ret tt) ;;
  ret (vde_sockets, machines).

End Main.

(** ** Test scripts *)

(** The operations a test script calls on a machine. *)
Module Script.
Import Driver.

Inductive op : Type :=
| Start
| Connect
| Execute (command : string)
| SendMonitorCommand (command : string)
| WaitForUnit (unit_ : string) (user : option string)
| Shutdown
| Crash
| WaitForShutdown.

Definition run_op (o : op) : M St unit :=
  match o with
  | Start => start
  | Connect => connect
  | Execute command => execute command ;; ret tt
  | SendMonitorCommand command => send_monitor_command command ;; ret tt
  | WaitForUnit unit_ user => wait_for_unit unit_ user
  | Shutdown => shutdown
  | Crash => crash
  | WaitForShutdown => wait_for_shutdown
  end.

(** A script runs its operations in order and stops at the first one
    that raises or never returns. *)
Definition run (ops : list op) : M St unit := for_each ops run_op.

End Script.

(** ** Notions the statements are written in *)

Module Spec.
Import Text Re Host Driver Main.

(** Pre- and postconditions of a call: [Q] holds when it returns, [E]
    when it raises or never returns. *)
Definition triple {S A} (P : S -> Prop) (m : M S A)
    (Q : A -> S -> Prop) (E : S -> Prop) : Prop :=
  forall s, P s ->
    match m s with
    | Returned a s' => Q a s'
    | Raised _ s' => E s'
    | Blocked s' => E s'
    end.

(** The state after [k] attempts of [retry] that all returned false,
    each followed by its one-second sleep. *)
Fixpoint misses (fn : bool -> M St bool) (k : nat) (st : St) : option St :=
  match k with
  | O => Some st
  | S k' =>
      match fn false st with
      | Returned false st1 => misses fn k' (on_world (W.emit (Slept 1)) st1)
      | _ => None
      end
  end.

Definition timed_out : exn := Exn "Exception" "action timed out".

(** The spec's wording of the exhausted budget: after 900 misses,
    [retry] fails with the timeout error. *)
Definition fails_after_budget (fn : bool -> M St bool) (st : St) : Prop :=
  forall st1, misses fn 900 st = Some st1 ->
    exists st2, retry fn st = Raised timed_out st2.

(** Number of places of [hay] at which [needle] starts. *)
Fixpoint occurrences (needle hay : string) : nat :=
  ((if String.prefix needle hay then 1 else 0) +
   match hay with
   | String _ r => occurrences needle r
   | EmptyString => 0
   end)%nat.

(** Every character of [s] is in class [k]. *)
Fixpoint all_in (k : cls) (s : string) : bool :=
  match s with
  | String c r => in_cls k c && all_in k r
  | EmptyString => true
  end.

(** The spec's wording of the framing contract: what [execute] returns
    is free of the sentinel. *)
Definition output_free_of_sentinel (command : string) (st : St) : Prop :=
  forall s out st', execute command st = Returned (s, out) st' ->
    contains sentinel out = false.

(** The reads of one wait for the monitor prompt: [reads] are the byte
    strings received in order, starting from the text [answer] and
    ending with [final]; the wait goes on while a read brings bytes
    and the text does not end with the prompt. *)
Inductive prompt_reads : string -> list string -> string -> Prop :=
| reads_closed answer :
    prompt_reads answer [EmptyString] answer
| reads_prompt answer b t :
    b <> EmptyString -> utf8_decode b = Some t ->
    endswith (answer ++ t) prompt = true ->
    prompt_reads answer [b] (answer ++ t)
| reads_more answer b t bs final :
    b <> EmptyString -> utf8_decode b = Some t ->
    endswith (answer ++ t) prompt = false ->
    prompt_reads (answer ++ t) bs final ->
    prompt_reads answer (b :: bs) final.

(** The spec's wording of the monitor contract: the answer to a
    request ends with the prompt. *)
Definition answer_ends_with_prompt (command : string) (st : St) : Prop :=
  forall answer st', send_monitor_command command st = Returned answer st' ->
    endswith answer prompt = true.

(** All the bytes of a stream of segments. *)
Definition bytes_of (segs : list string) : string :=
  fold_right String.append "" segs.

(** Invariant (i) of the data model. *)
Definition connected_implies_booted (m : Machine) : Prop :=
  connected m = true -> booted m = true.

Definition is_booted (m : Machine) : Prop := booted m = true.

(** [keeps J m]: if [J] holds of the machine before [m], it holds of
    the machine in the state [m] ends in, however [m] ends. *)
Definition keeps {A} (J : Machine -> Prop) (m : M St A) : Prop :=
  forall st, J (self st) -> J (self (final (m st))).


(** Switch processes started, as recorded in the trace. *)
Definition is_switch_spawn (e : event) : bool :=
  match e with
  | Spawned ("vde_switch" :: _) _ _ _ => true
  | _ => false
  end.

Definition switches_started (w : World) : nat :=
  length (List.filter is_switch_spawn (trace w)).





(** The spec's wording of [cleanup_statedir]: the state directory tree
    is gone afterwards. *)
Definition statedir_deleted (m : Machine) (w : World) : Prop :=
  forall p, below (state_dir m) p = true -> fs w !! p = None.

(** The framing contract of [execute], as the code keeps it: the call
    connected, sent the wrapped command and read chunks up to the first
    one the pattern matches; that chunk is text without a line feed,
    the sentinel, white space, digits and a rest; [out] is the chunks
    read before it followed by that text, [s] the number the digits
    spell; and [out] is free of the sentinel when the text received
    holds the sentinel only once. *)
Definition framed (command : string) (st : St) (s : Z) (out : string)
    (st' : St) : Prop :=
  exists st1 earlier g1 ws g2 rest,
    connect st = Returned tt st1 /\
    shell_in (world st1)
    = (earlier ++ (g1 ++ sentinel ++ ws ++ g2 ++ rest)%string
               :: shell_in (world st'))%list /\
    Forall (fun c => re_match status_code_pattern c = None) earlier /\
    re_match status_code_pattern (g1 ++ sentinel ++ ws ++ g2 ++ rest)
    = Some [g1; g2] /\
    all_in Dot g1 = true /\
    ws <> "" /\ all_in Space ws = true /\
    g2 <> "" /\ all_in Digit g2 = true /\
    out = bytes_of earlier ++ g1 /\
    s = int g2 /\
    trace (world st')
    = Sent ShellChannel ("( " ++ command ++ " ); echo '|!=EOF' $?" ++ nl)
      :: trace (world st1) /\
    (occurrences sentinel
       (bytes_of earlier ++ g1 ++ sentinel ++ ws ++ g2 ++ rest) = 1%nat ->
     contains sentinel out = false).

(** The monitor contract, as the code keeps it: the command and a line
    feed were sent, and the answer was read at most 1024 bytes at a
    time, each read decoded and appended, until the text ended with the
    prompt or a read brought no bytes; the text gathered is the answer,
    and it ends with the prompt unless an empty read ended the wait. *)
Definition answered (command : string) (st : St) (answer : string)
    (st' : St) : Prop :=
  exists reads texts,
    prompt_reads "" reads answer /\
    Forall (fun b => (String.length b <= 1024)%nat) reads /\
    Forall2 (fun b t => utf8_decode b = Some t) reads texts /\
    answer = bytes_of texts /\
    (endswith answer prompt = true \/ List.last reads "x" = "") /\
    bytes_of (monitor_in (world st))
    = bytes_of reads ++ bytes_of (monitor_in (world st')) /\
    trace (world st')
    = Sent MonitorChannel (command ++ nl)
      :: Log (name (self st) ++ ": sending monitor command: " ++ command)
      :: trace (world st).

End Spec.

(** ** Concrete machines and hosts *)

Module Scenario.
Import Text Re Host Driver Main.

(** A machine as [Machine.__init__] leaves it. *)
Definition fresh_machine : Machine :=
  {| name := "client"; script := "/nix/store/bin/run-client-vm";
     state_dir := "/tmp/vm-state-client"; shared_dir := "/tmp/shared-xchg";
     booted := false; connected := false; pid := None;
     socket := None; monitor := None; allow_reboot := false;
     monitor_socket := None; shell_socket := None; process := None;
     shell := None; last_lines := None |}.

(** The same machine once booted and connected. *)
Definition running_machine : Machine :=
  {| name := "client"; script := "/nix/store/bin/run-client-vm";
     state_dir := "/tmp/vm-state-client"; shared_dir := "/tmp/shared-xchg";
     booted := true; connected := true; pid := Some 100;
     socket := None; monitor := Some 5%nat; allow_reboot := false;
     monitor_socket :=
       Some {| listener_fd := 3; listener_path := "/tmp/vm-state-client/monitor" |};
     shell_socket :=
       Some {| listener_fd := 4; listener_path := "/tmp/vm-state-client/shell" |};
     process := Some {| popen_pid := 100 |};
     shell := Some 6%nat; last_lines := Some [] |}.

Definition cooperative_switch (infix : string) : Switch :=
  {| switch_infix := infix; switch_spawns := true;
     switch_answers := true; switch_creates_ctl := true |}.

(** A host whose emulator and guest answer, with what the monitor and
    the shell have to say. *)
Definition host (monitor_says shell_says : list string) : World :=
  {| fs := {[ "/tmp" := Directory;
              "/tmp/vm-state-client" := Directory;
              "/tmp/vm-state-client/client.qcow2" := RegularFile;
              "/tmp/shared-xchg" := Directory ]};
     environ := {[ "VLANS" := "1 2 1" ]};
     trace := [];
     next_pid := 100; next_fd := 3;
     monitor_peer := true; shell_peer := true;
     monitor_in := monitor_says; shell_in := shell_says;
     emulator_exits := true;
     switches := [cooperative_switch "k3x9"; cooperative_switch "p0q1"];
     tempdir := "/tmp";
     abspath := path_join "/home/tester" |}.

(** The same host with another value of [VLANS]. *)
Definition host_with_vlans (vlans : string) : World :=
  W.set_environ (insert "VLANS" vlans) (host [] []).

(** A quiet host: nothing arrives on either channel. *)
Definition quiet : St := {| self := fresh_machine; world := host [] [] |}.

(** Predicates for [retry]: one that logs each call and never holds,
    one that holds on the last attempt only. *)
Definition never_logged (last : bool) : M St bool :=
  log_info (if last then "last attempt" else "attempt") ;; ret false.

Definition only_at_last (last : bool) : M St bool := ret last.

(** A predicate that reads the shell and holds once the guest says
    it is up. *)
Definition guest_is_up (_ : bool) : M St bool :=
  chunk <- lift shell_recv ;; ret (String.eqb chunk "up").

(** The state after [n] one-second sleeps. *)
Definition slept (n : nat) (st : St) : St :=
  Nat.iter n (on_world (W.emit (Slept 1))) st.

(** The state after [n] logged attempts, each followed by its sleep. *)
Definition attempted (n : nat) (st : St) : St :=
  Nat.iter n (fun s => on_world (W.emit (Slept 1))
                         (on_world (W.emit (Log "client: attempt")) s)) st.

(** A connected machine on a host with the given traffic. *)
Definition running (monitor_says shell_says : list string) : St :=
  {| self := running_machine; world := host monitor_says shell_says |}.

(** What the emulator prints on the monitor when it comes up. *)
Definition banner : string :=
  "QEMU 4.2.0 monitor - type 'help' for more information" ++ nl ++ "(qemu) ".

(** A machine not yet started, on a host whose emulator comes up and
    whose guest shows its prompt and answers one command. *)
Definition booting : St :=
  {| self := fresh_machine;
     world := host [banner] ["# "; "hi" ++ nl; "|!=EOF 0" ++ nl] |}.

(** What [systemctl show] prints for a unit in a given state, and the
    line that ends the reply to a command. *)
Definition shows (state : string) : string := "ActiveState=" ++ state ++ nl.
Definition status (n : string) : string := "|!=EOF " ++ n ++ nl.

(** Three guests: one whose unit is active at the second look, one
    whose unit has failed, one whose unit is inactive with no job
    pending. *)
Definition unit_comes_up : St :=
  running [] [shows "activating"; status "0"; shows "active"; status "0"].

Definition unit_has_failed : St :=
  running [] [shows "failed"; status "0"].

Definition unit_stays_inactive : St :=
  running [] [shows "inactive"; status "0";
              "No jobs running." ++ nl; status "0";
              shows "inactive"; status "0"].

(** [n] bytes of output. *)
Fixpoint filler (n : nat) : string :=
  match n with
  | O => ""
  | S k => String "x" (filler k)
  end.

(** The start script of the one machine of the test. *)
Definition client_script : string := "/nix/store/bin/run-client-vm".

End Scenario.

(** ** More of the scripting surface *)

Module Methods.
Import Text Re Host Driver.

(** *** succeed and fail *)

Definition command_failed (command : string) (status : Z) : exn :=
  Exn "Exception"
      ("command `" ++ command ++ "` failed (exit code " ++ str_of_Z status ++ ")").

Definition command_succeeded (command : string) : exn :=
  Exn "Exception" ("command `" ++ command ++ "` unexpectedly succeeded").

(** The [for] loop of [succeed], [output] being what the commands
    before have printed. *)
Fixpoint succeed_loop (commands : list string) (output : string) : M St string :=
  match commands with
  | [] => ret output
  | command :: rest =>
      log_info ("must succeed: " ++ command) ;;
      r <- execute command ;;
      let '(status, out) := r in
      if negb (status =? 0) then
        log_info ("output: " ++ out) ;;
        raise (command_failed command status)
      else succeed_loop rest (output ++ out)
  end.

Definition succeed (commands : list string) : M St string :=
  succeed_loop commands "".

Fixpoint fail_loop (commands : list string) (output : string) : M St string :=
  match commands with
  | [] => ret output
  | command :: rest =>
      log_info ("must fail: " ++ command) ;;
      r <- execute command ;;
      let '(status, out) := r in
      if status =? 0 then raise (command_succeeded command)
      else fail_loop rest (output ++ out)
  end.

Definition fail (commands : list string) : M St string :=
  fail_loop commands "".

(** *** Probes built on retry *)

Definition port_is_open (port : Z) (_ : bool) : M St bool :=
  r <- execute ("nc -z localhost " ++ str_of_Z port) ;;
  ret (fst r =? 0).

Definition wait_for_open_port (port : Z) : M St unit :=
  log_info ("waiting for TCP port " ++ str_of_Z port) ;;
  retry (port_is_open port).

Definition port_is_closed (port : Z) (_ : bool) : M St bool :=
  r <- execute ("nc -z localhost " ++ str_of_Z port) ;;
  ret (negb (fst r =? 0)).

Definition wait_for_closed_port (port : Z) : M St unit :=
  retry (port_is_closed port).

Definition check_x (_ : bool) : M St bool :=
  let cmd := "journalctl -b SYSLOG_IDENTIFIER=systemd | "
             ++ "grep " ++ dq ++ "Reached target Current graphical" ++ dq in
  r <- execute cmd ;;
  if negb (fst r =? 0) then ret false
  else
    r <- execute "[ -e /tmp/.X11-unix/X0 ]" ;;
    ret (fst r =? 0).

Definition wait_for_x : M St unit :=
  log_info "waiting for the X11 server" ;;
  retry check_x.

(** *** Keys *)

Definition CHAR_TO_KEY : list (string * string) :=
  [ ("A", "shift-a"); ("N", "shift-n"); ("-", "0x0C"); ("_", "shift-0x0C");
    ("B", "shift-b"); ("O", "shift-o"); ("=", "0x0D"); ("+", "shift-0x0D");
    ("C", "shift-c"); ("P", "shift-p"); ("[", "0x1A"); ("{", "shift-0x1A");
    ("D", "shift-d"); ("Q", "shift-q"); ("]", "0x1B"); ("}", "shift-0x1B");
    ("E", "shift-e"); ("R", "shift-r"); (";", "0x27"); (":", "shift-0x27");
    ("F", "shift-f"); ("S", "shift-s"); ("'", "0x28"); (dq, "shift-0x28");
    ("G", "shift-g"); ("T", "shift-t"); ("`", "0x29"); ("~", "shift-0x29");
    ("H", "shift-h"); ("U", "shift-u"); ("\", "0x2B"); ("|", "shift-0x2B");
    ("I", "shift-i"); ("V", "shift-v"); (",", "0x33"); ("<", "shift-0x33");
    ("J", "shift-j"); ("W", "shift-w"); (".", "0x34"); (">", "shift-0x34");
    ("K", "shift-k"); ("X", "shift-x"); ("/", "0x35"); ("?", "shift-0x35");
    ("L", "shift-l"); ("Y", "shift-y"); (" ", "spc");
    ("M", "shift-m"); ("Z", "shift-z"); (nl, "ret");
    ("!", "shift-0x02"); ("@", "shift-0x03"); ("#", "shift-0x04");
    ("$", "shift-0x05"); ("%", "shift-0x06"); ("^", "shift-0x07");
    ("&", "shift-0x08"); ("*", "shift-0x09"); ("(", "shift-0x0A");
    (")", "shift-0x0B") ].

(** [d.get(key, default)] on a dictionary given by its items. *)
Fixpoint dict_get (d : list (string * string)) (key default : string) : string :=
  match d with
  | [] => default
  | (k, v) :: rest => if String.eqb k key then v else dict_get rest key default
  end.

Definition send_key (key : string) : M St unit :=
  let key := dict_get CHAR_TO_KEY key key in
  send_monitor_command ("sendkey " ++ key) ;; ret tt.

(** *** Short methods *)

Definition is_up (m : Machine) : bool := booted m && connected m.

Definition start_job (jobname : string) (user : option string) : M St (Z * string) :=
  systemctl ("start " ++ jobname) user.

Definition stop_job (jobname : string) (user : option string) : M St (Z * string) :=
  systemctl ("stop " ++ jobname) user.

Definition wait_for_job (jobname : string) : M St unit :=
  wait_for_unit jobname None.

Definition get_tty_text (tty : string) : M St string :=
  r <- execute ("fold -w$(stty -F /dev/tty" ++ tty ++ " size | "
                ++ "awk '{print $2}') /dev/vcs" ++ tty) ;;
  ret (snd r).

(** [self.sleep(secs)] sleeps in the guest. *)
Definition sleep (secs : Z) : M St unit :=
  succeed ["sleep " ++ str_of_Z secs] ;; ret tt.

Definition forward_port (host_port guest_port : Z) : M St unit :=
  send_monitor_command
    ("hostfwd_add tcp::" ++ str_of_Z host_port ++ "-:" ++ str_of_Z guest_port) ;;
  ret tt.

(** The methods [block] and [unblock] of a machine. *)
Definition machine_block : M St unit :=
  send_monitor_command "set_link virtio-net-pci.1 off" ;; ret tt.

Definition machine_unblock : M St unit :=
  send_monitor_command "set_link virtio-net-pci.1 on" ;; ret tt.

End Methods.

(** ** Notions of the further statements *)

Module Spec2.
Import Text Re Host Driver Methods.

(** The first command of [check_x]. *)
Definition x11_journal : string :=
  "journalctl -b SYSLOG_IDENTIFIER=systemd | "
  ++ "grep " ++ dq ++ "Reached target Current graphical" ++ dq.

(** The state in which a method goes on after its log line. *)
Definition logged (msg : string) (st : St) : St :=
  on_world (W.emit (Log (name (self st) ++ ": " ++ msg))) st.

(** What the attributes of a machine say about its emulator: a machine
    that is connected is booted, a machine has a pid exactly while it
    is booted, and the pid is that of its process object. *)
Definition consistent (m : Machine) : Prop :=
  (connected m = true -> booted m = true) /\
  (booted m = true <-> pid m <> None) /\
  (forall p, pid m = Some p -> process m = Some {| popen_pid := p |}).

(** A property of a machine that depends on the two flags, the pid and
    the process only. *)
Definition on_emulator (P : Machine -> Prop) : Prop :=
  forall m m',
    booted m' = booted m -> connected m' = connected m ->
    pid m' = pid m -> process m' = process m -> P m -> P m'.

(** The stages of a machine: not booted; not booted with the emulator
    spawned; booted; booted and connected; powered off. *)
Definition stopped (m : Machine) : Prop := consistent m /\ booted m = false.

Definition spawned (p : Popen) (m : Machine) : Prop :=
  stopped m /\ process m = Some p.

Definition up (m : Machine) : Prop := consistent m /\ booted m = true.

Definition online (m : Machine) : Prop := up m /\ connected m = true.

Definition down (m : Machine) : Prop :=
  consistent m /\ booted m = false /\ connected m = false /\ pid m = None.

(** One turn of the fold of [dict_of_lines]. *)
Definition add_line (d : gmap string string) (line : string) : gmap string string :=
  match re_match line_pattern line with
  | Some gs => <[group 1 gs := group 2 gs]> d
  | None => d
  end.

(** The query of [get_unit_info], and the exception it raises on a
    status other than 0. *)
Definition show_query (unit_ : string) : string :=
  "--no-pager show " ++ dq ++ unit_ ++ dq.

Definition show_failed (unit_ : string) (user : option string) (status : Z) : exn :=
  Exn "Exception"
      ("retrieving systemctl info for unit " ++ dq ++ unit_ ++ dq ++ " "
       ++ match user with
          | None => ""
          | Some u => "under user " ++ dq ++ u ++ dq
          end
       ++ " failed with exit code " ++ str_of_Z status).

(** [needle] starts at an offset below [n] of [hay]. *)
Fixpoint starts_before (needle : string) (n : nat) (hay : string) : bool :=
  match n with
  | O => false
  | S k =>
      String.prefix needle hay ||
      match hay with
      | String _ r => starts_before needle k r
      | EmptyString => false
      end
  end.

(** The directory [Machine.__init__] makes its two directories in. *)
Definition tmp_dir (w : World) : string :=
  default (tempdir w) (environ w !! "TMPDIR").

(** [follows st st']: the state [st'] comes after [st] with the
    environment of the host as it was, the log only longer, and the
    attributes a machine is constructed with untouched. *)
Definition follows (st st' : St) : Prop :=
  environ (world st') = environ (world st) /\
  (exists more, trace (world st') = (more ++ trace (world st))%list) /\
  script (self st') = script (self st) /\
  state_dir (self st') = state_dir (self st) /\
  shared_dir (self st') = shared_dir (self st) /\
  allow_reboot (self st') = allow_reboot (self st).

(** [carries m]: however [m] ends, the state it ends in follows the
    one it began in; [carries_host] is the same of a computation of
    the host. *)
Definition carries {A} (m : M St A) : Prop :=
  forall st, follows st (final (m st)).

Definition carries_host {A} (m : M World A) : Prop :=
  forall w,
    environ (final (m w)) = environ w /\
    exists more, trace (final (m w)) = (more ++ trace w)%list.




End Spec2.

(** ** Longer test scripts *)

Module Script2.
Import Driver Methods.

(** The operations of [Script], and more of the methods a test script
    calls on a machine. *)
Inductive op : Type :=
| Basic (o : Script.op)
| Succeed (commands : list string)
| Fail (commands : list string)
| WaitForOpenPort (port : Z)
| WaitForClosedPort (port : Z)
| WaitForX
| SendKey (key : string)
| StartJob (jobname : string) (user : option string)
| StopJob (jobname : string) (user : option string)
| WaitForJob (jobname : string)
| GetTtyText (tty : string)
| Sleep (secs : Z)
| ForwardPort (host_port guest_port : Z)
| Block
| Unblock.

Definition run_op (o : op) : M St unit :=
  match o with
  | Basic o => Script.run_op o
  | Succeed commands => succeed commands ;; ret tt
  | Fail commands => fail commands ;; ret tt
  | WaitForOpenPort port => wait_for_open_port port
  | WaitForClosedPort port => wait_for_closed_port port
  | WaitForX => wait_for_x
  | SendKey key => send_key key
  | StartJob jobname user => start_job jobname user ;; ret tt
  | StopJob jobname user => stop_job jobname user ;; ret tt
  | WaitForJob jobname => wait_for_job jobname
  | GetTtyText tty => get_tty_text tty ;; ret tt
  | Sleep secs => sleep secs
  | ForwardPort host_port guest_port => forward_port host_port guest_port
  | Block => machine_block
  | Unblock => machine_unblock
  end.

Definition run (ops : list op) : M St unit := for_each ops run_op.

End Script2.

(** ** More guests *)

Module Scenario2.
Import Text Host Driver Scenario.

(** What [systemctl show] prints for a unit that was restarted, and a
    guest that answers with it. *)
Definition description : string :=
  "Id=sshd.service" ++ nl ++ "ActiveState=inactive" ++ nl
  ++ "ActiveState=active" ++ nl ++ "Description=a=b" ++ nl.

Definition unit_described : St := running [] [description; status "0"].

(** A guest that does not know the unit. *)
Definition unit_unknown : St :=
  running [] ["Unit sshd not found." ++ nl; status "1"].

End Scenario2.

(** * Properties *)

(** ** The monad *)

Module MonadFacts.
Import Spec.

Lemma bind_returned {S A B} (m : M S A) (k : A -> M S B) s a s' :
  m s = Returned a s' -> bind m k s = k a s'.
Proof. intros H. unfold bind. now rewrite H. Qed.

Lemma bind_raised {S A B} (m : M S A) (k : A -> M S B) s e s' :
  m s = Raised e s' -> bind m k s = Raised e s'.
Proof. intros H. unfold bind. now rewrite H. Qed.

Lemma bind_blocked {S A B} (m : M S A) (k : A -> M S B) s s' :
  m s = Blocked s' -> bind m k s = Blocked s'.
Proof. intros H. unfold bind. now rewrite H. Qed.

Lemma bind_assoc {S A B C} (m : M S A) (k : A -> M S B) (h : B -> M S C) s :
  bind (bind m k) h s = bind m (fun a => bind (k a) h) s.
Proof. unfold bind. destruct (m s); reflexivity. Qed.

(** A sequence returns only if its first part does. *)
Lemma bind_inv_returned {S A B} (m : M S A) (k : A -> M S B) s b s2 :
  bind m k s = Returned b s2 ->
  exists a s1, m s = Returned a s1 /\ k a s1 = Returned b s2.
Proof.
  unfold bind. destruct (m s) as [a s1|e s1|s1]; intros H; try discriminate.
  now exists a, s1.
Qed.

End MonadFacts.

(** ** Text *)

Module TextFacts.
Import Text.

Lemma append_cons c s t : String c s ++ t = String c (s ++ t).
Proof. reflexivity. Qed.

Lemma append_nil_l s : "" ++ s = s.
Proof. reflexivity. Qed.

Lemma append_nil_r s : s ++ "" = s.
Proof.
  induction s as [|c s IH]; [reflexivity|]. now rewrite append_cons, IH.
Qed.

Lemma append_assoc s t u : (s ++ t) ++ u = s ++ (t ++ u).
Proof.
  induction s as [|c s IH]; [reflexivity|]. now rewrite !append_cons, IH.
Qed.

Lemma length_append s t :
  String.length (s ++ t) = (String.length s + String.length t)%nat.
Proof.
  induction s as [|c s IH]; [reflexivity|]. rewrite append_cons. cbn. now rewrite IH.
Qed.

Lemma take_drop n s : take n s ++ drop n s = s.
Proof.
  revert s. induction n as [|n IH]; intros [|c s]; cbn; try reflexivity.
  now rewrite append_cons, IH.
Qed.

Lemma length_take n s : (String.length (take n s) <= n)%nat.
Proof.
  revert s. induction n as [|n IH]; intros [|c s]; cbn; try lia.
  specialize (IH s). lia.
Qed.

Lemma length_take_le n s :
  (n <= String.length s)%nat -> String.length (take n s) = n.
Proof.
  revert s. induction n as [|n IH]; intros [|c s]; cbn; intros H; try lia.
  rewrite IH; lia.
Qed.

(** A prefix is the beginning of the text. *)
Lemma prefix_split l s :
  String.prefix l s = true -> s = l ++ drop (String.length l) s.
Proof.
  revert s. induction l as [|c l IH]; intros s H; [reflexivity|].
  destruct s as [|d s]; cbn in H; [discriminate|].
  destruct (ascii_dec c d) as [->|]; [|discriminate].
  rewrite append_cons. cbn. f_equal. now apply IH.
Qed.

Lemma prefix_append l s : String.prefix l (l ++ s) = true.
Proof.
  induction l as [|c l IH]; [now destruct s|].
  rewrite append_cons. cbn. destruct (ascii_dec c c); [exact IH|congruence].
Qed.

Lemma prefix_weaken l a b :
  String.prefix l a = true -> String.prefix l (a ++ b) = true.
Proof.
  intros H. rewrite (prefix_split _ _ H), append_assoc. apply prefix_append.
Qed.

End TextFacts.

Module TextExamples.
Import Text Re Host Driver Main.

Example split_vlans : split ("  1 2" ++ nl ++ "1 ") = ["1"; "2"; "1"].
Proof. reflexivity. Qed.

Example split_lines : split_on LF ("Id=x" ++ nl ++ "ActiveState=active" ++ nl)
                      = ["Id=x"; "ActiveState=active"; ""].
Proof. reflexivity. Qed.

Example status_pattern_matches :
  re_match status_code_pattern ("hi|!=EOF 0" ++ nl) = Some ["hi"; "0"] /\
  re_match status_code_pattern ("|!=EOF  " ++ nl ++ " 12x") = Some [""; "12"] /\
  re_match status_code_pattern ("a|!=EOF 1|!=EOF 2") = Some ["a|!=EOF 1"; "2"] /\
  re_match status_code_pattern ("hi" ++ nl ++ "|!=EOF 0" ++ nl) = None /\
  re_match status_code_pattern "|!=EOF0" = None.
Proof. repeat split. Qed.

Example line_pattern_matches :
  re_match line_pattern "ActiveState=active" = Some ["ActiveState"; "active"] /\
  re_match line_pattern "Description=a=b" = Some ["Description"; "a=b"] /\
  re_match line_pattern "=active" = None /\
  re_match line_pattern "no equals sign" = None /\
  re_match line_pattern ("a=b" ++ nl) = Some ["a"; "b"] /\
  re_match line_pattern ("a" ++ nl ++ "b=c") = Some ["a" ++ nl ++ "b"; "c"].
Proof. repeat split. Qed.

Example name_pattern_matches :
  re_search name_pattern "/nix/store/bin/run-client-vm" = Some ["client"] /\
  re_search name_pattern "run-a-vm-run-b-vm" = Some ["a-vm-run-b"] /\
  re_search name_pattern "/nix/store/bin/run-client-vm --fast" = None /\
  re_search name_pattern ("run-x-vm" ++ nl) = Some ["x"].
Proof. repeat split. Qed.

Example unit_info_last_line_wins :
  dict_of_lines ["ActiveState=activating"; "garbage"; "ActiveState=active"]
  !! "ActiveState" = Some "active".
Proof. vm_compute; reflexivity. Qed.

Example decode_examples :
  utf8_decode "(qemu) " = Some "(qemu) " /\
  utf8_decode (String (ascii_of_nat 195) (String (ascii_of_nat 169) ""))
  = Some (String (ascii_of_nat 233) "") /\
  utf8_decode (String (ascii_of_nat 195) "") = None.
Proof. repeat split. Qed.

End TextExamples.

(** ** retry *)

Module RetryFacts.
Import Text Host Driver Spec MonadFacts.

Section Retry.
Variable fn : bool -> M St bool.

(** Attempts that miss are skipped over by the loop. *)
Lemma retry_loop_misses k n st st1 :
  misses fn k st = Some st1 ->
  retry_loop (k + n) fn st = retry_loop n fn st1.
Proof.
  revert st. induction k as [|k IH]; intros st H; cbn [misses] in H.
  - now inversion H.
  - cbn [Nat.add retry_loop]. unfold bind at 1.
    destruct (fn false st) as [[|] s|e s|s]; try discriminate.
    apply IH in H. exact H.
Qed.

Lemma retry_budget_left k st st1 :
  (k < 900)%nat -> misses fn k st = Some st1 ->
  retry fn st =
  bind (retry_loop (S (899 - k)) fn)
       (fun returned =>
          if returned then ret tt
          else ok <- fn true ;; if negb ok then raise timed_out else ret tt) st1.
Proof.
  intros Hk H. unfold retry.
  replace 900%nat with (k + S (899 - k))%nat at 1 by lia.
  unfold bind at 1. rewrite (retry_loop_misses _ _ _ _ H). reflexivity.
Qed.

Lemma retry_budget_spent st st1 :
  misses fn 900 st = Some st1 ->
  retry fn st =
  (ok <- fn true ;; if negb ok then raise timed_out else ret tt) st1.
Proof.
  intros H. unfold retry.
  replace 900%nat with (900 + 0)%nat at 1 by lia.
  unfold bind at 1. rewrite (retry_loop_misses _ _ _ _ H). reflexivity.
Qed.

(** The attempt after [k] misses carries the flag exactly when the
    budget is spent; if it holds, [retry] returns there. *)
Lemma retry_returns k st st1 st2 :
  (k <= 900)%nat -> misses fn k st = Some st1 ->
  fn (k =? 900)%nat st1 = Returned true st2 ->
  retry fn st = Returned tt st2.
Proof.
  intros Hk H Hfn. destruct (Nat.eqb_spec k 900) as [->|Hne].
  - rewrite (retry_budget_spent _ _ H). unfold bind. now rewrite Hfn.
  - rewrite (retry_budget_left k _ _ ltac:(lia) H).
    cbn [retry_loop]. unfold bind. now rewrite Hfn.
Qed.

(** An exception of the predicate leaves [retry] at once. *)
Lemma retry_raises k st st1 st2 e :
  (k <= 900)%nat -> misses fn k st = Some st1 ->
  fn (k =? 900)%nat st1 = Raised e st2 ->
  retry fn st = Raised e st2.
Proof.
  intros Hk H Hfn. destruct (Nat.eqb_spec k 900) as [->|Hne].
  - rewrite (retry_budget_spent _ _ H). unfold bind. now rewrite Hfn.
  - rewrite (retry_budget_left k _ _ ltac:(lia) H).
    cbn [retry_loop]. unfold bind. now rewrite Hfn.
Qed.

Lemma retry_times_out st st1 st2 :
  misses fn 900 st = Some st1 ->
  fn true st1 = Returned false st2 ->
  retry fn st = Raised timed_out st2.
Proof.
  intros H Hfn. rewrite (retry_budget_spent _ _ H). unfold bind. now rewrite Hfn.
Qed.

End Retry.

(** C1, as the code has it.  For every predicate [fn]: the attempts
    before the last carry the flag false and are one second apart; as
    soon as one of the first 900 holds, [retry] returns in the state
    that attempt left; after 900 misses [fn] is called once more with
    the flag set, and [retry] fails with the timeout error when that
    call does not hold either. *)
Theorem retry_budget (fn : bool -> M St bool) (st : St) :
  (forall k st1 st2,
      (k < 900)%nat -> misses fn k st = Some st1 ->
      fn false st1 = Returned true st2 ->
      retry fn st = Returned tt st2) /\
  (forall st1 st2,
      misses fn 900 st = Some st1 ->
      fn true st1 = Returned false st2 ->
      retry fn st = Raised timed_out st2).
Proof.
  split.
  - intros k st1 st2 Hk H Hfn. apply (retry_returns fn k st st1 st2); [lia|exact H|].
    destruct (Nat.eqb_spec k 900); [lia|exact Hfn].
  - intros st1 st2 H Hfn. exact (retry_times_out fn st st1 st2 H Hfn).
Qed.

(** C9.  If the 900 budgeted calls all return false and the last call,
    made with the flag set, returns true, [retry] returns normally. *)
Theorem retry_last_attempt_succeeds (fn : bool -> M St bool) (st st1 st2 : St) :
  misses fn 900 st = Some st1 ->
  fn true st1 = Returned true st2 ->
  retry fn st = Returned tt st2.
Proof.
  intros H Hfn. apply (retry_returns fn 900 st st1 st2); [lia|exact H|exact Hfn].
Qed.

End RetryFacts.

Module RetryExamples.
Import Text Host Driver Spec Scenario RetryFacts.

(** A predicate that holds on the last attempt only survives the whole
    budget and makes [retry] return: the claim that an exhausted
    budget always ends in the timeout error fails. *)
Lemma retry_exhausted_budget_may_return :
  misses only_at_last 900 quiet = Some (slept 900 quiet) /\
  retry only_at_last quiet = Returned tt (slept 900 quiet) /\
  ~ fails_after_budget only_at_last quiet.
Proof.
  assert (Hm : misses only_at_last 900 quiet = Some (slept 900 quiet))
    by (vm_compute; reflexivity).
  assert (Hr : retry only_at_last quiet = Returned tt (slept 900 quiet))
    by (vm_compute; reflexivity).
  split; [exact Hm|split; [exact Hr|]].
  intros H. destruct (H _ Hm) as [st2 H2]. rewrite Hr in H2. discriminate.
Qed.

(** The guest is up at the third look: two misses, two sleeps, and
    [retry] returns.  A predicate that never holds is called 900 times
    and once more, and [retry] times out. *)
Lemma retry_budget_witness :
  retry guest_is_up (running [] ["down"; "down"; "up"])
  = Returned tt (slept 2 (running [] [])) /\
  retry never_logged quiet
  = Raised timed_out
      (on_world (W.emit (Log "client: last attempt")) (attempted 900 quiet)).
Proof.
  split.
  - apply (proj1 (retry_budget guest_is_up (running [] ["down"; "down"; "up"]))
             2%nat (slept 2 (running [] ["up"]))).
    + lia.
    + vm_compute; reflexivity.
    + vm_compute; reflexivity.
  - apply (proj2 (retry_budget never_logged quiet) (attempted 900 quiet)).
    + vm_compute; reflexivity.
    + vm_compute; reflexivity.
Defined.

Lemma retry_last_attempt_succeeds_witness :
  retry only_at_last quiet = Returned tt (slept 900 quiet).
Proof.
  apply (retry_last_attempt_succeeds only_at_last quiet (slept 900 quiet)).
  - vm_compute; reflexivity.
  - vm_compute; reflexivity.
Defined.

End RetryExamples.

(** ** What a call does to the machine *)

Module Frame.
Import Text Re Host Driver Spec MonadFacts.

Section Keeps.
Variable J : Machine -> Prop.

Lemma keeps_ret {A} (a : A) : keeps J (ret a).
Proof. intros st H. exact H. Qed.

Lemma keeps_get : keeps J get.
Proof. intros st H. exact H. Qed.

Lemma keeps_raise {A} e : keeps J (@raise St A e).
Proof. intros st H. exact H. Qed.

Lemma keeps_block {A} : keeps J (@block St A).
Proof. intros st H. exact H. Qed.

Lemma keeps_bind {A B} (m : M St A) (k : A -> M St B) :
  keeps J m -> (forall a, keeps J (k a)) -> keeps J (bind m k).
Proof.
  intros Hm Hk st H. specialize (Hm st H). unfold bind.
  destruct (m st) as [a s|e s|s]; cbn in *; auto. now apply Hk.
Qed.

(** After a part that, when it returns, establishes [B], it is enough
    that the rest keeps [B], if [B] is stronger than [J]. *)
Lemma keeps_bind_post {A C} (B : Machine -> Prop) (m : M St A) (k : A -> M St C) :
  keeps J m ->
  (forall st a st', m st = Returned a st' -> B (self st')) ->
  (forall a, keeps B (k a)) ->
  (forall mc, B mc -> J mc) ->
  keeps J (bind m k).
Proof.
  intros Hm Hpost Hk HBJ st H. specialize (Hm st H). unfold bind.
  destruct (m st) as [a s|e s|s] eqn:E; cbn in *; auto.
  apply HBJ, Hk. now apply (Hpost st a s).
Qed.

(** Host computations do not touch the machine. *)
Lemma lift_self {A} (m : M World A) st : self (final (lift m st)) = self st.
Proof. unfold lift. destruct (m (world st)); reflexivity. Qed.

Lemma keeps_lift {A} (m : M World A) : keeps J (lift m).
Proof. intros st H. now rewrite lift_self. Qed.

Lemma keeps_set_self f : (forall m, J m -> J (f m)) -> keeps J (set_self f).
Proof. intros Hf st H. cbn. now apply Hf. Qed.

Lemma keeps_log_info msg : keeps J (log_info msg).
Proof. intros st H. exact H. Qed.

Lemma keeps_attribute {A} attr (v : option A) : keeps J (attribute attr v).
Proof. intros st H. destruct v; exact H. Qed.

Lemma keeps_assert_not_none {A} (v : option A) : keeps J (assert_not_none v).
Proof. intros st H. destruct v; exact H. Qed.

Lemma keeps_decode b : keeps J (decode b).
Proof. intros st H. unfold decode. destruct (utf8_decode b); exact H. Qed.

Lemma keeps_getitem d key : keeps J (getitem d key).
Proof. intros st H. unfold getitem. destruct (d !! key); exact H. Qed.

End Keeps.

Create HintDb keeps.
#[export] Hint Resolve keeps_ret keeps_get keeps_raise keeps_block keeps_lift
  keeps_log_info keeps_attribute keeps_assert_not_none keeps_decode
  keeps_getitem : keeps.

(** One step through the structure of a method. *)
Ltac keeps_step :=
  lazymatch goal with
  | |- keeps _ (bind _ _) => apply keeps_bind; [|intros]
  | |- keeps _ (if ?b then _ else _) => destruct b
  | |- keeps _ (match ?x with _ => _ end) => destruct x
  | |- _ => solve [eauto with keeps]
  end.

Ltac keeps_auto := repeat keeps_step.

Section Channels.
Variable J : Machine -> Prop.

Lemma keeps_monitor_loop fuel answer : keeps J (monitor_loop fuel answer).
Proof.
  revert answer. induction fuel as [|fuel IH]; intros answer; cbn [monitor_loop].
  - keeps_auto.
  - keeps_auto.
Qed.

Lemma keeps_wait_for_monitor_prompt : keeps J wait_for_monitor_prompt.
Proof. unfold wait_for_monitor_prompt. keeps_auto. apply keeps_monitor_loop. Qed.

Lemma keeps_send_monitor_command command : keeps J (send_monitor_command command).
Proof.
  unfold send_monitor_command. keeps_auto. apply keeps_wait_for_monitor_prompt.
Qed.

Lemma keeps_execute_loop fuel output : keeps J (execute_loop fuel output).
Proof.
  revert output. induction fuel as [|fuel IH]; intros output; cbn [execute_loop].
  - keeps_auto.
  - keeps_auto.
Qed.

Lemma keeps_retry_loop fn n :
  (forall last, keeps J (fn last)) -> keeps J (retry_loop n fn).
Proof.
  intros Hfn. induction n as [|n IH]; cbn [retry_loop]; keeps_auto; auto.
Qed.

Lemma keeps_retry fn : (forall last, keeps J (fn last)) -> keeps J (retry fn).
Proof.
  intros Hfn. unfold retry. keeps_auto; auto. now apply keeps_retry_loop.
Qed.

End Channels.

End Frame.

(** ** The life cycle of a machine *)

Module Lifecycle.
Import Text Re Host Driver Script Spec MonadFacts Frame.

Lemma booted_implies_invariant m : is_booted m -> connected_implies_booted m.
Proof. intros H _. exact H. Qed.

(** Setting an attribute other than the two flags. *)
Lemma keeps_other_attribute (J : Machine -> Prop) (f : Machine -> Machine) :
  (forall m m', booted m' = booted m -> connected m' = connected m -> J m -> J m') ->
  (forall m, booted (f m) = booted m /\ connected (f m) = connected m) ->
  keeps J (set_self f).
Proof.
  intros HJ Hf. apply keeps_set_self. intros m Hm.
  destruct (Hf m) as [Hb Hc]. exact (HJ m (f m) Hb Hc Hm).
Qed.

Lemma invariant_flags m m' :
  booted m' = booted m -> connected m' = connected m ->
  connected_implies_booted m -> connected_implies_booted m'.
Proof. unfold connected_implies_booted. intros -> ->. auto. Qed.

Lemma is_booted_flags m m' :
  booted m' = booted m -> connected m' = connected m ->
  is_booted m -> is_booted m'.
Proof. unfold is_booted. intros -> _. auto. Qed.

(** *** start *)

Lemma keeps_start (J : Machine -> Prop) :
  (forall m m', booted m' = booted m -> connected m' = connected m -> J m -> J m') ->
  (forall m, J m -> J (Mc.set_booted true m)) ->
  keeps J start.
Proof.
  intros HJ Hb. unfold start.
  keeps_auto;
    try (apply (keeps_other_attribute J _ HJ); intros; split; reflexivity).
  - apply keeps_wait_for_monitor_prompt.
  - now apply keeps_set_self.
Qed.

Lemma start_keeps_invariant : keeps connected_implies_booted start.
Proof.
  apply keeps_start.
  - exact invariant_flags.
  - intros m _ _. reflexivity.
Qed.

Lemma start_keeps_booted : keeps is_booted start.
Proof.
  apply keeps_start.
  - exact is_booted_flags.
  - intros m _. reflexivity.
Qed.

(** Peeling the calls of a sequence that returned, down to the call
    that sets the flag. *)
Ltac peel H :=
  repeat lazymatch type of H with
    | bind (set_self (Mc.set_booted true)) _ _ = Returned _ _ => fail
    | bind _ _ _ = Returned _ _ =>
        apply bind_inv_returned in H; destruct H as (? & ? & _ & H)
    end.

(** When [start] returns, the machine is booted. *)
Lemma start_booted st st' : start st = Returned tt st' -> booted (self st') = true.
Proof.
  unfold start. intros H.
  apply bind_inv_returned in H. destruct H as (s0 & st0 & Hget & H).
  inversion Hget; subst s0 st0; clear Hget.
  destruct (booted (self st)) eqn:E.
  - inversion H; subst. exact E.
  - peel H. cbv [bind set_self modify log_info get lift logger_info] in H.
    inversion H. reflexivity.
Qed.

(** *** connect and the calls built on it *)

Lemma connect_keeps_invariant : keeps connected_implies_booted connect.
Proof.
  unfold connect. keeps_step; [keeps_auto|].
  keeps_step; [keeps_auto|].
  keeps_step; [keeps_auto|].
  apply (keeps_bind_post _ is_booted).
  - exact start_keeps_invariant.
  - intros s [] s' H. exact (start_booted _ _ H).
  - intros _. keeps_auto.
  - exact booted_implies_invariant.
Qed.

Lemma execute_keeps_invariant command :
  keeps connected_implies_booted (execute command).
Proof.
  unfold execute. keeps_auto.
  - exact connect_keeps_invariant.
  - apply keeps_execute_loop.
Qed.

Lemma systemctl_keeps_invariant q user :
  keeps connected_implies_booted (systemctl q user).
Proof. unfold systemctl. destruct user; apply execute_keeps_invariant. Qed.

Lemma get_unit_info_keeps_invariant unit_ user :
  keeps connected_implies_booted (get_unit_info unit_ user).
Proof.
  unfold get_unit_info. keeps_auto. apply systemctl_keeps_invariant.
Qed.

Lemma check_active_keeps_invariant unit_ user last :
  keeps connected_implies_booted (check_active unit_ user last).
Proof.
  unfold check_active.
  keeps_auto; first [apply get_unit_info_keeps_invariant
                    |apply systemctl_keeps_invariant].
Qed.

Lemma wait_for_unit_keeps_invariant unit_ user :
  keeps connected_implies_booted (wait_for_unit unit_ user).
Proof.
  unfold wait_for_unit. apply keeps_retry. intros last.
  apply check_active_keeps_invariant.
Qed.

(** *** Shutting down *)

(** The three assignments that end [wait_for_shutdown] leave a machine
    that is neither booted nor connected. *)
Lemma reset_flags st :
  exists st',
    (set_self (Mc.set_pid None) ;;
     set_self (Mc.set_booted false) ;;
     set_self (Mc.set_connected false)) st = Returned tt st' /\
    booted (self st') = false /\ connected (self st') = false /\
    pid (self st') = None /\ world st' = world st.
Proof. eexists. repeat split. Qed.

Lemma wait_for_shutdown_keeps_invariant :
  keeps connected_implies_booted wait_for_shutdown.
Proof.
  unfold wait_for_shutdown. keeps_step; [keeps_auto|].
  keeps_step; [keeps_auto|].
  do 4 (keeps_step; [keeps_auto|]).
  intros s _. destruct (reset_flags s) as (s' & -> & _ & Hc & _).
  cbn. intros Hc'. rewrite Hc in Hc'. discriminate.
Qed.

Lemma shutdown_keeps_invariant : keeps connected_implies_booted shutdown.
Proof. unfold shutdown. keeps_auto. exact wait_for_shutdown_keeps_invariant. Qed.

Lemma crash_keeps_invariant : keeps connected_implies_booted crash.
Proof.
  unfold crash. keeps_auto.
  - apply keeps_send_monitor_command.
  - exact wait_for_shutdown_keeps_invariant.
Qed.

Lemma run_op_keeps_invariant o : keeps connected_implies_booted (run_op o).
Proof.
  destruct o; cbn [run_op]; keeps_auto;
    first [exact start_keeps_invariant
          |exact connect_keeps_invariant
          |apply execute_keeps_invariant
          |apply keeps_send_monitor_command
          |apply wait_for_unit_keeps_invariant
          |exact shutdown_keeps_invariant
          |exact crash_keeps_invariant
          |exact wait_for_shutdown_keeps_invariant].
Qed.

(** C4.  Invariant (i): whatever operations a script runs on a
    machine ([start], [connect], [execute], [shutdown], [crash],
    [wait_for_shutdown], also [send_monitor_command] and
    [wait_for_unit]), and however the run ends, a machine that is
    connected is booted. *)
Theorem connected_implies_booted_invariant (ops : list op) (st : St) :
  connected_implies_booted (self st) ->
  connected_implies_booted (self (final (run ops st))).
Proof.
  revert st. induction ops as [|o ops IH]; intros st H.
  - exact H.
  - unfold run. cbn [for_each].
    apply (keeps_bind connected_implies_booted (run_op o)
             (fun _ => for_each ops run_op)); [apply run_op_keeps_invariant| |exact H].
    intros _ s Hs. exact (IH s Hs).
Qed.

Lemma run_keeps_invariant ops : keeps connected_implies_booted (run ops).
Proof.
  induction ops as [|o ops IH]; unfold run; cbn [for_each].
  - apply keeps_ret.
  - apply keeps_bind; [apply run_op_keeps_invariant|intros _; exact IH].
Qed.

(** A machine as the driver constructs it is neither booted nor
    connected, so the invariant holds of it from the start. *)
Corollary constructed_machine_invariant (args : gmap string string)
    (allowReboot : option bool) (w w1 w2 : World) (m : Machine) (ops : list op) :
  Main.create_machine args allowReboot w = Returned m w1 ->
  connected_implies_booted (self (final (run ops {| self := m; world := w2 |}))).
Proof.
  intros H.
  assert (Hc : connected m = false).
  { unfold Main.create_machine, Main.Machine_init in H.
    repeat (apply bind_inv_returned in H; destruct H as (? & ? & _ & H)).
    inversion H. reflexivity. }
  pose proof (run_keeps_invariant ops {| self := m; world := w2 |}) as Hinv.
  apply Hinv. intros Hc'. cbn in Hc'. rewrite Hc in Hc'. discriminate.
Qed.

(** C7.  [start] is idempotent: calling it twice is calling it once,
    and a call on a machine that a returned [start] left returns at
    once and changes nothing, neither in the machine nor on the host. *)
Theorem start_idempotent (st : St) :
  (start ;; start) st = start st /\
  (forall st', start st = Returned tt st' -> start st' = Returned tt st').
Proof.
  assert (again : forall s s', start s = Returned tt s' -> start s' = Returned tt s').
  { intros s s' H. apply start_booted in H. unfold start.
    cbv [bind get]. rewrite H. reflexivity. }
  split.
  - unfold bind at 1. destruct (start st) as [[] s|e s|s] eqn:E; try reflexivity.
    exact (again st s E).
  - exact (again st).
Qed.

(** C10.  On a machine that is not booted [wait_for_shutdown] returns
    at once: it does not wait, and it leaves the machine, with its
    [booted], [connected] and [pid], and the host as they were. *)
Theorem wait_for_shutdown_not_booted (st : St) :
  booted (self st) = false -> wait_for_shutdown st = Returned tt st.
Proof.
  intros H. unfold wait_for_shutdown. cbv [bind get]. rewrite H. reflexivity.
Qed.

End Lifecycle.

Module LifecycleExamples.
Import Text Host Driver Script Spec Scenario Lifecycle.

(** A script that boots the guest, runs a command, powers the machine
    off and asks for a crash ends with the invariant in place. *)
Lemma connected_implies_booted_invariant_witness :
  connected_implies_booted (self booting) /\
  connected_implies_booted
    (self (final (run [Connect; Execute "echo hi"; Shutdown; Crash] booting))).
Proof.
  assert (H : connected_implies_booted (self booting)) by (intros H; exact H).
  split; [exact H|].
  exact (connected_implies_booted_invariant
           [Connect; Execute "echo hi"; Shutdown; Crash] booting H).
Defined.

(** The script above really runs to its end, and passes through a
    state in which the machine is connected. *)
Example script_runs :
  (exists st, run [Connect; Execute "echo hi"] booting = Returned tt st /\
              connected (self st) = true /\ booted (self st) = true) /\
  (exists st, run [Connect; Execute "echo hi"; Shutdown; Crash] booting
              = Returned tt st /\
              connected (self st) = false /\ booted (self st) = false).
Proof. split; eexists; (split; [vm_compute; reflexivity|split; reflexivity]). Qed.

Lemma start_idempotent_witness :
  start booting = Returned tt (final (start booting)) /\
  booted (self (final (start booting))) = true /\
  start (final (start booting)) = Returned tt (final (start booting)).
Proof.
  assert (H : start booting = Returned tt (final (start booting)))
    by (vm_compute; reflexivity).
  split; [exact H|]. split; [vm_compute; reflexivity|].
  exact (proj2 (start_idempotent booting) (final (start booting)) H).
Defined.

Lemma wait_for_shutdown_not_booted_witness :
  booted (self booting) = false /\
  wait_for_shutdown booting = Returned tt booting.
Proof.
  split; [reflexivity|].
  apply (wait_for_shutdown_not_booted booting). reflexivity.
Defined.

End LifecycleExamples.

(** ** The monitor channel *)

Module Monitor.
Import Text Host Driver Spec MonadFacts TextFacts.

Lemma length_drop n s : String.length (drop n s) = (String.length s - n)%nat.
Proof.
  revert s. induction n as [|n IH]; intros [|c s]; cbn; try lia. apply IH.
Qed.

(** What one read of the monitor does: it hands over at most [n]
    bytes, the first of the stream, and touches nothing else. *)
Lemma monitor_recv_returned n st b s1 :
  lift (monitor_recv n) st = Returned b s1 ->
  (String.length b <= n)%nat /\
  bytes_of (monitor_in (world st)) = b ++ bytes_of (monitor_in (world s1)) /\
  s1 = on_world (W.set_monitor_in (monitor_in (world s1))) st /\
  ((0 < n)%nat ->
   (pending_reads (monitor_in (world s1)) < pending_reads (monitor_in (world st)))%nat).
Proof.
  unfold lift, monitor_recv. cbv [bind get].
  destruct st as [m w]. cbn [world self].
  destruct (monitor_in w) as [|seg rest] eqn:E; cbn; [discriminate|].
  destruct (Nat.leb_spec (String.length seg) n) as [Hle|Hgt]; cbn;
    intros H; inversion H; subst; clear H; cbn.
  - repeat split; lia.
  - split; [apply length_take|]. split; [|split; [reflexivity|]].
    + now rewrite <- append_assoc, take_drop.
    + rewrite length_drop. lia.
Qed.

Lemma decode_returned b (st : St) t s1 :
  decode b st = Returned t s1 -> utf8_decode b = Some t /\ s1 = st.
Proof.
  unfold decode. destruct (utf8_decode b); cbn; intros H; inversion H; auto.
Qed.

(** The loop, when it returns, has made the reads the contract
    describes. *)
Lemma monitor_loop_returned fuel answer0 st answer st' :
  monitor_loop fuel answer0 st = Returned answer st' ->
  exists reads,
    prompt_reads answer0 reads answer /\
    Forall (fun b => (String.length b <= 1024)%nat) reads /\
    bytes_of (monitor_in (world st))
    = bytes_of reads ++ bytes_of (monitor_in (world st')) /\
    st' = on_world (W.set_monitor_in (monitor_in (world st'))) st.
Proof.
  revert answer0 st. induction fuel as [|fuel IH]; intros answer0 st H;
    cbn [monitor_loop] in H; [discriminate|].
  apply bind_inv_returned in H. destruct H as (b & s1 & Hrecv & H).
  apply monitor_recv_returned in Hrecv. destruct Hrecv as (Hlen & Hbytes & Hs1 & _).
  destruct (String.eqb_spec b "") as [->|Hne].
  - inversion H; subst. exists [""]. repeat split; auto.
    constructor.
  - apply bind_inv_returned in H. destruct H as (t & s2 & Hdec & H).
    apply decode_returned in Hdec. destruct Hdec as [Hdec ->].
    destruct (endswith (answer0 ++ t) prompt) eqn:Eend.
    + inversion H; subst. exists [b]. repeat split; auto.
      * now constructor.
      * cbn. now rewrite append_nil_r.
    + apply IH in H. destruct H as (reads & Hreads & Hall & Hb & Hst').
      exists (b :: reads). repeat split.
      * now apply reads_more with t.
      * now constructor.
      * rewrite Hbytes, Hb. cbn. now rewrite append_assoc.
      * rewrite Hst' at 1. rewrite Hs1 at 1. reflexivity.
Qed.

(** The fuel of the loop is never what stops it. *)
Lemma monitor_loop_fuel fuel fuel' answer st :
  (pending_reads (monitor_in (world st)) < fuel)%nat ->
  (pending_reads (monitor_in (world st)) < fuel')%nat ->
  monitor_loop fuel answer st = monitor_loop fuel' answer st.
Proof.
  revert fuel' answer st. induction fuel as [|fuel IH]; intros fuel' answer st H H';
    [lia|]. destruct fuel' as [|fuel']; [lia|]. cbn [monitor_loop].
  unfold bind at 1 3.
  destruct (lift (monitor_recv 1024) st) as [b s1|e s1|s1] eqn:E; try reflexivity.
  apply monitor_recv_returned in E. destruct E as (_ & _ & _ & Hlt).
  specialize (Hlt ltac:(lia)).
  destruct (String.eqb b ""); [reflexivity|].
  unfold bind. destruct (decode b s1) as [t s2|e s2|s2] eqn:D; try reflexivity.
  apply decode_returned in D. destruct D as [_ ->].
  destruct (endswith (answer ++ t) prompt); [reflexivity|].
  apply IH; lia.
Qed.

Lemma wait_for_monitor_prompt_returned st answer st' :
  wait_for_monitor_prompt st = Returned answer st' ->
  exists reads,
    prompt_reads "" reads answer /\
    Forall (fun b => (String.length b <= 1024)%nat) reads /\
    bytes_of (monitor_in (world st))
    = bytes_of reads ++ bytes_of (monitor_in (world st')) /\
    st' = on_world (W.set_monitor_in (monitor_in (world st'))) st.
Proof.
  unfold wait_for_monitor_prompt. intros H.
  apply bind_inv_returned in H. destruct H as (s0 & s1 & Hget & H).
  inversion Hget; subst s0 s1; clear Hget.
  apply bind_inv_returned in H. destruct H as (fd & s1 & Ha & H).
  destruct (monitor (self st)); cbn in Ha; inversion Ha; subst.
  exact (monitor_loop_returned _ _ _ _ _ H).
Qed.

(** How a wait ends, and what it returns. *)
Lemma prompt_reads_end answer0 reads answer :
  prompt_reads answer0 reads answer ->
  (endswith answer prompt = true \/ List.last reads "x" = "") /\
  exists texts,
    Forall2 (fun b t => utf8_decode b = Some t) reads texts /\
    answer = answer0 ++ bytes_of texts.
Proof.
  induction 1 as [a|a b t Hb Hd He|a b t bs f Hb Hd He Hr [IH1 (texts & IH2 & IH3)]].
  - split; [now right|]. exists [""]. split; [now repeat constructor|].
    cbn. now rewrite append_nil_r.
  - split; [now left|]. exists [t]. split; [now repeat constructor|].
    cbn. now rewrite append_nil_r.
  - split.
    + destruct IH1 as [IH1|IH1]; [now left|right].
      destruct bs; [inversion Hr|exact IH1].
    + exists (t :: texts). split; [now constructor|].
      rewrite IH3. cbn. now rewrite append_assoc.
Qed.

(** C8, as the code has it.  A monitor request that returns has sent
    the command and a line feed, and has then read the answer at most
    1024 bytes at a time, decoding each read and appending it, until
    the text ended with the prompt or a read brought no bytes (the
    emulator closed the connection).  The text gathered is returned;
    it ends with the prompt unless an empty read ended the wait. *)
Theorem monitor_response (command : string) (st : St) (answer : string) (st' : St) :
  send_monitor_command command st = Returned answer st' ->
  answered command st answer st'.
Proof.
  unfold send_monitor_command, answered. intros H.
  cbv [bind log_info get lift logger_info modify send] in H. cbn [world self] in H.
  destruct (monitor (self st)) as [fd|] eqn:Em; cbn [assert_not_none ret raise] in H;
    [|discriminate].
  apply wait_for_monitor_prompt_returned in H.
  destruct H as (reads & Hreads & Hall & Hb & Hst').
  destruct (prompt_reads_end _ _ _ Hreads) as (Hend & texts & Ht & Ha).
  exists reads, texts. split; [exact Hreads|]. split; [exact Hall|].
  split; [exact Ht|]. split; [exact Ha|]. split; [exact Hend|].
  split; [exact Hb|]. rewrite Hst'. reflexivity.
Qed.

End Monitor.

(** ** Patterns *)

Module ReFacts.
Import Text Re Spec TextFacts.

Lemma longest_first_some {R} (try : nat -> option R) lo extra r :
  longest_first try lo extra = Some r ->
  exists j, (lo <= j <= lo + extra)%nat /\ try j = Some r.
Proof.
  induction extra as [|extra IH]; cbn [longest_first].
  - destruct (try (lo + 0)%nat) eqn:E; [|discriminate].
    intros H; inversion H; subst. exists (lo + 0)%nat. split; [lia|exact E].
  - destruct (try (lo + S extra)%nat) eqn:E.
    + intros H; inversion H; subst. exists (lo + S extra)%nat. split; [lia|exact E].
    + intros H. destruct (IH H) as (j & Hj & Hr). exists j. split; [lia|exact Hr].
Qed.

(** The first [j] characters of a run are in its class. *)
Lemma span_take k j s :
  (j <= span (in_cls k) s)%nat ->
  all_in k (take j s) = true /\ String.length (take j s) = j.
Proof.
  revert s. induction j as [|j IH]; intros s H; [now destruct s|].
  destruct s as [|c s]; cbn [span] in H; [lia|].
  destruct (in_cls k c) eqn:E; [|lia].
  destruct (IH s ltac:(lia)) as [IH1 IH2].
  cbn. rewrite E, IH1, IH2. now split.
Qed.

Lemma match_lit l rest pos s gs :
  match_at (Lit l :: rest) pos s = Some gs ->
  s = l ++ drop (String.length l) s /\
  match_at rest (pos + String.length l) (drop (String.length l) s) = Some gs.
Proof.
  cbn [match_at]. destruct (String.prefix l s) eqn:E; [|discriminate].
  intros H. split; [now apply prefix_split|exact H].
Qed.

Lemma match_rep captured min k rest pos s gs :
  match_at (Rep captured min k :: rest) pos s = Some gs ->
  exists j gs',
    (min <= j)%nat /\ all_in k (take j s) = true /\
    String.length (take j s) = j /\
    match_at rest (pos + j) (drop j s) = Some gs' /\
    gs = if captured then take j s :: gs' else gs'.
Proof.
  cbn [match_at]. cbv zeta.
  destruct (Nat.ltb_spec (span (in_cls k) s) min) as [|Hmin]; [discriminate|].
  intros H. apply longest_first_some in H. destruct H as (j & Hj & H).
  destruct (match_at rest (pos + j) (drop j s)) as [gs'|] eqn:E; [|discriminate].
  inversion H; subst; clear H.
  destruct (span_take k j s ltac:(lia)) as [Hall Hlen].
  exists j, gs'. repeat split; auto; lia.
Qed.

End ReFacts.

(** ** The shell channel *)

Module Shell.
Import Text Re Host Driver Spec MonadFacts TextFacts ReFacts.

(** A chunk the pattern of [execute] matches: some text without a line
    feed, the sentinel, white space, the digits of the status, and
    whatever follows. *)
Lemma status_code_match chunk gs :
  re_match status_code_pattern chunk = Some gs ->
  exists g1 ws g2 rest,
    gs = [g1; g2] /\
    chunk = g1 ++ sentinel ++ ws ++ g2 ++ rest /\
    all_in Dot g1 = true /\
    ws <> "" /\ all_in Space ws = true /\
    g2 <> "" /\ all_in Digit g2 = true.
Proof.
  unfold re_match, status_code_pattern. intros H.
  apply match_rep in H. destruct H as (j1 & gs1 & _ & Hdot & _ & H & ->).
  apply match_lit in H. destruct H as (Hs & H).
  apply match_rep in H. destruct H as (j2 & gs2 & Hj2 & Hsp & Hl2 & H & ->).
  apply match_rep in H. destruct H as (j3 & gs3 & Hj3 & Hdg & Hl3 & H & ->).
  cbn [match_at] in H. inversion H; subst gs3; clear H.
  set (t1 := drop j1 chunk) in *.
  set (t2 := drop (String.length sentinel) t1) in *.
  set (t3 := drop j2 t2) in *.
  exists (take j1 chunk), (take j2 t2), (take j3 t3), (drop j3 t3).
  split; [reflexivity|]. split.
  - rewrite (take_drop j3 t3). unfold t3. rewrite (take_drop j2 t2).
    rewrite <- Hs. unfold t1. now rewrite take_drop.
  - repeat split; auto.
    + intros E. rewrite E in Hl2. cbn in Hl2. lia.
    + intros E. rewrite E in Hl3. cbn in Hl3. lia.
Qed.

(** *** Occurrences of the sentinel *)

Lemma occurrences_app needle a b :
  needle <> "" ->
  (occurrences needle a + occurrences needle b <= occurrences needle (a ++ b))%nat.
Proof.
  intros Hn. induction a as [|c a IH].
  - rewrite append_nil_l. cbn [occurrences].
    destruct needle; [congruence|]. cbn. lia.
  - rewrite append_cons. cbn [occurrences].
    destruct (String.prefix needle (String c a)) eqn:E.
    + rewrite <- append_cons, (prefix_weaken _ _ b E). lia.
    + destruct (String.prefix needle (String c (a ++ b))); lia.
Qed.

Lemma occurrences_prefix needle s :
  String.prefix needle s = true -> (1 <= occurrences needle s)%nat.
Proof. intros H. destruct s; cbn [occurrences]; rewrite H; lia. Qed.

Lemma contains_occurrences needle s :
  occurrences needle s = 0%nat -> contains needle s = false.
Proof.
  induction s as [|c s IH]; cbn [occurrences contains];
    destruct (String.prefix needle _); cbn; try lia; auto.
Qed.

(** Text that holds the sentinel once holds none before it. *)
Lemma free_before_single_sentinel out rest :
  occurrences sentinel (out ++ sentinel ++ rest) = 1%nat ->
  contains sentinel out = false.
Proof.
  intros H. apply contains_occurrences.
  pose proof (occurrences_app sentinel out (sentinel ++ rest) ltac:(discriminate)).
  pose proof (occurrences_prefix sentinel (sentinel ++ rest) (prefix_append _ _)).
  lia.
Qed.

(** *** The loop of execute *)

Lemma shell_recv_returned st c s1 :
  lift shell_recv st = Returned c s1 ->
  shell_in (world st) = c :: shell_in (world s1) /\
  s1 = on_world (W.set_shell_in (shell_in (world s1))) st.
Proof.
  unfold lift, shell_recv. cbv [bind get]. destruct st as [m w]. cbn [world self].
  destruct (shell_in w) as [|chunk rest] eqn:E; cbn; [discriminate|].
  intros H; inversion H; subst. now split.
Qed.

Lemma execute_loop_returned fuel output0 st s out st' :
  execute_loop fuel output0 st = Returned (s, out) st' ->
  exists earlier last gs,
    shell_in (world st) = (earlier ++ last :: shell_in (world st'))%list /\
    Forall (fun c => re_match status_code_pattern c = None) earlier /\
    re_match status_code_pattern last = Some gs /\
    out = output0 ++ bytes_of earlier ++ group 1 gs /\
    s = int (group 2 gs) /\
    st' = on_world (W.set_shell_in (shell_in (world st'))) st.
Proof.
  revert output0 st. induction fuel as [|fuel IH]; intros output0 st H;
    cbn [execute_loop] in H; [discriminate|].
  apply bind_inv_returned in H. destruct H as (c & s1 & Hrecv & H).
  apply shell_recv_returned in Hrecv. destruct Hrecv as (Hin & Hs1).
  destruct (re_match status_code_pattern c) as [gs|] eqn:E.
  - inversion H; subst. exists [], c, gs. repeat split; auto.
  - apply IH in H. destruct H as (earlier & last & gs & Hin' & Hall & Hm & Hout & Hs & Hst').
    exists (c :: earlier), last, gs. repeat split; auto.
    + rewrite Hin, Hin'. reflexivity.
    + rewrite Hout. cbn. now rewrite !append_assoc.
    + rewrite Hst' at 1. rewrite Hs1 at 1. reflexivity.
Qed.

(** The fuel of the loop is never what stops it. *)
Lemma execute_loop_fuel fuel fuel' output st :
  (length (shell_in (world st)) < fuel)%nat ->
  (length (shell_in (world st)) < fuel')%nat ->
  execute_loop fuel output st = execute_loop fuel' output st.
Proof.
  revert fuel' output st. induction fuel as [|fuel IH]; intros fuel' output st H H';
    [lia|]. destruct fuel' as [|fuel']; [lia|]. cbn [execute_loop].
  unfold bind.
  destruct (lift shell_recv st) as [c s1|e s1|s1] eqn:E; try reflexivity.
  apply shell_recv_returned in E. destruct E as (Hin & _).
  destruct (re_match status_code_pattern c); [reflexivity|].
  rewrite Hin in H, H'. cbn in H, H'. apply IH; lia.
Qed.

(** C2, as the code has it.  When [execute] returns [(s, out)], it has
    connected, sent the wrapped command, and read chunks up to the
    first one the pattern matches.  That chunk is some text without a
    line feed, the sentinel, white space, digits, and a rest; [out] is
    the chunks read before it followed by that text, and [s] is the
    number the digits spell.  [out] is free of the sentinel when the
    text received holds the sentinel only once. *)
Theorem execute_framing (command : string) (st : St) (s : Z) (out : string) (st' : St) :
  execute command st = Returned (s, out) st' ->
  framed command st s out st'.
Proof.
  unfold execute, framed. intros H.
  apply bind_inv_returned in H. destruct H as ([] & st1 & Hc & H).
  cbv [bind get lift modify send] in H. cbn [world self] in H.
  destruct (shell (self st1)) as [fd|] eqn:Esh; cbn [attribute ret raise] in H;
    [|discriminate].
  apply execute_loop_returned in H.
  destruct H as (earlier & last & gs & Hin & Hall & Hm & Hout & Hs & Hst').
  destruct (status_code_match _ _ Hm) as (g1 & ws & g2 & rest & -> & -> & Hrest).
  cbn [group Nat.sub nth] in Hout, Hs. rewrite append_nil_l in Hout.
  exists st1, earlier, g1, ws, g2, rest.
  split; [exact Hc|]. split; [exact Hin|]. split; [exact Hall|].
  split; [exact Hm|].
  destruct Hrest as (H1 & H2 & H3 & H4 & H5).
  repeat (split; [assumption|]).
  split; [rewrite Hst'; reflexivity|].
  intros Hocc. rewrite Hout. apply (free_before_single_sentinel _ (ws ++ g2 ++ rest)).
  now rewrite append_assoc.
Qed.

End Shell.

Module ChannelExamples.
Import Text Re Host Driver Spec Scenario Monitor Shell.

(** *** execute *)

(** The guest prints text that holds the sentinel and no line feed;
    the echo of the framing follows in the same chunk.  The pattern
    takes the last sentinel of the line, so the one the guest printed
    is returned as output. *)
Lemma execute_output_holds_sentinel :
  let st := running [] ["a|!=EOF 1|!=EOF 0" ++ nl] in
  execute "printf 'a|!=EOF 1'" st
  = Returned (0, "a|!=EOF 1") (final (execute "printf 'a|!=EOF 1'" st)) /\
  contains sentinel "a|!=EOF 1" = true /\
  ~ output_free_of_sentinel "printf 'a|!=EOF 1'" st.
Proof.
  cbv zeta.
  assert (H : execute "printf 'a|!=EOF 1'" (running [] ["a|!=EOF 1|!=EOF 0" ++ nl])
              = Returned (0, "a|!=EOF 1")
                  (final (execute "printf 'a|!=EOF 1'"
                            (running [] ["a|!=EOF 1|!=EOF 0" ++ nl]))))
    by (vm_compute; reflexivity).
  split; [exact H|]. split; [reflexivity|].
  intros Hfree. specialize (Hfree _ _ _ H). discriminate.
Qed.

(** A chunk that carries the sentinel after a line feed is not matched:
    it goes into the output whole, sentinel included, and [execute]
    reads on. *)
Example execute_sentinel_after_line_feed :
  execute "echo hi" (running [] ["hi" ++ nl ++ "|!=EOF 0" ++ nl])
  = Blocked (final (execute "echo hi" (running [] ["hi" ++ nl ++ "|!=EOF 0" ++ nl]))) /\
  execute "echo hi" (running [] ["hi" ++ nl ++ "|!=EOF 0" ++ nl; "|!=EOF 7" ++ nl])
  = Returned (7, "hi" ++ nl ++ "|!=EOF 0" ++ nl)
      (final (execute "echo hi"
                (running [] ["hi" ++ nl ++ "|!=EOF 0" ++ nl; "|!=EOF 7" ++ nl]))).
Proof. split; vm_compute; reflexivity. Qed.

(** Boot, connect, and a command whose output and status arrive in two
    chunks. *)
Lemma execute_framing_witness :
  execute "echo hi" booting
  = Returned (0, "hi" ++ nl) (final (execute "echo hi" booting)) /\
  framed "echo hi" booting 0 ("hi" ++ nl) (final (execute "echo hi" booting)).
Proof.
  assert (H : execute "echo hi" booting
              = Returned (0, "hi" ++ nl) (final (execute "echo hi" booting)))
    by (vm_compute; reflexivity).
  split; [exact H|].
  exact (execute_framing "echo hi" booting 0 ("hi" ++ nl)
           (final (execute "echo hi" booting)) H).
Defined.

(** *** The monitor *)

(** The emulator quits on request and closes the monitor: the read
    brings no bytes, and what is returned does not end with the
    prompt. *)
Lemma monitor_answer_without_prompt :
  let st := running ["quit" ++ nl; ""] [] in
  send_monitor_command "quit" st
  = Returned ("quit" ++ nl) (final (send_monitor_command "quit" st)) /\
  endswith ("quit" ++ nl) prompt = false /\
  ~ answer_ends_with_prompt "quit" st.
Proof.
  cbv zeta.
  assert (H : send_monitor_command "quit" (running ["quit" ++ nl; ""] [])
              = Returned ("quit" ++ nl)
                  (final (send_monitor_command "quit" (running ["quit" ++ nl; ""] []))))
    by (vm_compute; reflexivity).
  split; [exact H|]. split; [reflexivity|].
  intros Hp. specialize (Hp _ _ H). discriminate.
Qed.

(** A segment longer than a read asks for is cut: 1030 bytes and the
    prompt come in as 1024 bytes and 13. *)
Example monitor_reads_are_cut :
  let st := running [filler 1030 ++ prompt] [] in
  let first := lift (monitor_recv 1024) st in
  value "" first = filler 1024 /\
  monitor_in (world (final first)) = [filler 6 ++ prompt] /\
  send_monitor_command "info status" st
  = Returned (filler 1030 ++ prompt) (final (send_monitor_command "info status" st)).
Proof. cbv zeta. repeat (split; [vm_compute; reflexivity|]). vm_compute; reflexivity. Qed.

(** An answer whose prompt arrives split over two reads. *)
Lemma monitor_response_witness :
  send_monitor_command "sendkey ret" (running ["sendkey ret" ++ nl ++ "(qe"; "mu) "] [])
  = Returned ("sendkey ret" ++ nl ++ "(qemu) ")
      (final (send_monitor_command "sendkey ret"
                (running ["sendkey ret" ++ nl ++ "(qe"; "mu) "] []))) /\
  answered "sendkey ret" (running ["sendkey ret" ++ nl ++ "(qe"; "mu) "] [])
    ("sendkey ret" ++ nl ++ "(qemu) ")
    (final (send_monitor_command "sendkey ret"
              (running ["sendkey ret" ++ nl ++ "(qe"; "mu) "] []))).
Proof.
  assert (H : send_monitor_command "sendkey ret"
                (running ["sendkey ret" ++ nl ++ "(qe"; "mu) "] [])
              = Returned ("sendkey ret" ++ nl ++ "(qemu) ")
                  (final (send_monitor_command "sendkey ret"
                            (running ["sendkey ret" ++ nl ++ "(qe"; "mu) "] []))))
    by (vm_compute; reflexivity).
  split; [exact H|].
  exact (monitor_response _ _ _ _ H).
Defined.

End ChannelExamples.

(** ** Waiting for a unit *)

Module Units.
Import Text Re Host Driver Spec MonadFacts RetryFacts.

Section CheckActive.
Variables (unit_ : string) (user : option string) (last : bool).

(** One look at a unit that is active holds. *)
Lemma check_active_active st info st2 :
  get_unit_info unit_ user st = Returned info st2 ->
  info !! "ActiveState" = Some "active" ->
  check_active unit_ user last st = Returned true st2.
Proof.
  intros Hget Hstate. unfold check_active.
  rewrite (bind_returned _ _ _ _ _ Hget).
  unfold getitem. rewrite Hstate. reflexivity.
Qed.

(** One look at a unit that has failed raises. *)
Lemma check_active_failed st info st2 :
  get_unit_info unit_ user st = Returned info st2 ->
  info !! "ActiveState" = Some "failed" ->
  check_active unit_ user last st = Raised (unit_failed unit_ "failed") st2.
Proof.
  intros Hget Hstate. unfold check_active.
  rewrite (bind_returned _ _ _ _ _ Hget).
  unfold getitem. rewrite Hstate. reflexivity.
Qed.

(** One look at a unit that is inactive, with no job pending and
    still inactive when read again, raises. *)
Lemma check_active_inactive st info st2 status jobs st3 info' st4 :
  get_unit_info unit_ user st = Returned info st2 ->
  info !! "ActiveState" = Some "inactive" ->
  systemctl "list-jobs --full 2>&1" user st2 = Returned (status, jobs) st3 ->
  contains "No jobs" jobs = true ->
  get_unit_info unit_ user st3 = Returned info' st4 ->
  info' !! "ActiveState" = Some "inactive" ->
  check_active unit_ user last st = Raised (unit_inactive unit_) st4.
Proof.
  intros Hget Hstate Hjobs Hno Hget' Hstate'. unfold check_active.
  rewrite (bind_returned _ _ _ _ _ Hget).
  unfold getitem. rewrite Hstate.
  cbv [bind ret]. cbn [String.eqb Ascii.eqb Bool.eqb].
  rewrite Hjobs, Hno, Hget', Hstate'. reflexivity.
Qed.

End CheckActive.

(** C3.  At whatever poll of [wait_for_unit] it happens, within the
    budget: when [get_unit_info] reports the unit active,
    [wait_for_unit] returns; when it reports the unit failed,
    [wait_for_unit] raises at once, with polls of the budget left
    unused; when it reports the unit inactive, the pending jobs are
    queried, and if there are none and a second reading still says
    inactive, [wait_for_unit] raises at once as well. *)
Theorem wait_for_unit_verdict (unit_ : string) (user : option string)
    (k : nat) (st st1 : St) :
  (k <= 900)%nat ->
  misses (check_active unit_ user) k st = Some st1 ->
  (forall info st2,
      get_unit_info unit_ user st1 = Returned info st2 ->
      info !! "ActiveState" = Some "active" ->
      wait_for_unit unit_ user st = Returned tt st2) /\
  (forall info st2,
      get_unit_info unit_ user st1 = Returned info st2 ->
      info !! "ActiveState" = Some "failed" ->
      wait_for_unit unit_ user st = Raised (unit_failed unit_ "failed") st2) /\
  (forall info st2 status jobs st3 info' st4,
      get_unit_info unit_ user st1 = Returned info st2 ->
      info !! "ActiveState" = Some "inactive" ->
      systemctl "list-jobs --full 2>&1" user st2 = Returned (status, jobs) st3 ->
      contains "No jobs" jobs = true ->
      get_unit_info unit_ user st3 = Returned info' st4 ->
      info' !! "ActiveState" = Some "inactive" ->
      wait_for_unit unit_ user st = Raised (unit_inactive unit_) st4).
Proof.
  intros Hk Hm. unfold wait_for_unit. split; [|split].
  - intros info st2 Hget Hstate.
    apply (retry_returns _ k st st1 st2 Hk Hm).
    exact (check_active_active unit_ user _ st1 info st2 Hget Hstate).
  - intros info st2 Hget Hstate.
    apply (retry_raises _ k st st1 st2 _ Hk Hm).
    exact (check_active_failed unit_ user _ st1 info st2 Hget Hstate).
  - intros info st2 status jobs st3 info' st4 Hget Hstate Hjobs Hno Hget' Hstate'.
    apply (retry_raises _ k st st1 st4 _ Hk Hm).
    exact (check_active_inactive unit_ user _ st1 info st2 status jobs st3 info' st4
             Hget Hstate Hjobs Hno Hget' Hstate').
Qed.

End Units.

Module UnitsExamples.
Import Text Re Host Driver Spec Scenario Units.

(** The three verdicts on three guests: a unit that is active at the
    second poll, a unit that has failed, and a unit that is inactive
    with no job pending. *)
Lemma wait_for_unit_verdict_witness :
  wait_for_unit "x.service" None unit_comes_up
  = Returned tt (final (wait_for_unit "x.service" None unit_comes_up)) /\
  wait_for_unit "x.service" None unit_has_failed
  = Raised (unit_failed "x.service" "failed")
      (final (wait_for_unit "x.service" None unit_has_failed)) /\
  wait_for_unit "x.service" None unit_stays_inactive
  = Raised (unit_inactive "x.service")
      (final (wait_for_unit "x.service" None unit_stays_inactive)).
Proof.
  split; [|split].
  - pose (st1 := default unit_comes_up
                   (misses (check_active "x.service" None) 1 unit_comes_up)).
    assert (Hm : misses (check_active "x.service" None) 1 unit_comes_up = Some st1)
      by (vm_compute; reflexivity).
    apply (proj1 (wait_for_unit_verdict "x.service" None 1 unit_comes_up st1
                    ltac:(lia) Hm)
             (value ∅ (get_unit_info "x.service" None st1))).
    + vm_compute; reflexivity.
    + vm_compute; reflexivity.
  - assert (Hm : misses (check_active "x.service" None) 0 unit_has_failed
                 = Some unit_has_failed) by reflexivity.
    apply (proj1 (proj2 (wait_for_unit_verdict "x.service" None 0 unit_has_failed
                           unit_has_failed ltac:(lia) Hm))
             (value ∅ (get_unit_info "x.service" None unit_has_failed))).
    + vm_compute; reflexivity.
    + vm_compute; reflexivity.
  - assert (Hm : misses (check_active "x.service" None) 0 unit_stays_inactive
                 = Some unit_stays_inactive) by reflexivity.
    pose (st2 := final (get_unit_info "x.service" None unit_stays_inactive)).
    pose (st3 := final (systemctl "list-jobs --full 2>&1" None st2)).
    apply (proj2 (proj2 (wait_for_unit_verdict "x.service" None 0 unit_stays_inactive
                           unit_stays_inactive ltac:(lia) Hm))
             (value ∅ (get_unit_info "x.service" None unit_stays_inactive))
             st2 0 ("No jobs running." ++ nl) st3
             (value ∅ (get_unit_info "x.service" None st3))).
    + vm_compute; reflexivity.
    + vm_compute; reflexivity.
    + vm_compute; reflexivity.
    + vm_compute; reflexivity.
    + vm_compute; reflexivity.
    + vm_compute; reflexivity.
Defined.

End UnitsExamples.

(** ** What host calls leave alone *)

Module HostFacts.
Import Text Re Host Driver Main Spec MonadFacts.

Lemma triple_bind {S A B} (P : S -> Prop) (m : M S A) (Q : A -> S -> Prop)
    (k : A -> M S B) (R : B -> S -> Prop) (E : S -> Prop) :
  triple P m Q E ->
  (forall a, triple (Q a) (k a) R E) ->
  triple P (bind m k) R E.
Proof.
  intros Hm Hk s HP. specialize (Hm s HP). unfold bind.
  destruct (m s) as [a s'|e s'|s']; auto. exact (Hk a s' Hm).
Qed.



Lemma triple_returned {S A} (P : S -> Prop) (m : M S A) Q E s a s' :
  triple P m Q E -> P s -> m s = Returned a s' -> Q a s'.
Proof. intros T HP H. specialize (T s HP). now rewrite H in T. Qed.

Section Steady.
Context {S : Type} (proj : S -> World).









End Steady.





















End HostFacts.

(** ** The VLAN switches *)

Module Vlans.
Import Text Re Host Driver Main Spec MonadFacts HostFacts.

(** *** The list of VLAN ids *)







(** *** Starting the switches *)




(** *** Publishing the sockets *)















End Vlans.

(** ** The state directory *)

Module StateDir.
Import Text Re Host Driver Main Spec MonadFacts.

(** What [stat] finds is what [lstat] finds, under a name the system
    takes. *)
Lemma stat_lstat w p k :
  stat w p = Some k -> lstat w p = Some k /\ refused p = None.
Proof.
  unfold stat. destruct (lstat w p) as [[| | |]|] eqn:E; intros H;
    inversion H; subst; (split; [reflexivity|]);
    unfold lstat in E; destruct (String.eqb p ""); try discriminate;
    now destruct (refused p).
Qed.

(** [cleanup_statedir] never removes anything: a directory fails the
    [isfile] test and is left alone, a regular file passes it and
    makes [rmtree] raise. *)
Lemma cleanup_statedir_removes_nothing st :
  fs (world (final (cleanup_statedir st))) = fs (world st).
Proof.
  unfold cleanup_statedir.
  cbv [bind log_info get lift logger_info modify os_path_isfile ret].
  cbn [world self].
  set (w := W.emit _ (world st)).
  destruct (stat w (state_dir (self st))) as [[| | |]|] eqn:E;
    cbn [final world fs]; try reflexivity.
  apply stat_lstat in E. destruct E as [E Hr].
  unfold shutil_rmtree. cbv [bind get]. rewrite Hr, E. reflexivity.
Qed.

(** On a state directory that exists the call returns, having done
    nothing but write its log line. *)
Lemma cleanup_statedir_on_directory st :
  stat (world st) (state_dir (self st)) = Some Directory ->
  cleanup_statedir st
  = Returned tt
      (on_world (W.emit (Log (name (self st) ++ ": delete the VM state directory"))) st).
Proof.
  intros E. unfold cleanup_statedir.
  cbv [bind log_info get lift logger_info modify os_path_isfile ret].
  cbn [world self].
  change (stat (W.emit _ (world st)) (state_dir (self st)))
    with (stat (world st) (state_dir (self st))).
  rewrite E. reflexivity.
Qed.

End StateDir.

Module StartupExamples.
Import Text Re Host Driver Main Spec Scenario Vlans StateDir.

(** C5, on the code.  [main] without [--keep-vm-state] on a host where
    the state directory of the machine is left from an earlier run:
    the machine is constructed, [cleanup_statedir] is called, and the
    directory and the disk image in it are still there. *)
Theorem statedir_survives_cleanup :
  exists vlans m w',
    main false [client_script] (host [] []) = Returned (vlans, [m]) w' /\
    state_dir m = "/tmp/vm-state-client" /\
    fs w' !! "/tmp/vm-state-client" = Some Directory /\
    fs w' !! "/tmp/vm-state-client/client.qcow2" = Some RegularFile /\
    In (Log "client: delete the VM state directory") (trace w') /\
    ~ statedir_deleted m w'.
Proof.
  pose (r := main false [client_script] (host [] [])).
  exists (fst (value ([], []) r)), (hd fresh_machine (snd (value ([], []) r))), (final r).
  split; [vm_compute; reflexivity|].
  split; [vm_compute; reflexivity|].
  assert (Hd : fs (final r) !! "/tmp/vm-state-client" = Some Directory)
    by (vm_compute; reflexivity).
  split; [exact Hd|].
  split; [vm_compute; reflexivity|].
  split; [vm_compute; left; reflexivity|].
  intros Hdel. specialize (Hdel "/tmp/vm-state-client" ltac:(vm_compute; reflexivity)).
  rewrite Hd in Hdel. discriminate.
Qed.



(** An id with a slash has no switch started for it: [mkdtemp] cannot
    make the socket directory, and [main] ends there. *)
Example vlans_id_with_slash :
  main false [client_script] (host_with_vlans "a/b")
  = Raised (Exn "FileNotFoundError" "/tmp/nixos-test-vde-k3x9-vdea/b.ctl")
      (final (main false [client_script] (host_with_vlans "a/b"))) /\
  switches_started (final (main false [client_script] (host_with_vlans "a/b")))
  = 0%nat.
Proof. split; vm_compute; reflexivity. Qed.

End StartupExamples.

(** * Further properties *)

(** ** retry, read backwards *)

Module RetryMore.
Import Text Host Driver Spec Scenario MonadFacts RetryFacts.

Lemma bind_inv_raised {S A B} (m : M S A) (k : A -> M S B) s e s2 :
  bind m k s = Raised e s2 ->
  m s = Raised e s2 \/ exists a s1, m s = Returned a s1 /\ k a s1 = Raised e s2.
Proof.
  unfold bind. destruct (m s) as [a s1|e1 s1|s1]; intros H; try discriminate.
  - right. now exists a, s1.
  - left. inversion H. reflexivity.
Qed.

Section Inversion.
Variable fn : bool -> M St bool.

(** How the loop of [retry] can return. *)
Lemma retry_loop_returned n st r st' :
  retry_loop n fn st = Returned r st' ->
  (r = true /\ exists k st1, (k < n)%nat /\ misses fn k st = Some st1 /\
                            fn false st1 = Returned true st') \/
  (r = false /\ misses fn n st = Some st').
Proof.
  revert st. induction n as [|n IH]; intros st H; cbn [retry_loop] in H.
  - inversion H; subst. right. split; reflexivity.
  - apply bind_inv_returned in H. destruct H as (ok & s1 & Hfn & H).
    destruct ok.
    + inversion H; subst. left. split; [reflexivity|].
      exists 0%nat, st. repeat split; [lia|exact Hfn].
    + apply IH in H. cbn [misses]. rewrite Hfn.
      destruct H as [(-> & k & st1 & Hk & Hm & Hhit)|(-> & Hm)].
      * left. split; [reflexivity|]. exists (S k), st1.
        split; [lia|]. split; [|exact Hhit]. cbn [misses]. now rewrite Hfn.
      * right. split; [reflexivity|exact Hm].
Qed.

(** How the loop of [retry] can raise: only through the predicate. *)
Lemma retry_loop_raised n st e st' :
  retry_loop n fn st = Raised e st' ->
  exists k st1, (k < n)%nat /\ misses fn k st = Some st1 /\
                fn false st1 = Raised e st'.
Proof.
  revert st. induction n as [|n IH]; intros st H; cbn [retry_loop] in H;
    [discriminate|].
  apply bind_inv_raised in H. destruct H as [H|(ok & s1 & Hfn & H)].
  - exists 0%nat, st. repeat split; [lia|exact H].
  - destruct ok; [discriminate|].
    apply IH in H. destruct H as (k & st1 & Hk & Hm & Hr).
    exists (S k), st1. split; [lia|]. split; [|exact Hr].
    cbn [misses]. now rewrite Hfn.
Qed.

End Inversion.

(** The last attempt of a [retry] that returns. *)
Lemma retry_returned_last (fn : bool -> M St bool) (st st' : St) :
  retry fn st = Returned tt st' ->
  exists last st1,
    fn last st1 = Returned true st' /\
    exists k, (k <= 900)%nat /\ misses fn k st = Some st1 /\ last = (k =? 900)%nat.
Proof.
  unfold retry. intros H.
  apply bind_inv_returned in H. destruct H as (r & s1 & Hloop & H).
  apply retry_loop_returned in Hloop.
  destruct Hloop as [(-> & k & st1 & Hk & Hm & Hhit)|(-> & Hm)].
  - inversion H; subst. exists false, st1. split; [exact Hhit|].
    exists k. split; [lia|]. split; [exact Hm|].
    destruct (Nat.eqb_spec k 900); [lia|reflexivity].
  - apply bind_inv_returned in H. destruct H as (ok & s2 & Hfn & H).
    destruct ok; [|discriminate]. inversion H; subst.
    exists true, s1. split; [exact Hfn|]. exists 900%nat.
    split; [lia|]. split; [exact Hm|reflexivity].
Qed.

(** X1.  A [retry] that returns has seen its predicate hold: after at
    most 900 misses, the attempt that follows them returned true, and
    [retry] returns in the state that attempt left. *)
Theorem retry_returned_observation (fn : bool -> M St bool) (st st' : St) :
  retry fn st = Returned tt st' ->
  exists k st1,
    (k <= 900)%nat /\ misses fn k st = Some st1 /\
    fn (k =? 900)%nat st1 = Returned true st'.
Proof.
  intros H. destruct (retry_returned_last fn st st' H) as (last & st1 & Hfn & k & Hk & Hm & Hl).
  exists k, st1. split; [exact Hk|]. split; [exact Hm|]. now rewrite <- Hl.
Qed.

(** X2.  A [retry] that raises either passes on an exception of its
    predicate, from the state the predicate raised it in, or raises the
    timeout error after exactly 900 misses and a last attempt, made
    with the flag set, that returned false.  The timeout is never
    raised early. *)
Theorem retry_raised_cause (fn : bool -> M St bool) (st st' : St) (e : exn) :
  retry fn st = Raised e st' ->
  exists k st1,
    (k <= 900)%nat /\ misses fn k st = Some st1 /\
    (fn (k =? 900)%nat st1 = Raised e st' \/
     (k = 900%nat /\ e = timed_out /\ fn true st1 = Returned false st')).
Proof.
  unfold retry. intros H.
  apply bind_inv_raised in H. destruct H as [H|(r & s1 & Hloop & H)].
  - apply retry_loop_raised in H. destruct H as (k & st1 & Hk & Hm & Hr).
    exists k, st1. split; [lia|]. split; [exact Hm|]. left.
    destruct (Nat.eqb_spec k 900); [lia|exact Hr].
  - apply retry_loop_returned in Hloop.
    destruct Hloop as [(-> & _)|(-> & Hm)]; [discriminate|].
    exists 900%nat, s1. split; [lia|]. split; [exact Hm|].
    apply bind_inv_raised in H. destruct H as [H|(ok & s2 & Hfn & H)].
    + left. exact H.
    + destruct ok; [discriminate|]. inversion H; subst. right. repeat split. exact Hfn.
Qed.

Lemma retry_returned_observation_witness :
  retry guest_is_up (running [] ["down"; "down"; "up"])
  = Returned tt (slept 2 (running [] [])) /\
  exists k st1,
    (k <= 900)%nat /\
    misses guest_is_up k (running [] ["down"; "down"; "up"]) = Some st1 /\
    guest_is_up (k =? 900)%nat st1 = Returned true (slept 2 (running [] [])).
Proof.
  assert (H : retry guest_is_up (running [] ["down"; "down"; "up"])
              = Returned tt (slept 2 (running [] []))) by (vm_compute; reflexivity).
  split; [exact H|]. exact (retry_returned_observation _ _ _ H).
Defined.

Lemma retry_raised_cause_witness :
  retry never_logged quiet
  = Raised timed_out
      (on_world (W.emit (Log "client: last attempt")) (attempted 900 quiet)) /\
  exists k st1,
    (k <= 900)%nat /\ misses never_logged k quiet = Some st1 /\
    (never_logged (k =? 900)%nat st1
     = Raised timed_out
         (on_world (W.emit (Log "client: last attempt")) (attempted 900 quiet)) \/
     (k = 900%nat /\ timed_out = timed_out /\
      never_logged true st1
      = Returned false
          (on_world (W.emit (Log "client: last attempt")) (attempted 900 quiet)))).
Proof.
  assert (H : retry never_logged quiet
              = Raised timed_out
                  (on_world (W.emit (Log "client: last attempt"))
                     (attempted 900 quiet))) by (vm_compute; reflexivity).
  split; [exact H|]. exact (retry_raised_cause _ _ _ _ H).
Defined.

End RetryMore.

(** ** succeed and fail *)

Module Commands.
Import Text Host Driver Methods Spec Scenario MonadFacts TextFacts RetryFacts RetryMore.

(** The loop of [succeed] with output already gathered only puts that
    output in front. *)
Lemma succeed_loop_output commands output st :
  succeed_loop commands output st
  = (out <- succeed_loop commands "" ;; ret (output ++ out)) st.
Proof.
  revert output st. induction commands as [|c commands IH]; intros output st.
  - cbn. now rewrite append_nil_r.
  - cbn [succeed_loop]. unfold bind.
    destruct (log_info ("must succeed: " ++ c) st) as [[] s1|e s1|s1]; try reflexivity.
    destruct (execute c s1) as [[status out] s2|e s2|s2]; try reflexivity.
    destruct (negb (status =? 0)).
    + destruct (log_info ("output: " ++ out) s2); reflexivity.
    + rewrite (IH (output ++ out)), (IH ("" ++ out)). unfold bind.
      destruct (succeed_loop commands "" s2); try reflexivity.
      cbn. now rewrite append_assoc.
Qed.

Lemma succeed_loop_app a b output st :
  succeed_loop (a ++ b) output st
  = (out <- succeed_loop a output ;; succeed_loop b out) st.
Proof.
  revert output st. induction a as [|c a IH]; intros output st; [reflexivity|].
  cbn [app succeed_loop]. unfold bind.
  destruct (log_info ("must succeed: " ++ c) st) as [[] s1|e s1|s1]; try reflexivity.
  destruct (execute c s1) as [[status out] s2|e s2|s2]; try reflexivity.
  destruct (negb (status =? 0)).
  - destruct (log_info ("output: " ++ out) s2); reflexivity.
  - apply IH.
Qed.

Lemma fail_loop_output commands output st :
  fail_loop commands output st
  = (out <- fail_loop commands "" ;; ret (output ++ out)) st.
Proof.
  revert output st. induction commands as [|c commands IH]; intros output st.
  - cbn. now rewrite append_nil_r.
  - cbn [fail_loop]. unfold bind.
    destruct (log_info ("must fail: " ++ c) st) as [[] s1|e s1|s1]; try reflexivity.
    destruct (execute c s1) as [[status out] s2|e s2|s2]; try reflexivity.
    destruct (status =? 0); [reflexivity|].
    rewrite (IH (output ++ out)), (IH ("" ++ out)). unfold bind.
    destruct (fail_loop commands "" s2); try reflexivity.
    cbn. now rewrite append_assoc.
Qed.

Lemma fail_loop_app a b output st :
  fail_loop (a ++ b) output st
  = (out <- fail_loop a output ;; fail_loop b out) st.
Proof.
  revert output st. induction a as [|c a IH]; intros output st; [reflexivity|].
  cbn [app fail_loop]. unfold bind.
  destruct (log_info ("must fail: " ++ c) st) as [[] s1|e s1|s1]; try reflexivity.
  destruct (execute c s1) as [[status out] s2|e s2|s2]; try reflexivity.
  destruct (status =? 0); [reflexivity|]. apply IH.
Qed.

Lemma log_info_returns msg st :
  log_info msg st
  = Returned tt (on_world (W.emit (Log (name (self st) ++ ": " ++ msg))) st).
Proof. reflexivity. Qed.

(** X3.  Commands given to [succeed] in one call or in two calls one
    after the other do the same, and the outputs are joined in order;
    the same holds of [fail]. *)
Theorem succeed_fail_app (a b : list string) (st : St) :
  succeed (a ++ b) st = (x <- succeed a ;; y <- succeed b ;; ret (x ++ y)) st /\
  fail (a ++ b) st = (x <- fail a ;; y <- fail b ;; ret (x ++ y)) st.
Proof.
  split.
  - unfold succeed. rewrite succeed_loop_app. unfold bind at 1 2.
    destruct (succeed_loop a "" st) as [x s1|e s1|s1]; try reflexivity.
    apply succeed_loop_output.
  - unfold fail. rewrite fail_loop_app. unfold bind at 1 2.
    destruct (fail_loop a "" st) as [x s1|e s1|s1]; try reflexivity.
    apply fail_loop_output.
Qed.

(** X4.  [succeed] stops at the first command whose status is not
    zero: it logs the output of that command and raises, in the state
    that command left, whatever commands come after; [fail] stops in
    the same way at the first command whose status is zero. *)
Theorem succeed_fail_stop (before after : list string) (command : string)
    (st st1 st2 : St) (out o : string) (status : Z) :
  (succeed before st = Returned out st1 ->
   execute command
     (on_world (W.emit (Log (name (self st1) ++ ": must succeed: " ++ command))) st1)
   = Returned (status, o) st2 ->
   status <> 0 ->
   succeed (before ++ command :: after) st
   = Raised (command_failed command status)
       (on_world (W.emit (Log (name (self st2) ++ ": output: " ++ o))) st2)) /\
  (fail before st = Returned out st1 ->
   execute command
     (on_world (W.emit (Log (name (self st1) ++ ": must fail: " ++ command))) st1)
   = Returned (status, o) st2 ->
   status = 0 ->
   fail (before ++ command :: after) st
   = Raised (command_succeeded command) st2).
Proof.
  split.
  - intros Hb He Hs. unfold succeed in *. rewrite succeed_loop_app.
    rewrite (bind_returned _ _ _ _ _ Hb). cbn [succeed_loop].
    rewrite (bind_returned _ _ _ _ _ (log_info_returns _ st1)).
    rewrite (bind_returned _ _ _ _ _ He).
    apply Z.eqb_neq in Hs. rewrite Hs. reflexivity.
  - intros Hb He Hs. unfold fail in *. rewrite fail_loop_app.
    rewrite (bind_returned _ _ _ _ _ Hb). cbn [fail_loop].
    rewrite (bind_returned _ _ _ _ _ (log_info_returns _ st1)).
    rewrite (bind_returned _ _ _ _ _ He).
    subst status. reflexivity.
Qed.

(** A guest on which [true] succeeds and [false] prints a word and
    fails; the chunks after those two replies are never read. *)
Lemma succeed_fail_stop_witness :
  let st := running [] [status "0"; "boom" ++ nl; status "1"; "late"; status "0"] in
  let st' := running [] [status "1"; status "0"; "late"; status "0"] in
  succeed ["true"; "false"; "echo late"] st
  = Raised (command_failed "false" 1)
      (final (succeed ["true"; "false"; "echo late"] st)) /\
  shell_in (world (final (succeed ["true"; "false"; "echo late"] st)))
  = ["late"; status "0"] /\
  fail ["false"; "true"; "echo late"] st'
  = Raised (command_succeeded "true")
      (final (fail ["false"; "true"; "echo late"] st')) /\
  shell_in (world (final (fail ["false"; "true"; "echo late"] st')))
  = ["late"; status "0"].
Proof.
  cbv zeta.
  set (st := running [] [status "0"; "boom" ++ nl; status "1"; "late"; status "0"]).
  set (st' := running [] [status "1"; status "0"; "late"; status "0"]).
  split; [|split; [vm_compute; reflexivity|split; [|vm_compute; reflexivity]]].
  - pose (st1 := final (succeed ["true"] st)).
    pose (st2 := final (execute "false"
                          (on_world (W.emit (Log "client: must succeed: false")) st1))).
    assert (E : final (succeed ["true"; "false"; "echo late"] st)
                = on_world (W.emit (Log ("client: output: boom" ++ nl))) st2)
      by (vm_compute; reflexivity).
    rewrite E.
    apply (proj1 (succeed_fail_stop ["true"] ["echo late"] "false" st st1 st2
                    "" ("boom" ++ nl) 1)).
    + vm_compute; reflexivity.
    + vm_compute; reflexivity.
    + discriminate.
  - pose (st1 := final (fail ["false"] st')).
    pose (st2 := final (execute "true"
                          (on_world (W.emit (Log "client: must fail: true")) st1))).
    assert (E : final (fail ["false"; "true"; "echo late"] st') = st2)
      by (vm_compute; reflexivity).
    rewrite E.
    apply (proj2 (succeed_fail_stop ["false"] ["echo late"] "true" st' st1 st2
                    "" "" 0)).
    + vm_compute; reflexivity.
    + vm_compute; reflexivity.
    + reflexivity.
Defined.

End Commands.

(** ** Waiting for ports and for the X server *)

Module Probes.
Import Text Host Driver Methods Spec Spec2 Scenario MonadFacts TextFacts RetryFacts RetryMore.

(** X5.  A wait that returns ends on an observation that holds.
    From the state the wait began in (its log line written), some
    number of polls, at most 900, missed, each followed by its sleep;
    in the state they led to, the [nc -z] of [wait_for_open_port] had
    status zero, the one of [wait_for_closed_port] had not, and in
    [wait_for_x] both the journal and the socket test had status
    zero; the wait returned in the state that command left. *)
Theorem wait_ends_on_true_observation (port : Z) (st st' : St) :
  (wait_for_open_port port st = Returned tt st' ->
   exists k st1 out,
     (k <= 900)%nat /\
     misses (port_is_open port) k
       (logged ("waiting for TCP port " ++ str_of_Z port) st) = Some st1 /\
     execute ("nc -z localhost " ++ str_of_Z port) st1 = Returned (0, out) st') /\
  (wait_for_closed_port port st = Returned tt st' ->
   exists k st1 status out,
     (k <= 900)%nat /\
     misses (port_is_closed port) k st = Some st1 /\
     execute ("nc -z localhost " ++ str_of_Z port) st1 = Returned (status, out) st' /\
     status <> 0) /\
  (wait_for_x st = Returned tt st' ->
   exists k st1 out1 st2 out2,
     (k <= 900)%nat /\
     misses check_x k (logged "waiting for the X11 server" st) = Some st1 /\
     execute x11_journal st1 = Returned (0, out1) st2 /\
     execute "[ -e /tmp/.X11-unix/X0 ]" st2 = Returned (0, out2) st').
Proof.
  split; [|split].
  - unfold wait_for_open_port. intros H.
    rewrite (bind_returned _ _ _ _ _ (Commands.log_info_returns _ st)) in H.
    fold (logged ("waiting for TCP port " ++ str_of_Z port) st) in H.
    destruct (retry_returned_last _ _ _ H) as (last & st1 & Hfn & k & Hk & Hm & _).
    unfold port_is_open in Hfn.
    apply bind_inv_returned in Hfn. destruct Hfn as ([status out] & s2 & He & Hr).
    injection Hr as Hb Hs. cbn [fst] in Hb. apply Z.eqb_eq in Hb. subst status s2.
    exists k, st1, out. split; [exact Hk|]. split; [exact Hm|exact He].
  - unfold wait_for_closed_port. intros H.
    destruct (retry_returned_last _ _ _ H) as (last & st1 & Hfn & k & Hk & Hm & _).
    unfold port_is_closed in Hfn.
    apply bind_inv_returned in Hfn. destruct Hfn as ([status out] & s2 & He & Hr).
    injection Hr as Hb Hs. cbn [fst] in Hb. apply negb_true_iff, Z.eqb_neq in Hb.
    subst s2. exists k, st1, status, out.
    split; [exact Hk|]. split; [exact Hm|]. split; [exact He|exact Hb].
  - unfold wait_for_x. intros H.
    rewrite (bind_returned _ _ _ _ _ (Commands.log_info_returns _ st)) in H.
    fold (logged "waiting for the X11 server" st) in H.
    destruct (retry_returned_last _ _ _ H) as (last & st1 & Hfn & k & Hk & Hm & _).
    unfold check_x in Hfn. fold x11_journal in Hfn.
    apply bind_inv_returned in Hfn. destruct Hfn as ([s1 out1] & st2 & He1 & Hr).
    cbn [fst] in Hr. destruct (Z.eqb_spec s1 0) as [->|]; cbn [negb] in Hr;
      [|discriminate].
    apply bind_inv_returned in Hr. destruct Hr as ([s2 out2] & st3 & He2 & Hr).
    injection Hr as Hb Hs. cbn [fst] in Hb. apply Z.eqb_eq in Hb. subst s2 st3.
    exists k, st1, out1, st2, out2.
    split; [exact Hk|]. split; [exact Hm|]. split; [exact He1|exact He2].
Qed.

Lemma wait_ends_on_true_observation_witness :
  let up := running [] [status "1"; status "0"] in
  let down := running [] [status "0"; status "1"] in
  let x := running [] [status "1"; status "0"; status "0"] in
  (exists k st1 out,
     (k <= 900)%nat /\
     misses (port_is_open 22) k (logged ("waiting for TCP port " ++ str_of_Z 22) up)
     = Some st1 /\
     execute ("nc -z localhost " ++ str_of_Z 22) st1
     = Returned (0, out) (final (wait_for_open_port 22 up))) /\
  (exists k st1 status out,
     (k <= 900)%nat /\
     misses (port_is_closed 22) k down = Some st1 /\
     execute ("nc -z localhost " ++ str_of_Z 22) st1
     = Returned (status, out) (final (wait_for_closed_port 22 down)) /\
     status <> 0) /\
  (exists k st1 out1 st2 out2,
     (k <= 900)%nat /\
     misses check_x k (logged "waiting for the X11 server" x) = Some st1 /\
     execute x11_journal st1 = Returned (0, out1) st2 /\
     execute "[ -e /tmp/.X11-unix/X0 ]" st2 = Returned (0, out2) (final (wait_for_x x))).
Proof.
  cbv zeta. split; [|split].
  - apply (proj1 (wait_ends_on_true_observation 22
                    (running [] [status "1"; status "0"]) _)).
    vm_compute; reflexivity.
  - apply (proj1 (proj2 (wait_ends_on_true_observation 22
                           (running [] [status "0"; status "1"]) _))).
    vm_compute; reflexivity.
  - apply (proj2 (proj2 (wait_ends_on_true_observation 22
                           (running [] [status "1"; status "0"; status "0"]) _))).
    vm_compute; reflexivity.
Defined.

(** The poll the wait for an open port ended on was the second one,
    after one that found the port closed. *)
Example wait_for_open_port_second_poll :
  let up := running [] [status "1"; status "0"] in
  exists st1,
    misses (port_is_open 22) 1 (logged ("waiting for TCP port " ++ str_of_Z 22) up)
    = Some st1 /\
    execute ("nc -z localhost " ++ str_of_Z 22) st1
    = Returned (0, "") (final (wait_for_open_port 22 up)).
Proof. cbv zeta. eexists. split; vm_compute; reflexivity. Qed.

End Probes.

(** ** The attributes of a machine and its emulator *)

Module Consistency.
Import Text Re Host Driver Methods Script Spec Spec2 Scenario MonadFacts Frame
  Lifecycle HostFacts.

(** A call that keeps [P] of the machine, seen as a triple. *)
Lemma keeps_triple {A} (P T : Machine -> Prop) (m : M St A) :
  keeps P m -> (forall mc, P mc -> T mc) ->
  triple (fun s => P (self s)) m (fun _ s => P (self s)) (fun s => T (self s)).
Proof.
  intros K PT st HP. specialize (K st HP). destruct (m st); cbn in K; auto.
Qed.

Lemma triple_keeps {A} (P : Machine -> Prop) (Q : A -> Machine -> Prop) (m : M St A) :
  triple (fun s => P (self s)) m (fun a s => Q a (self s)) (fun s => P (self s)) ->
  (forall a mc, Q a mc -> P mc) ->
  keeps P m.
Proof.
  intros T HQ st HP. specialize (T st HP). destruct (m st); cbn; eauto.
Qed.

Lemma keeps_unrelated (P : Machine -> Prop) (f : Machine -> Machine) :
  on_emulator P ->
  (forall m, booted (f m) = booted m /\ connected (f m) = connected m /\
             pid (f m) = pid m /\ process (f m) = process m) ->
  keeps P (set_self f).
Proof.
  intros HP Hf. apply keeps_set_self. intros m Hm.
  destruct (Hf m) as (H1 & H2 & H3 & H4). exact (HP m (f m) H1 H2 H3 H4 Hm).
Qed.

Lemma consistent_on_emulator : on_emulator consistent.
Proof.
  intros m m' Hb Hc Hp Hpr (H1 & H2 & H3). unfold consistent.
  rewrite Hb, Hc, Hp, Hpr. auto.
Qed.

(** *** start *)

Lemma stopped_on_emulator : on_emulator stopped.
Proof.
  intros m m' Hb Hc Hp Hpr [H1 H2]. split.
  - exact (consistent_on_emulator m m' Hb Hc Hp Hpr H1).
  - now rewrite Hb.
Qed.

Lemma spawned_on_emulator p : on_emulator (spawned p).
Proof.
  intros m m' Hb Hc Hp Hpr [H1 H2]. split.
  - exact (stopped_on_emulator m m' Hb Hc Hp Hpr H1).
  - now rewrite Hpr.
Qed.

Lemma stopped_no_pid m : stopped m -> pid m = None.
Proof.
  intros [(_ & H2 & _) Hb]. destruct (pid m) eqn:E; [|reflexivity].
  assert (booted m = true) by (apply H2; discriminate). congruence.
Qed.

Lemma stopped_consistent m : stopped m -> consistent m.
Proof. now intros [H _]. Qed.

Lemma spawned_consistent p m : spawned p m -> consistent m.
Proof. now intros [[H _] _]. Qed.

(** One call of a sequence that keeps [P]. *)
Ltac frame P HP HT :=
  eapply (triple_bind _ _ (fun _ s => P (self s)));
  [ apply (keeps_triple P _ _);
    [ first [ solve [eauto with keeps]
            | apply keeps_wait_for_monitor_prompt
            | apply (keeps_unrelated _ _ HP); intros; repeat split; reflexivity ]
    | exact HT ]
  | intros ? ].

(** The last three steps of [start] on a machine whose process is
    spawned. *)
Lemma start_finish p msg :
  triple (fun s => spawned p (self s))
    (set_self (Mc.set_pid (Some (popen_pid p))) ;;
     set_self (Mc.set_booted true) ;;
     log_info msg)
    (fun _ s => consistent (self s) /\ booted (self s) = true)
    (fun s => consistent (self s)).
Proof.
  intros st [[(H1 & H2 & H3) Hb] Hp]. cbn. split; [|reflexivity].
  split; [reflexivity|]. split; [split; [discriminate|reflexivity]|].
  intros q Hq. inversion Hq; subst.
  change (process (self st) = Some {| popen_pid := popen_pid p |}).
  rewrite Hp. now destruct p.
Qed.

Lemma set_process_spawned p :
  triple (fun s => stopped (self s)) (set_self (Mc.set_process (Some p)))
         (fun _ s => spawned p (self s)) (fun s => consistent (self s)).
Proof.
  intros st H. pose proof (stopped_no_pid _ H) as Hn.
  destruct H as [(H1 & H2 & H3) Hb]. cbn.
  split; [|reflexivity]. split; [|exact Hb].
  split; [exact H1|]. split; [exact H2|].
  intros q Hq. change (pid (self st) = Some q) in Hq.
  rewrite Hn in Hq. discriminate.
Qed.

Lemma bind_get {S B} (k : S -> M S B) s : bind get k s = k s s.
Proof. reflexivity. Qed.

Lemma start_triple :
  triple (fun s => consistent (self s)) start
         (fun _ s => consistent (self s) /\ booted (self s) = true)
         (fun s => consistent (self s)).
Proof.
  intros st HP. unfold start. rewrite bind_get.
  destruct (booted (self st)) eqn:Eb; [cbn; now split|].
  lazymatch goal with
  | |- match ?m st with _ => _ end =>
      assert (T : triple (fun s => stopped (self s)) m
                    (fun _ s => consistent (self s) /\ booted (self s) = true)
                    (fun s => consistent (self s)));
        [|exact (T st (conj HP Eb))]
  end.
  do 7 frame stopped stopped_on_emulator stopped_consistent.
  lazymatch goal with
  | p : Popen |- _ =>
      eapply triple_bind; [apply (set_process_spawned p)|intros ?];
      do 7 frame (spawned p) (spawned_on_emulator p) (spawned_consistent p)
  end.
  apply start_finish.
Qed.


Lemma start_consistent : keeps consistent start.
Proof.
  apply (triple_keeps consistent (fun _ m => consistent m /\ booted m = true)).
  - exact start_triple.
  - now intros _ mc [H _].
Qed.

(** *** connect *)

Lemma up_on_emulator : on_emulator up.
Proof.
  intros m m' Hb Hc Hp Hpr [H1 H2]. split.
  - exact (consistent_on_emulator m m' Hb Hc Hp Hpr H1).
  - now rewrite Hb.
Qed.

Lemma online_on_emulator : on_emulator online.
Proof.
  intros m m' Hb Hc Hp Hpr [H1 H2]. split.
  - exact (up_on_emulator m m' Hb Hc Hp Hpr H1).
  - now rewrite Hc.
Qed.

Lemma up_consistent m : up m -> consistent m.
Proof. now intros [H _]. Qed.

Lemma online_consistent m : online m -> consistent m.
Proof. now intros [[H _] _]. Qed.

Lemma set_connected_online :
  triple (fun s => up (self s)) (set_self (Mc.set_connected true))
         (fun _ s => online (self s)) (fun s => consistent (self s)).
Proof.
  intros st [(H1 & H2 & H3) Hb]. cbn.
  split; [|reflexivity]. split; [|exact Hb].
  split; [intros _; exact Hb|]. split; [exact H2|exact H3].
Qed.

Lemma connect_triple :
  triple (fun s => consistent (self s)) connect
         (fun _ s => online (self s)) (fun s => consistent (self s)).
Proof.
  intros st HP. unfold connect. rewrite bind_get.
  destruct (connected (self st)) eqn:Ec.
  - cbn. split; [|exact Ec]. split; [exact HP|]. exact (proj1 HP Ec).
  - lazymatch goal with
    | |- match ?m st with _ => _ end =>
        assert (T : triple (fun s => consistent (self s)) m
                      (fun _ s => online (self s))
                      (fun s => consistent (self s)));
          [|exact (T st HP)]
    end.
    frame consistent consistent_on_emulator (fun mc (H : consistent mc) => H).
    eapply triple_bind; [exact start_triple|intros ?].
    do 5 frame up up_on_emulator up_consistent.
    exact set_connected_online.
Qed.

Lemma connect_consistent : keeps consistent connect.
Proof.
  apply (triple_keeps consistent (fun _ m => online m)).
  - exact connect_triple.
  - intros _ mc. apply online_consistent.
Qed.

(** *** The calls built on connect *)

Section BuiltOnConnect.
Variable J : Machine -> Prop.
Hypothesis connect_keeps : keeps J connect.

Lemma keeps_execute command : keeps J (execute command).
Proof.
  unfold execute. keeps_auto. apply keeps_execute_loop.
Qed.

Lemma keeps_systemctl q user : keeps J (systemctl q user).
Proof. unfold systemctl. destruct user; apply keeps_execute. Qed.

Lemma keeps_get_unit_info unit_ user : keeps J (get_unit_info unit_ user).
Proof. unfold get_unit_info. keeps_auto. apply keeps_systemctl. Qed.

Lemma keeps_check_active unit_ user last : keeps J (check_active unit_ user last).
Proof.
  unfold check_active.
  keeps_auto; first [apply keeps_get_unit_info|apply keeps_systemctl].
Qed.

Lemma keeps_wait_for_unit unit_ user : keeps J (wait_for_unit unit_ user).
Proof. unfold wait_for_unit. apply keeps_retry. intros last. apply keeps_check_active. Qed.

Lemma keeps_succeed_loop commands output : keeps J (succeed_loop commands output).
Proof.
  revert output. induction commands as [|c rest IH]; intros output;
    cbn [succeed_loop]; keeps_auto. apply keeps_execute.
Qed.

Lemma keeps_fail_loop commands output : keeps J (fail_loop commands output).
Proof.
  revert output. induction commands as [|c rest IH]; intros output;
    cbn [fail_loop]; keeps_auto. apply keeps_execute.
Qed.

Lemma keeps_wait_for_open_port port : keeps J (wait_for_open_port port).
Proof.
  unfold wait_for_open_port. keeps_auto. apply keeps_retry. intros last.
  unfold port_is_open. keeps_auto. apply keeps_execute.
Qed.

Lemma keeps_wait_for_closed_port port : keeps J (wait_for_closed_port port).
Proof.
  unfold wait_for_closed_port. apply keeps_retry. intros last.
  unfold port_is_closed. keeps_auto. apply keeps_execute.
Qed.

Lemma keeps_wait_for_x : keeps J wait_for_x.
Proof.
  unfold wait_for_x. keeps_auto. apply keeps_retry. intros last.
  unfold check_x. keeps_auto; apply keeps_execute.
Qed.

Lemma keeps_send_key key : keeps J (send_key key).
Proof. unfold send_key. keeps_auto. apply keeps_send_monitor_command. Qed.

End BuiltOnConnect.

(** *** Shutting down *)

Lemma down_consistent m : down m -> consistent m.
Proof. now intros [H _]. Qed.

Lemma stopped_down m : stopped m -> down m.
Proof.
  intros H. pose proof (stopped_no_pid _ H) as Hn. destruct H as [H Hb].
  split; [exact H|]. split; [exact Hb|]. split; [|exact Hn].
  destruct (connected m) eqn:Ec; [|reflexivity].
  destruct H as [H _]. rewrite (H Ec) in Hb. discriminate.
Qed.

Lemma reset_down :
  triple (fun s => consistent (self s))
    (set_self (Mc.set_pid None) ;;
     set_self (Mc.set_booted false) ;;
     set_self (Mc.set_connected false))
    (fun _ s => down (self s)) (fun s => consistent (self s)).
Proof.
  intros st _. cbn. split; [|repeat split].
  split; [discriminate|]. split; [|discriminate].
  split; [discriminate|]. intros H. now contradiction H.
Qed.

Lemma wait_for_shutdown_triple :
  triple (fun s => consistent (self s)) wait_for_shutdown
         (fun _ s => down (self s)) (fun s => consistent (self s)).
Proof.
  intros st HP. unfold wait_for_shutdown. rewrite bind_get.
  destruct (booted (self st)) eqn:Eb; cbn [negb].
  - lazymatch goal with
    | |- match ?m st with _ => _ end =>
        assert (T : triple (fun s => consistent (self s)) m
                      (fun _ s => down (self s))
                      (fun s => consistent (self s)));
          [|exact (T st HP)]
    end.
    do 4 frame consistent consistent_on_emulator (fun mc (H : consistent mc) => H).
    exact reset_down.
  - cbn. apply stopped_down. now split.
Qed.

Lemma shutdown_triple :
  triple (fun s => consistent (self s)) shutdown
         (fun _ s => down (self s)) (fun s => consistent (self s)).
Proof.
  intros st HP. unfold shutdown. rewrite bind_get.
  destruct (booted (self st)) eqn:Eb; cbn [negb].
  - lazymatch goal with
    | |- match ?m st with _ => _ end =>
        assert (T : triple (fun s => consistent (self s)) m
                      (fun _ s => down (self s))
                      (fun s => consistent (self s)));
          [|exact (T st HP)]
    end.
    do 2 frame consistent consistent_on_emulator (fun mc (H : consistent mc) => H).
    exact wait_for_shutdown_triple.
  - cbn. apply stopped_down. now split.
Qed.

Lemma crash_triple :
  triple (fun s => consistent (self s)) crash
         (fun _ s => down (self s)) (fun s => consistent (self s)).
Proof.
  intros st HP. unfold crash. rewrite bind_get.
  destruct (booted (self st)) eqn:Eb; cbn [negb].
  - lazymatch goal with
    | |- match ?m st with _ => _ end =>
        assert (T : triple (fun s => consistent (self s)) m
                      (fun _ s => down (self s))
                      (fun s => consistent (self s)));
          [|exact (T st HP)]
    end.
    frame consistent consistent_on_emulator (fun mc (H : consistent mc) => H).
    eapply (triple_bind _ _ (fun _ s => consistent (self s))).
    + apply (keeps_triple consistent _ _); [apply keeps_send_monitor_command|auto].
    + intros ?. exact wait_for_shutdown_triple.
  - cbn. apply stopped_down. now split.
Qed.

Lemma basic_op_consistent o : keeps consistent (Script.run_op o).
Proof.
  destruct o; cbn [Script.run_op]; keeps_auto;
    first [exact start_consistent
          |exact connect_consistent
          |apply (keeps_execute _ connect_consistent)
          |apply keeps_send_monitor_command
          |apply (keeps_wait_for_unit _ connect_consistent)
          |apply (triple_keeps consistent (fun _ m => down m));
           [first [exact shutdown_triple|exact crash_triple
                  |exact wait_for_shutdown_triple]
           |intros _ mc; apply down_consistent]].
Qed.

Lemma run_op_consistent o : keeps consistent (Script2.run_op o).
Proof.
  destruct o; cbn [Script2.run_op].
  - apply basic_op_consistent.
  - keeps_auto. apply (keeps_succeed_loop _ connect_consistent).
  - keeps_auto. apply (keeps_fail_loop _ connect_consistent).
  - apply (keeps_wait_for_open_port _ connect_consistent).
  - apply (keeps_wait_for_closed_port _ connect_consistent).
  - apply (keeps_wait_for_x _ connect_consistent).
  - apply keeps_send_key.
  - unfold start_job. keeps_auto. apply (keeps_systemctl _ connect_consistent).
  - unfold stop_job. keeps_auto. apply (keeps_systemctl _ connect_consistent).
  - apply (keeps_wait_for_unit _ connect_consistent).
  - unfold get_tty_text. keeps_auto. apply (keeps_execute _ connect_consistent).
  - unfold sleep, succeed. keeps_auto.
    apply (keeps_succeed_loop _ connect_consistent).
  - unfold forward_port. keeps_auto. apply keeps_send_monitor_command.
  - unfold machine_block. keeps_auto. apply keeps_send_monitor_command.
  - unfold machine_unblock. keeps_auto. apply keeps_send_monitor_command.
Qed.

(** X6.  Whatever operations a script runs on a machine (those of C4,
    and [succeed], [fail], [wait_for_open_port], [wait_for_closed_port],
    [wait_for_x], [send_key], [start_job], [stop_job], [wait_for_job],
    [get_tty_text], [sleep], [forward_port], [block], [unblock]), and
    however the run ends, the attributes
    of the machine agree about its emulator: connected implies booted,
    the pid is set exactly while the machine is booted, and it is the
    pid of the process object. *)
Theorem emulator_attributes_consistent (ops : list Script2.op) (st : St) :
  consistent (self st) -> consistent (self (final (Script2.run ops st))).
Proof.
  revert st. unfold Script2.run.
  induction ops as [|o ops IH]; intros st H; cbn [for_each].
  - exact H.
  - pose proof (run_op_consistent o st H) as Ho. unfold bind.
    destruct (Script2.run_op o st) as [[] s|e s|s]; cbn in Ho |- *; auto.
Qed.

(** X7.  When [shutdown], [crash] or [wait_for_shutdown] returns on a
    machine whose attributes agree, the machine is neither booted nor
    connected and has no pid. *)
Theorem powered_off_when_shutdown_returns (st st' : St) :
  consistent (self st) ->
  shutdown st = Returned tt st' \/ crash st = Returned tt st' \/
  wait_for_shutdown st = Returned tt st' ->
  booted (self st') = false /\ connected (self st') = false /\
  pid (self st') = None.
Proof.
  intros HP [H|[H|H]].
  - exact (proj2 (triple_returned _ _ _ _ _ _ _ shutdown_triple HP H)).
  - exact (proj2 (triple_returned _ _ _ _ _ _ _ crash_triple HP H)).
  - exact (proj2 (triple_returned _ _ _ _ _ _ _ wait_for_shutdown_triple HP H)).
Qed.


(** *** Reaching the guest *)

Lemma execute_triple command :
  triple (fun s => consistent (self s)) (execute command)
         (fun _ s => online (self s)) (fun s => consistent (self s)).
Proof.
  unfold execute.
  eapply triple_bind; [exact connect_triple|intros ?].
  do 3 frame online online_on_emulator online_consistent.
  apply (keeps_triple online _ _); [apply keeps_execute_loop|exact online_consistent].
Qed.

Lemma connect_again st : connected (self st) = true -> connect st = Returned tt st.
Proof. intros H. unfold connect. rewrite bind_get, H. reflexivity. Qed.

Lemma online_facts st :
  online (self st) ->
  is_up (self st) = true /\
  pid (self st) <> None /\ connect st = Returned tt st.
Proof.
  intros [[(H1 & H2 & H3) Hb] Hc].
  split; [unfold is_up; now rewrite Hb, Hc|]. split; [now apply H2|].
  now apply connect_again.
Qed.

(** X8.  When [connect] or [execute] returns on a machine whose
    attributes agree, the machine is up ([is_up]: booted and
    connected) and has a pid, and a further [connect] returns at once
    and changes nothing. *)
Theorem guest_reached (command : string) (st : St) (r : Z * string) (st' : St) :
  consistent (self st) ->
  connect st = Returned tt st' \/ execute command st = Returned r st' ->
  is_up (self st') = true /\
  pid (self st') <> None /\ connect st' = Returned tt st'.
Proof.
  intros HP [H|H]; apply online_facts.
  - exact (triple_returned _ _ _ _ _ _ _ connect_triple HP H).
  - exact (triple_returned _ _ _ _ _ _ _ (execute_triple command) HP H).
Qed.

Lemma fresh_consistent m :
  booted m = false -> connected m = false -> pid m = None -> consistent m.
Proof.
  intros Hb Hc Hp. unfold consistent. rewrite Hb, Hc, Hp.
  split; [discriminate|]. split; [|discriminate].
  split; [discriminate|]. intros H. now contradiction H.
Qed.

Lemma running_consistent : consistent running_machine.
Proof.
  split; [reflexivity|]. split; [split; [discriminate|reflexivity]|].
  intros p H. inversion H. reflexivity.
Qed.

Lemma emulator_attributes_consistent_witness :
  consistent (self booting) /\
  consistent
    (self (final (Script2.run
                    [Script2.Basic Connect; Script2.Succeed ["echo hi"];
                     Script2.SendKey "A"; Script2.Basic Crash] booting))).
Proof.
  assert (H : consistent (self booting))
    by (apply fresh_consistent; reflexivity).
  split; [exact H|].
  exact (emulator_attributes_consistent _ booting H).
Defined.

Lemma powered_off_when_shutdown_returns_witness :
  consistent (self (running [] [])) /\
  shutdown (running [] []) = Returned tt (final (shutdown (running [] []))) /\
  booted (self (final (shutdown (running [] [])))) = false /\
  connected (self (final (shutdown (running [] [])))) = false /\
  pid (self (final (shutdown (running [] [])))) = None.
Proof.
  assert (H : shutdown (running [] []) = Returned tt (final (shutdown (running [] []))))
    by (vm_compute; reflexivity).
  split; [exact running_consistent|]. split; [exact H|].
  exact (powered_off_when_shutdown_returns (running [] []) _ running_consistent
           (or_introl H)).
Defined.

Lemma guest_reached_witness :
  consistent (self booting) /\
  connect booting = Returned tt (final (connect booting)) /\
  is_up (self (final (connect booting))) = true /\
  pid (self (final (connect booting))) <> None /\
  connect (final (connect booting)) = Returned tt (final (connect booting)).
Proof.
  assert (HP : consistent (self booting))
    by (apply fresh_consistent; reflexivity).
  assert (H : connect booting = Returned tt (final (connect booting)))
    by (vm_compute; reflexivity).
  split; [exact HP|]. split; [exact H|].
  exact (guest_reached "" booting (0, "") _ HP (or_introl H)).
Defined.

End Consistency.

(** ** The dictionary of a unit *)

Module UnitInfo.
Import Text Re Host Driver Spec Spec2 Scenario Scenario2 MonadFacts TextFacts ReFacts.

Lemma longest_first_top {R} (try : nat -> option R) lo extra r :
  try (lo + extra)%nat = Some r -> longest_first try lo extra = Some r.
Proof. intros H. destruct extra; cbn [longest_first]; now rewrite H. Qed.

Lemma span_all k s t :
  all_in k s = true ->
  span (in_cls k) (s ++ t) = (String.length s + span (in_cls k) t)%nat.
Proof.
  induction s as [|c s IH]; [reflexivity|]. rewrite append_cons. cbn.
  destruct (in_cls k c); [|discriminate]. cbn. intros H. now rewrite IH.
Qed.

Lemma take_append s t : take (String.length s) (s ++ t) = s.
Proof.
  induction s as [|c s IH]; [now destruct t|]. rewrite append_cons. cbn.
  now rewrite IH.
Qed.

Lemma drop_append s t : drop (String.length s) (s ++ t) = t.
Proof. induction s as [|c s IH]; [reflexivity|]. rewrite append_cons. exact IH. Qed.

Lemma take_all s : take (String.length s) s = s.
Proof. induction s as [|c s IH]; [reflexivity|]. cbn. now rewrite IH. Qed.

Lemma drop_all s : drop (String.length s) s = "".
Proof. induction s as [|c s IH]; [reflexivity|]. exact IH. Qed.

Lemma span_whole k s : all_in k s = true -> span (in_cls k) s = String.length s.
Proof.
  intros H. rewrite <- (append_nil_r s) at 1. rewrite (span_all _ _ _ H).
  cbn. lia.
Qed.

Lemma span_stop k s c t :
  all_in k s = true -> in_cls k c = false ->
  span (in_cls k) (s ++ String c t) = String.length s.
Proof.
  intros Hs Hc. rewrite (span_all _ _ _ Hs). cbn [span]. rewrite Hc. lia.
Qed.

(** A repetition takes the whole run of its class when the rest of the
    pattern matches behind it. *)
Lemma match_rep_whole captured min k rest pos s gs :
  (min <= span (in_cls k) s)%nat ->
  match_at rest (pos + span (in_cls k) s) (drop (span (in_cls k) s) s) = Some gs ->
  match_at (Rep captured min k :: rest) pos s
  = Some (if captured then take (span (in_cls k) s) s :: gs else gs).
Proof.
  intros Hmin H. cbn [match_at]. cbv zeta.
  replace (span (in_cls k) s <? min)%nat with false
    by (symmetry; apply Nat.ltb_ge; exact Hmin).
  apply longest_first_top.
  replace (min + (span (in_cls k) s - min))%nat with (span (in_cls k) s) by lia.
  now rewrite H.
Qed.

Lemma match_bos rest s : match_at (Bos :: rest) 0 s = match_at rest 0 s.
Proof. reflexivity. Qed.

Lemma match_lit_append l rest pos s :
  match_at (Lit l :: rest) pos (l ++ s)
  = match_at rest (pos + String.length l) s.
Proof. cbn [match_at]. now rewrite prefix_append, drop_append. Qed.

Lemma match_eos pos : match_at [Eos] pos "" = Some [].
Proof. reflexivity. Qed.

(** A line made of a key, the equals sign and a value is taken apart
    at its first equals sign. *)
Lemma line_fields k v :
  k <> "" -> all_in (Not "=") k = true -> all_in Dot v = true ->
  re_match line_pattern (k ++ "=" ++ v) = Some [k; v].
Proof.
  intros Hk Hke Hv. unfold re_match, line_pattern. rewrite match_bos.
  assert (Hl : (1 <= String.length k)%nat) by (destruct k; [congruence|cbn; lia]).
  assert (Hs : span (in_cls (Not "=")) (k ++ "=" ++ v) = String.length k)
    by (apply (span_stop _ k "=" v Hke); reflexivity).
  rewrite (match_rep_whole true 1 (Not "=") _ 0 _ [v]).
  - rewrite Hs, take_append. reflexivity.
  - rewrite Hs. exact Hl.
  - rewrite Hs, drop_append, match_lit_append.
    rewrite (match_rep_whole true 0 Dot [Eos] _ v []).
    + rewrite (span_whole _ _ Hv), take_all. reflexivity.
    + lia.
    + rewrite (span_whole _ _ Hv), drop_all. apply match_eos.
Qed.

(** A line the pattern matches begins with its key and an equals
    sign. *)
Lemma line_key line gs :
  re_match line_pattern line = Some gs ->
  String.prefix (group 1 gs ++ "=") line = true.
Proof.
  unfold re_match, line_pattern. rewrite match_bos. intros H.
  apply match_rep in H. destruct H as (j & gs' & _ & _ & _ & H & ->).
  apply match_lit in H. destruct H as [H _].
  cbn [group Nat.sub nth]. rewrite <- (take_drop j line) at 2.
  rewrite H, <- append_assoc. apply prefix_append.
Qed.

Lemma other_lines k lines d :
  Forall (fun l => String.prefix (k ++ "=") l = false) lines ->
  fold_left add_line lines d !! k = d !! k.
Proof.
  intros H. revert d. induction H as [|l lines Hl _ IH]; intros d; [reflexivity|].
  cbn [fold_left]. rewrite IH. unfold add_line.
  destruct (re_match line_pattern l) as [gs|] eqn:E; [|reflexivity].
  apply lookup_insert_ne. intros <-. apply line_key in E. congruence.
Qed.

Lemma last_line_wins (before after : list string) (k v : string) :
  k <> "" -> all_in (Not "=") k = true -> all_in Dot v = true ->
  Forall (fun l => String.prefix (k ++ "=") l = false) after ->
  dict_of_lines (before ++ (k ++ "=" ++ v) :: after) !! k = Some v.
Proof.
  intros Hk Hke Hv Hafter. unfold dict_of_lines.
  change (fold_left add_line (before ++ (k ++ "=" ++ v) :: after) ∅ !! k = Some v).
  rewrite fold_left_app. cbn [fold_left]. rewrite (other_lines _ _ _ Hafter).
  unfold add_line at 1. rewrite (line_fields _ _ Hk Hke Hv).
  cbn [group Nat.sub nth]. apply lookup_insert_eq.
Qed.

Lemma missing_key (lines : list string) (k : string) :
  Forall (fun l => String.prefix (k ++ "=") l = false) lines ->
  dict_of_lines lines !! k = None.
Proof.
  intros H. unfold dict_of_lines.
  change (fold_left add_line lines ∅ !! k = None).
  now rewrite (other_lines _ _ _ H).
Qed.

(** The fields [split] cuts a text into hold no line feed. *)
Lemma split_on_fields s : Forall (fun f => all_in Dot f = true) (split_on LF s).
Proof.
  induction s as [|c s IH]; cbn [split_on].
  - constructor; [reflexivity|constructor].
  - destruct (Ascii.eqb c LF) eqn:E.
    + constructor; [reflexivity|exact IH].
    + destruct (split_on LF s) as [|f fs]; constructor.
      * cbn [all_in in_cls]. now rewrite E.
      * constructor.
      * cbn [all_in in_cls]. rewrite E. cbn. now inversion IH.
      * now inversion IH.
Qed.

Lemma all_in_append k s t :
  all_in k (s ++ t) = true -> all_in k s = true /\ all_in k t = true.
Proof.
  induction s as [|c s IH]; [now split|]. rewrite append_cons. cbn [all_in].
  intros H. apply andb_prop in H. destruct H as [Hc H].
  destruct (IH H) as [H1 H2]. rewrite Hc, H1. now split.
Qed.

Section Reply.
Variables (unit_ : string) (user : option string).

Lemma get_unit_info_returned st text st' :
  systemctl (show_query unit_) user st = Returned (0, text) st' ->
  get_unit_info unit_ user st = Returned (dict_of_lines (split_on LF text)) st'.
Proof.
  intros H. unfold get_unit_info. fold (show_query unit_).
  now rewrite (bind_returned _ _ _ _ _ H).
Qed.

Lemma get_unit_info_raised st status text st' :
  systemctl (show_query unit_) user st = Returned (status, text) st' -> status <> 0 ->
  get_unit_info unit_ user st = Raised (show_failed unit_ user status) st'.
Proof.
  intros H Hs. unfold get_unit_info. fold (show_query unit_).
  rewrite (bind_returned _ _ _ _ _ H).
  destruct (Z.eqb_spec status 0) as [|_]; [contradiction|]. reflexivity.
Qed.

(** X9.  When [systemctl show] answers with status 0, the dictionary
    of [get_unit_info] gives a key the value of the last line that
    begins with the key and an equals sign; the line is cut at its
    first equals sign. *)
Theorem unit_info_value_of_last_line (st st' : St) (text : string)
    (before after : list string) (k v : string) :
  systemctl (show_query unit_) user st = Returned (0, text) st' ->
  split_on LF text = (before ++ (k ++ "=" ++ v)%string :: after)%list ->
  k <> "" -> all_in (Not "=") k = true ->
  Forall (fun l => String.prefix (k ++ "=") l = false) after ->
  exists info,
    get_unit_info unit_ user st = Returned info st' /\ info !! k = Some v.
Proof.
  intros H Hsplit Hk Hke Hafter.
  exists (dict_of_lines (split_on LF text)).
  split; [now apply get_unit_info_returned|].
  rewrite Hsplit. apply last_line_wins; try assumption.
  pose proof (split_on_fields text) as Hf. rewrite Hsplit in Hf.
  apply Forall_app in Hf. destruct Hf as [_ Hf]. inversion Hf as [|? ? Hkv _].
  apply all_in_append in Hkv. destruct Hkv as [_ Hkv].
  apply all_in_append in Hkv. now destruct Hkv.
Qed.

(** X10.  [wait_for_unit] does not retry on a reply it cannot read:
    a status other than 0 raises the exception that names the unit,
    the user and the status, and a reply with status 0 and no line for
    [ActiveState] raises [KeyError], both at the first look. *)
Theorem wait_for_unit_bad_reply (st st' : St) (status : Z) (text : string) :
  systemctl (show_query unit_) user st = Returned (status, text) st' ->
  (status <> 0 ->
   wait_for_unit unit_ user st = Raised (show_failed unit_ user status) st') /\
  (status = 0 ->
   Forall (fun l => String.prefix "ActiveState=" l = false) (split_on LF text) ->
   wait_for_unit unit_ user st = Raised (Exn "KeyError" "ActiveState") st').
Proof.
  intros H. split.
  - intros Hs. unfold wait_for_unit.
    apply (RetryFacts.retry_raises _ 0 st st st'); [lia|reflexivity|].
    unfold check_active.
    now rewrite (bind_raised _ _ _ _ _ (get_unit_info_raised _ _ _ _ H Hs)).
  - intros -> Hl. unfold wait_for_unit.
    apply (RetryFacts.retry_raises _ 0 st st st'); [lia|reflexivity|].
    unfold check_active.
    rewrite (bind_returned _ _ _ _ _ (get_unit_info_returned _ _ _ H)).
    unfold getitem at 1. rewrite (missing_key _ "ActiveState" Hl). reflexivity.
Qed.

End Reply.

Lemma unit_info_value_of_last_line_witness :
  systemctl (show_query "sshd") None unit_described
  = Returned (0, description)
             (final (systemctl (show_query "sshd") None unit_described)) /\
  exists info,
    get_unit_info "sshd" None unit_described
    = Returned info (final (systemctl (show_query "sshd") None unit_described)) /\
    info !! "ActiveState" = Some "active".
Proof.
  assert (H : systemctl (show_query "sshd") None unit_described
              = Returned (0, description)
                  (final (systemctl (show_query "sshd") None unit_described)))
    by (vm_compute; reflexivity).
  split; [exact H|].
  apply (unit_info_value_of_last_line "sshd" None unit_described _ description
           ["Id=sshd.service"; "ActiveState=inactive"]
           ["Description=a=b"; ""] "ActiveState" "active" H).
  - vm_compute. reflexivity.
  - discriminate.
  - reflexivity.
  - repeat constructor.
Defined.

Lemma wait_for_unit_bad_reply_witness :
  systemctl (show_query "sshd") None unit_unknown
  = Returned (1, "Unit sshd not found." ++ nl)
             (final (systemctl (show_query "sshd") None unit_unknown)) /\
  wait_for_unit "sshd" None unit_unknown
  = Raised (show_failed "sshd" None 1)
           (final (systemctl (show_query "sshd") None unit_unknown)).
Proof.
  assert (H : systemctl (show_query "sshd") None unit_unknown
              = Returned (1, "Unit sshd not found." ++ nl)
                  (final (systemctl (show_query "sshd") None unit_unknown)))
    by (vm_compute; reflexivity).
  split; [exact H|].
  apply (proj1 (wait_for_unit_bad_reply "sshd" None unit_unknown _ 1 _ H)).
  discriminate.
Defined.

(** A reply that says nothing about the state of the unit. *)
Example wait_for_unit_without_state :
  wait_for_unit "sshd" None (running [] ["Id=sshd.service" ++ nl; status "0"])
  = Raised (Exn "KeyError" "ActiveState")
      (final (systemctl (show_query "sshd") None
                (running [] ["Id=sshd.service" ++ nl; status "0"]))).
Proof. vm_compute. reflexivity. Qed.

End UnitInfo.

(** ** What the composer of the start command needs *)

Module ComposerFacts.
Import Text Host Composer.

Section Composed.
Variable abspath : string -> string.

(** X11.  [create_startcommand] fails on exactly one kind of argument
    dictionary: one with a disk image under [hda] and no entry for
    [hdaInterface]; the error is then the [KeyError] of that key, and
    every other dictionary gives a command. *)
Theorem create_startcommand_fails_iff (args : gmap string string) :
  (forall e, create_startcommand abspath args = inl e ->
             e = Exn "KeyError" "hdaInterface") /\
  ((exists e, create_startcommand abspath args = inl e) <->
   (args !! "hda" <> None /\ args !! "hdaInterface" = None)).
Proof.
  unfold create_startcommand, item. cbv zeta.
  destruct (args !! "hda") as [hda|].
  - destruct (args !! "hdaInterface") as [iface|]; cbn [default].
    + destruct (String.eqb _ "scsi"); cbv beta iota;
        (split; [intros e H; discriminate|]);
        (split; [intros [e He]; discriminate|intros [_ H]; discriminate]).
    + cbn [String.eqb]. cbv beta iota. split.
      * intros e H. now inversion H.
      * split; [intros _; split; [discriminate|reflexivity]|].
        intros _. eexists. reflexivity.
  - cbv beta iota. split; [intros e H; discriminate|].
    split; [intros [e He]; discriminate|intros [H _]; now contradiction H].
Qed.

End Composed.

Lemma create_startcommand_fails_iff_witness :
  (exists e, create_startcommand (fun p => p) {[ "hda" := "disk.img" ]} = inl e) /\
  (forall e, create_startcommand (fun p => p) {[ "hda" := "disk.img" ]} = inl e ->
             e = Exn "KeyError" "hdaInterface").
Proof.
  split.
  - apply (proj2 (proj2 (create_startcommand_fails_iff (fun p => p)
                           {[ "hda" := "disk.img" ]}))).
    split; [intros E; vm_compute in E; discriminate|vm_compute; reflexivity].
  - exact (proj1 (create_startcommand_fails_iff (fun p => p)
                    {[ "hda" := "disk.img" ]})).
Defined.

(** The same disk on the SCSI bus, and on a bus that is named. *)
Example create_startcommand_with_disk :
  create_startcommand (fun p => "/work/" ++ p)
    {[ "hda" := "disk.img"; "hdaInterface" := "scsi" ]}
  = inr ("qemu-kvm -m 384 -netdev user,id=net0 "
         ++ "-device virtio-net-pci,netdev=net0 $QEMU_OPTS "
         ++ "-drive id=hda,file=/work/disk.img,werror=report,if=none "
         ++ "-device scsi-hd,drive=hda ") /\
  create_startcommand (fun p => "/work/" ++ p)
    {[ "hda" := "disk.img"; "hdaInterface" := "virtio"; "qemuFlags" := "-smp 2" ]}
  = inr ("qemu-kvm -m 384 -netdev user,id=net0 "
         ++ "-device virtio-net-pci,netdev=net0 $QEMU_OPTS "
         ++ "-drive file=/work/disk.img,if=virtio,werror=report -smp 2").
Proof. split; vm_compute; reflexivity. Qed.

End ComposerFacts.

(** ** The machine object *)

Module Construction.
Import Text Re Host Driver Composer Main Spec Spec2 Scenario MonadFacts
  TextFacts ReFacts UnitInfo.

(** *** Making directories *)





















(** The fuel of [makedirs]: the call on the head is on a shorter
    text. *)
Lemma length_rstrip c s : (String.length (rstrip c s) <= String.length s)%nat.
Proof.
  induction s as [|d s IH]; [cbn; lia|]. cbn [rstrip].
  destruct (rstrip c s) as [|e r] eqn:E.
  - destruct (Ascii.eqb d c); cbn; lia.
  - cbn [String.length] in IH |- *. lia.
Qed.

Lemma length_take_drop n s :
  (String.length (take n s) + String.length (drop n s) = String.length s)%nat.
Proof. rewrite <- length_append. now rewrite take_drop. Qed.

Lemma path_split_lengths p :
  (String.length (fst (path_split p)) + String.length (snd (path_split p))
   <= String.length p)%nat.
Proof.
  unfold path_split. cbn [fst snd].
  pose proof (length_take_drop (rfind_end "/" p) p) as H.
  pose proof (length_rstrip "/" (take (rfind_end "/" p) p)) as Hr.
  destruct (String.eqb (rstrip "/" (take (rfind_end "/" p) p)) ""); lia.
Qed.

Lemma bind_congr_l {S A B} (m m' : M S A) (k : A -> M S B) :
  (forall s, m s = m' s) -> forall s, bind m k s = bind m' k s.
Proof. intros H s. unfold bind. now rewrite H. Qed.

Lemma bind_congr_r {S A B} (m : M S A) (k k' : A -> M S B) :
  (forall a s, k a s = k' a s) -> forall s, bind m k s = bind m k' s.
Proof. intros H s. unfold bind. destruct (m s); auto. Qed.

Lemma catch_congr_l {S A} (m m' : M S A) (h : exn -> M S A) :
  (forall s, m s = m' s) -> forall s, catch m h s = catch m' h s.
Proof. intros H s. unfold catch. now rewrite H. Qed.

Lemma makedirs_fuel fuel fuel' name w :
  (String.length name < fuel)%nat -> (String.length name < fuel')%nat ->
  makedirs fuel name w = makedirs fuel' name w.
Proof.
  revert fuel' name w. induction fuel as [|fuel IH]; intros fuel' name w H H';
    [lia|]. destruct fuel' as [|fuel']; [lia|]. cbn [makedirs].
  pose proof (path_split_lengths name) as L0.
  destruct (path_split name) as [h0 t0]. cbn [fst snd] in L0.
  assert (L : forall h t,
             (if String.eqb t0 "" then path_split h0 else (h0, t0)) = (h, t) ->
             t <> "" -> (String.length h < String.length name)%nat).
  { intros h t E Ht. destruct (String.eqb t0 "").
    - pose proof (path_split_lengths h0) as L1. rewrite E in L1. cbn [fst snd] in L1.
      destruct t; [congruence|]. cbn [String.length] in L1. lia.
    - inversion E; subst. destruct t; [congruence|]. cbn [String.length] in L0. lia. }
  destruct (if String.eqb t0 "" then path_split h0 else (h0, t0)) as [h t].
  specialize (L h t eq_refl).
  destruct (String.eqb_spec t "") as [->|Ht]; [now rewrite andb_false_r|].
  destruct (negb (String.eqb h "")); [|reflexivity]. cbn [andb negb].
  specialize (L Ht). revert w. apply bind_congr_l.
  apply bind_congr_r. intros present w1. destruct present; [reflexivity|].
  revert w1. apply bind_congr_l. apply catch_congr_l. intros w1.
  apply IH; lia.
Qed.

(** *** The last component of a path *)






(** *** The name of a machine *)

Lemma longest_first_down {R} (try : nat -> option R) lo extra k r :
  (k <= extra)%nat ->
  (forall j, (lo + k < j <= lo + extra)%nat -> try j = None) ->
  try (lo + k)%nat = Some r ->
  longest_first try lo extra = Some r.
Proof.
  intros Hk Hnone Hsome. induction extra as [|extra IH].
  - replace k with 0%nat in Hsome by lia. cbn [longest_first]. now rewrite Hsome.
  - destruct (Nat.eq_dec k (S extra)) as [->|Hne].
    + cbn [longest_first]. now rewrite Hsome.
    + cbn [longest_first]. rewrite (Hnone (lo + S extra)%nat) by lia.
      apply IH; [lia|]. intros j Hj. apply Hnone. lia.
Qed.

Lemma drop_add s t i : drop (String.length s + i) (s ++ t) = drop i t.
Proof. induction s as [|c s IH]; [reflexivity|]. rewrite append_cons. exact IH. Qed.

Lemma all_in_app k s t :
  all_in k s = true -> all_in k t = true -> all_in k (s ++ t) = true.
Proof.
  induction s as [|c s IH]; [now rewrite append_nil_l|]. rewrite append_cons.
  cbn [all_in]. intros H Ht. apply andb_prop in H. destruct H as [Hc Hs].
  now rewrite Hc, IH.
Qed.

(** The pattern applied where the text is [run-], a name and [-vm]. *)
Lemma name_match pos n :
  n <> "" -> all_in Dot n = true ->
  match_at name_pattern pos ("run-" ++ n ++ "-vm") = Some [n].
Proof.
  intros Hn Hdot. unfold name_pattern. rewrite match_lit_append.
  assert (Hl : (1 <= String.length n)%nat) by (destruct n; [congruence|cbn; lia]).
  assert (Hs : span (in_cls Dot) (n ++ "-vm") = (String.length n + 3)%nat).
  { rewrite (span_whole Dot (n ++ "-vm")); [|now apply all_in_app].
    now rewrite length_append. }
  cbn [match_at]. cbv zeta. rewrite Hs.
  replace (String.length n + 3 <? 1)%nat with false
    by (symmetry; apply Nat.ltb_ge; lia).
  apply (longest_first_down _ 1 _ (String.length n - 1)); [lia| |].
  - intros j Hj.
    assert (Hc : j = (String.length n + 1)%nat \/ j = (String.length n + 2)%nat
                 \/ j = (String.length n + 3)%nat) by lia.
    destruct Hc as [->|[->| ->]]; rewrite drop_add; reflexivity.
  - replace (1 + (String.length n - 1))%nat with (String.length n + 0)%nat by lia.
    rewrite drop_add. rewrite Nat.add_0_r, take_append. reflexivity.
Qed.

Lemma search_skip pos p t :
  starts_before "run-" (String.length p) (p ++ t) = false ->
  search_from name_pattern pos (p ++ t)
  = search_from name_pattern (pos + String.length p) t.
Proof.
  revert pos. induction p as [|c p IH]; intros pos H.
  - rewrite append_nil_l. cbn [String.length]. now rewrite Nat.add_0_r.
  - rewrite append_cons in H |- *. cbn [String.length starts_before] in H.
    apply orb_false_elim in H. destruct H as [Hp H].
    cbn [search_from]. unfold name_pattern at 1. cbn [match_at]. rewrite Hp.
    rewrite (IH (S pos) H). f_equal. cbn [String.length]. lia.
Qed.

Lemma search_here pos t gs :
  match_at name_pattern pos t = Some gs -> search_from name_pattern pos t = Some gs.
Proof. intros H. destruct t; cbn [search_from]; now rewrite H. Qed.

Lemma name_found p n :
  starts_before "run-" (String.length p) (p ++ "run-" ++ n ++ "-vm") = false ->
  n <> "" -> all_in Dot n = true ->
  re_search name_pattern (p ++ "run-" ++ n ++ "-vm") = Some [n].
Proof.
  intros Hp Hn Hdot. unfold re_search. rewrite (search_skip _ _ _ Hp).
  apply search_here. now apply name_match.
Qed.

Lemma search_found pos s gs :
  search_from name_pattern pos s = Some gs ->
  exists a t, s = a ++ t /\ match_at name_pattern (pos + String.length a) t = Some gs.
Proof.
  revert pos. induction s as [|c s IH]; intros pos H; cbn [search_from] in H.
  - destruct (match_at name_pattern pos "") eqn:E; [|discriminate].
    inversion H; subst. exists "", "". split; [reflexivity|].
    cbn [String.length]. now rewrite Nat.add_0_r.
  - destruct (match_at name_pattern pos (String c s)) eqn:E.
    + inversion H; subst. exists "", (String c s). split; [reflexivity|].
      cbn [String.length]. now rewrite Nat.add_0_r.
    + apply IH in H. destruct H as (a & t & -> & H).
      exists (String c a), t. split; [now rewrite append_cons|].
      cbn [String.length]. now replace (pos + S (String.length a))%nat
                              with (S pos + String.length a)%nat by lia.
Qed.

Lemma name_matched pos t gs :
  match_at name_pattern pos t = Some gs ->
  exists g e,
    gs = [g] /\ t = "run-" ++ g ++ "-vm" ++ e /\
    g <> "" /\ all_in Dot g = true /\ (e = "" \/ e = nl).
Proof.
  unfold name_pattern. intros H.
  apply match_lit in H. destruct H as (Ht & H).
  apply match_rep in H. destruct H as (j & gs' & Hj & Hdot & Hlen & H & ->).
  apply match_lit in H. destruct H as (Hr & H).
  cbn [match_at] in H.
  set (r := drop (String.length "run-") t) in *.
  set (e := drop (String.length "-vm") (drop j r)) in *.
  exists (take j r), e.
  assert (He : e = "" \/ e = nl).
  { destruct (String.eqb_spec e "") as [->|_]; [now left|].
    destruct (String.eqb_spec e (String LF "")) as [->|_]; [now right|].
    cbn in H. discriminate. }
  assert (Hgs : gs' = []).
  { destruct (String.eqb e "" || String.eqb e (String LF "")); now inversion H. }
  subst gs'. split; [reflexivity|].
  split; [|split; [|split; [exact Hdot|exact He]]].
  - rewrite Ht. fold r. f_equal. rewrite <- (take_drop j r) at 1. f_equal.
    exact Hr.
  - intros E. rewrite E in Hlen. cbn in Hlen. lia.
Qed.

(** *** The constructor *)

Lemma create_dir_returned dir nm w path w' :
  create_dir dir nm w = Returned path w' ->
  path = path_join dir nm /\ os_makedirs path w = Returned tt w'.
Proof.
  unfold create_dir. intros H.
  apply bind_inv_returned in H. destruct H as ([] & w1 & H1 & H).
  inversion H; subst. now split.
Qed.

Lemma create_machine_returned args allowReboot w m w' :
  create_machine args allowReboot w = Returned m w' ->
  name m = match args !! "name" with
           | Some n => n
           | None =>
               match args !! "startCommand" with
               | Some cmd =>
                   if String.eqb cmd "" then "machine"
                   else match re_search name_pattern cmd with
                        | Some gs => group 1 gs
                        | None => "machine"
                        end
               | None => "machine"
               end
           end /\
  (exists composed,
     create_startcommand (abspath w) args = inr composed /\
     script m = default composed (args !! "startCommand")) /\
  booted m = false /\ connected m = false /\ pid m = None /\
  allow_reboot m = default false allowReboot /\
  exists w1,
    create_dir (tmp_dir w) ("vm-state-" ++ name m) w = Returned (state_dir m) w1 /\
    create_dir (tmp_dir w) "shared-xchg" w1 = Returned (shared_dir m) w'.
Proof.
  unfold create_machine, Machine_init. cbv zeta.
  rewrite Consistency.bind_get. fold (tmp_dir w). intros H.
  apply bind_inv_returned in H. destruct H as (composed & w0 & Hc & H).
  assert (Hcomposed : create_startcommand (abspath w) args = inr composed /\ w0 = w).
  { destruct (create_startcommand (abspath w) args); inversion Hc; now split. }
  destruct Hcomposed as [Hcomposed ->].
  apply bind_inv_returned in H. destruct H as (sd & w1 & H1 & H).
  apply bind_inv_returned in H. destruct H as (xd & w2 & H2 & H).
  inversion H; subst; clear H.
  cbn [name script booted connected pid state_dir shared_dir allow_reboot].
  split; [reflexivity|]. split; [now exists composed|].
  repeat (split; [reflexivity|]). exists w1. now split.
Qed.

(** X12.  For a dictionary without a name whose start command ends
    in [run-], a name and [-vm], with no [run-] earlier in it:
    [create_machine] gives the machine that name and the state
    directory [vm-state-<name>] in the directory for temporary
    files. *)
Theorem machine_name_from_script (args : gmap string string)
    (allowReboot : option bool) (p n : string) (w : World) (m : Machine)
    (w' : World) :
  args !! "name" = None ->
  args !! "startCommand" = Some (p ++ "run-" ++ n ++ "-vm") ->
  starts_before "run-" (String.length p) (p ++ "run-" ++ n ++ "-vm") = false ->
  n <> "" -> all_in Dot n = true ->
  create_machine args allowReboot w = Returned m w' ->
  name m = n /\ state_dir m = path_join (tmp_dir w) ("vm-state-" ++ n).
Proof.
  intros Hname Hcmd Hp Hn Hdot H. apply create_machine_returned in H.
  destruct H as (Hnm & _ & _ & _ & _ & _ & w1 & H1 & _).
  rewrite Hname, Hcmd, (name_found _ _ Hp Hn Hdot) in Hnm.
  cbn [group Nat.sub nth] in Hnm.
  assert (He : String.eqb (p ++ "run-" ++ n ++ "-vm") "" = false)
    by (destruct p; reflexivity).
  rewrite He in Hnm. split; [exact Hnm|].
  apply create_dir_returned in H1. destruct H1 as [H1 _]. now rewrite <- Hnm.
Qed.


(** X14.  The name of the machine [create_machine] returns is the
    entry [name] of the dictionary when there is one.  Without it the
    name is never empty and holds no line feed: it is [machine], or
    the text between a [run-] of the start command and the [-vm] that
    ends it (a final line feed apart). *)
Theorem machine_name_wellformed (args : gmap string string)
    (allowReboot : option bool) (w : World) (m : Machine) (w' : World) :
  create_machine args allowReboot w = Returned m w' ->
  (forall n, args !! "name" = Some n -> name m = n) /\
  (args !! "name" = None ->
   name m <> "" /\ all_in Dot (name m) = true /\
   (name m = "machine" \/
    exists a e,
      args !! "startCommand" = Some (a ++ "run-" ++ name m ++ "-vm" ++ e) /\
      (e = "" \/ e = nl))).
Proof.
  intros H. apply create_machine_returned in H. destruct H as (Hname & _).
  split; [intros n Hn; now rewrite Hname, Hn|].
  intros Hn. rewrite Hn in Hname.
  destruct (args !! "startCommand") as [c|];
    [|rewrite Hname; split; [discriminate|split; [reflexivity|now left]]].
  destruct (String.eqb c "");
    [rewrite Hname; split; [discriminate|split; [reflexivity|now left]]|].
  destruct (re_search name_pattern c) as [gs|] eqn:E;
    [|rewrite Hname; split; [discriminate|split; [reflexivity|now left]]].
  apply search_found in E. destruct E as (a & t & -> & E).
  apply name_matched in E. destruct E as (g & e & -> & -> & Hg & Hdot & He).
  cbn [group Nat.sub nth] in Hname. rewrite Hname.
  split; [exact Hg|]. split; [exact Hdot|]. right. exists a, e. now split.
Qed.

Lemma machine_name_from_script_witness :
  let args : gmap string string :=
    {[ "startCommand" := "/nix/store/bin/" ++ "run-" ++ "client" ++ "-vm" ]} in
  args !! "name" = None /\
  starts_before "run-" (String.length "/nix/store/bin/")
    ("/nix/store/bin/" ++ "run-" ++ "client" ++ "-vm") = false /\
  create_machine args None (host [] []) = Returned fresh_machine (host [] []) /\
  name fresh_machine = "client" /\
  state_dir fresh_machine = path_join (tmp_dir (host [] [])) ("vm-state-" ++ "client").
Proof.
  cbv zeta.
  assert (H : create_machine
                {[ "startCommand" := "/nix/store/bin/" ++ "run-" ++ "client" ++ "-vm" ]}
                None (host [] [])
              = Returned fresh_machine (host [] []))
    by (vm_compute; reflexivity).
  split; [vm_compute; reflexivity|]. split; [reflexivity|]. split; [exact H|].
  apply (machine_name_from_script
           {[ "startCommand" := "/nix/store/bin/" ++ "run-" ++ "client" ++ "-vm" ]}
           None "/nix/store/bin/" "client" (host [] []) fresh_machine (host [] []));
    [vm_compute; reflexivity|vm_compute; reflexivity|reflexivity|discriminate
    |reflexivity|exact H].
Defined.


Lemma machine_name_wellformed_witness :
  create_machine {[ "name" := "boot-after-install"; "startCommand" := client_script ]}
    (Some true) (host [] [])
  = Returned
      (value fresh_machine
         (create_machine
            {[ "name" := "boot-after-install"; "startCommand" := client_script ]}
            (Some true) (host [] [])))
      (final
         (create_machine
            {[ "name" := "boot-after-install"; "startCommand" := client_script ]}
            (Some true) (host [] []))) /\
  name (value fresh_machine
          (create_machine
             {[ "name" := "boot-after-install"; "startCommand" := client_script ]}
             (Some true) (host [] [])))
  = "boot-after-install".
Proof.
  assert (H : create_machine
                {[ "name" := "boot-after-install"; "startCommand" := client_script ]}
                (Some true) (host [] [])
              = Returned
                  (value fresh_machine
                     (create_machine
                        {[ "name" := "boot-after-install";
                           "startCommand" := client_script ]}
                        (Some true) (host [] [])))
                  (final
                     (create_machine
                        {[ "name" := "boot-after-install";
                           "startCommand" := client_script ]}
                        (Some true) (host [] []))))
    by (vm_compute; reflexivity).
  split; [exact H|].
  apply (proj1 (machine_name_wellformed _ _ _ _ _ H)). vm_compute; reflexivity.
Defined.

(** A command that does not name the machine, and a state directory
    that is yet to be made. *)
Example machine_without_name :
  exists m w',
    create_machine {[ "startCommand" := "qemu-kvm -m 384" ]} None (host [] [])
    = Returned m w' /\
    name m = "machine" /\ state_dir m = "/tmp/vm-state-machine" /\
    fs (host [] []) !! "/tmp/vm-state-machine" = None /\
    fs w' !! "/tmp/vm-state-machine" = Some Directory.
Proof.
  eexists. eexists. split; [vm_compute; reflexivity|].
  split; [reflexivity|]. split; [reflexivity|].
  split; [reflexivity|vm_compute; reflexivity].
Qed.

(** A name with a slash and a directory for temporary files that is
    not there: the directories above the state directory are made as
    well. *)
Example machine_below_missing_directories :
  exists m w',
    create_machine {[ "startCommand" := "/x/run-a/b-vm" ]} None
      (W.set_environ (insert "TMPDIR" "/var/tests") (host [] []))
    = Returned m w' /\
    name m = "a/b" /\ state_dir m = "/var/tests/vm-state-a/b" /\
    fs w' !! "/var" = Some Directory /\
    fs w' !! "/var/tests" = Some Directory /\
    fs w' !! "/var/tests/vm-state-a" = Some Directory /\
    fs w' !! "/var/tests/vm-state-a/b" = Some Directory /\
    fs w' !! "/var/tests/shared-xchg" = Some Directory.
Proof.
  eexists. eexists. split; [vm_compute; reflexivity|].
  split; [reflexivity|]. split; [reflexivity|].
  repeat (split; [vm_compute; reflexivity|]). vm_compute; reflexivity.
Qed.

(** A file where a directory above the state directory should be, and
    a dictionary the composer fails on. *)
Example machine_not_constructed :
  (exists w',
     create_machine {[ "startCommand" := "/x/run-client.qcow2/b-vm" ]} None
       (W.set_fs (insert "/tmp/vm-state-client.qcow2" RegularFile) (host [] []))
     = Raised (Exn "NotADirectoryError" "/tmp/vm-state-client.qcow2/b") w') /\
  create_machine {[ "startCommand" := client_script; "hda" := "disk.img" ]} None
    (host [] [])
  = Raised (Exn "KeyError" "hdaInterface") (host [] []).
Proof. split; [eexists|]; vm_compute; reflexivity. Qed.

End Construction.

(** ** The exit status *)

Module Status.
Import Text Re Host Driver Spec Scenario MonadFacts TextFacts ReFacts Shell.

Lemma digit_value_range c : isdigit c = true -> 0 <= digit_value c <= 9.
Proof.
  unfold isdigit, digit_value. intros H. apply andb_prop in H. destruct H as [H1 H2].
  apply Nat.leb_le in H1, H2. lia.
Qed.

Lemma int_acc_nonnegative acc s :
  0 <= acc -> all_in Digit s = true -> 0 <= int_acc acc s.
Proof.
  revert acc. induction s as [|c s IH]; intros acc Hacc H; [exact Hacc|].
  cbn [all_in in_cls] in H. apply andb_prop in H. destruct H as [Hc Hs].
  cbn [int_acc]. apply IH; [|exact Hs].
  pose proof (digit_value_range c Hc). lia.
Qed.

(** X15.  The exit status [execute] returns is never negative: it is
    the number spelled by the decimal digits behind the sentinel. *)
Theorem execute_status_nonnegative (command : string) (st : St) (s : Z)
    (out : string) (st' : St) :
  execute command st = Returned (s, out) st' -> 0 <= s.
Proof.
  unfold execute. intros H.
  apply bind_inv_returned in H. destruct H as ([] & st1 & _ & H).
  apply bind_inv_returned in H. destruct H as (s0 & st2 & _ & H).
  apply bind_inv_returned in H. destruct H as (fd & st3 & _ & H).
  apply bind_inv_returned in H. destruct H as ([] & st4 & _ & H).
  apply execute_loop_returned in H.
  destruct H as (earlier & last & gs & _ & _ & Hm & _ & -> & _).
  destruct (status_code_match _ _ Hm) as (g1 & ws & g2 & rest & -> & _ & _ & _ & _ & _ & Hd).
  cbn [group Nat.sub nth]. apply int_acc_nonnegative; [lia|exact Hd].
Qed.

Lemma execute_status_nonnegative_witness :
  execute "exit 3" (running [] ["bye" ++ nl; status "3"])
  = Returned (3, "bye" ++ nl) (final (execute "exit 3" (running [] ["bye" ++ nl; status "3"]))) /\
  0 <= 3.
Proof.
  assert (H : execute "exit 3" (running [] ["bye" ++ nl; status "3"])
              = Returned (3, "bye" ++ nl)
                  (final (execute "exit 3" (running [] ["bye" ++ nl; status "3"]))))
    by (vm_compute; reflexivity).
  split; [exact H|]. exact (execute_status_nonnegative _ _ _ _ _ H).
Defined.

End Status.

(** ** What start hands to the emulator *)

Module Spawning.
Import Text Re Host Driver Spec Spec2 Scenario MonadFacts Frame.

Lemma follows_refl st : follows st st.
Proof. repeat split. now exists []. Qed.

Lemma follows_trans a b c : follows a b -> follows b c -> follows a c.
Proof.
  intros (E1 & [m1 T1] & S1 & D1 & X1 & R1) (E2 & [m2 T2] & S2 & D2 & X2 & R2).
  split; [congruence|]. split; [|repeat split; congruence].
  exists (m2 ++ m1)%list. rewrite T2, T1. now rewrite app_assoc.
Qed.

(** *** Computations of the host *)

Lemma host_ret {A} (a : A) : carries_host (ret a).
Proof. intros w. split; [reflexivity|now exists []]. Qed.

Lemma host_get : carries_host get.
Proof. intros w. split; [reflexivity|now exists []]. Qed.

Lemma host_raise {A} e : carries_host (@raise World A e).
Proof. intros w. split; [reflexivity|now exists []]. Qed.

Lemma host_block {A} : carries_host (@block World A).
Proof. intros w. split; [reflexivity|now exists []]. Qed.

Lemma host_bind {A B} (m : M World A) (k : A -> M World B) :
  carries_host m -> (forall a, carries_host (k a)) -> carries_host (bind m k).
Proof.
  intros Hm Hk w. specialize (Hm w). unfold bind.
  destruct (m w) as [a w1|e w1|w1]; cbn [final] in Hm |- *; try exact Hm.
  destruct Hm as [E1 [m1 T1]]. destruct (Hk a w1) as [E2 [m2 T2]].
  split; [congruence|]. exists (m2 ++ m1)%list. rewrite T2, T1. now rewrite app_assoc.
Qed.

Lemma host_modify (f : World -> World) :
  (forall w, environ (f w) = environ w /\
             exists more, trace (f w) = (more ++ trace w)%list) ->
  carries_host (modify f).
Proof. intros H w. exact (H w). Qed.

Ltac host_step :=
  lazymatch goal with
  | |- carries_host (bind _ _) => apply host_bind; [|intros]
  | |- carries_host (if ?b then _ else _) => destruct b
  | |- carries_host (match ?x with _ => _ end) => destruct x
  | |- carries_host (ret _) => apply host_ret
  | |- carries_host get => apply host_get
  | |- carries_host (raise _) => apply host_raise
  | |- carries_host block => apply host_block
  | |- carries_host (modify _) =>
      apply host_modify; intros; split;
      [reflexivity|first [now exists []|now eexists [_]]]
  end.

Ltac host_auto := repeat host_step.

Lemma host_logger_info line : carries_host (logger_info line).
Proof. unfold logger_info. host_auto. Qed.

Lemma host_create_socket path : carries_host (create_socket path).
Proof.
  unfold create_socket, os_path_exists, os_unlink, socket_bind_listen, fresh_fd.
  host_auto.
Qed.

Lemma host_subprocess_Popen argv cwd env : carries_host (subprocess_Popen argv cwd env).
Proof. unfold subprocess_Popen. host_auto. Qed.

Lemma host_socket_accept c : carries_host (socket_accept c).
Proof. unfold socket_accept, fresh_fd. host_auto. Qed.

Lemma host_monitor_recv n : carries_host (monitor_recv n).
Proof. unfold monitor_recv. host_auto. Qed.

(** *** Methods of the machine *)

Lemma carries_ret {A} (a : A) : carries (ret a).
Proof. intros st. apply follows_refl. Qed.

Lemma carries_get : carries get.
Proof. intros st. apply follows_refl. Qed.

Lemma carries_raise {A} e : carries (@raise St A e).
Proof. intros st. apply follows_refl. Qed.

Lemma carries_block {A} : carries (@block St A).
Proof. intros st. apply follows_refl. Qed.

Lemma carries_bind {A B} (m : M St A) (k : A -> M St B) :
  carries m -> (forall a, carries (k a)) -> carries (bind m k).
Proof.
  intros Hm Hk st. specialize (Hm st). unfold bind.
  destruct (m st) as [a s1|e s1|s1]; cbn [final] in Hm |- *; try exact Hm.
  exact (follows_trans _ _ _ Hm (Hk a s1)).
Qed.

Lemma carries_lift {A} (m : M World A) : carries_host m -> carries (lift m).
Proof.
  intros H st. specialize (H (world st)). unfold lift.
  destruct (m (world st)); cbn [final] in H |- *;
    (split; [exact (proj1 H)|split; [exact (proj2 H)|repeat split]]).
Qed.

Lemma carries_set_self f :
  (forall m, script (f m) = script m /\ state_dir (f m) = state_dir m /\
             shared_dir (f m) = shared_dir m /\ allow_reboot (f m) = allow_reboot m) ->
  carries (set_self f).
Proof.
  intros H st. destruct (H (self st)) as (H1 & H2 & H3 & H4).
  split; [reflexivity|]. split; [now exists []|]. now repeat split.
Qed.

Lemma carries_returned {A} (m : M St A) st a st' :
  carries m -> m st = Returned a st' -> follows st st'.
Proof. intros H E. specialize (H st). now rewrite E in H. Qed.

Ltac carries_step :=
  lazymatch goal with
  | |- carries (bind _ _) => apply carries_bind; [|intros]
  | |- carries (if ?b then _ else _) => destruct b
  | |- carries (match ?x with _ => _ end) => destruct x
  | |- carries (ret _) => apply carries_ret
  | |- carries get => apply carries_get
  | |- carries (raise _) => apply carries_raise
  | |- carries block => apply carries_block
  | |- carries (set_self _) => apply carries_set_self; intros; repeat split
  | |- carries (lift (modify _)) => apply carries_lift; host_step
  | |- carries (lift (logger_info _)) => apply carries_lift, host_logger_info
  | |- carries (lift (create_socket _)) => apply carries_lift, host_create_socket
  | |- carries (lift (subprocess_Popen _ _ _)) =>
      apply carries_lift, host_subprocess_Popen
  | |- carries (lift (socket_accept _)) => apply carries_lift, host_socket_accept
  | |- carries (lift (monitor_recv _)) => apply carries_lift, host_monitor_recv
  end.

Ltac carries_auto := repeat carries_step.

Lemma carries_log_info msg : carries (log_info msg).
Proof. unfold log_info. carries_auto. Qed.

Lemma carries_monitor_loop fuel answer : carries (monitor_loop fuel answer).
Proof.
  revert answer. induction fuel as [|fuel IH]; intros answer; cbn [monitor_loop].
  - carries_auto.
  - unfold decode. carries_auto; apply IH.
Qed.

Lemma carries_wait_for_monitor_prompt : carries wait_for_monitor_prompt.
Proof.
  unfold wait_for_monitor_prompt, assert_not_none. carries_auto.
  apply carries_monitor_loop.
Qed.

Lemma carries_start : carries start.
Proof.
  unfold start. carries_auto;
    first [apply carries_log_info|apply carries_wait_for_monitor_prompt].
Qed.


Lemma popen_returned argv cwd env st p st' :
  lift (subprocess_Popen argv cwd env) st = Returned p st' ->
  trace (world st') = Spawned argv cwd env (popen_pid p) :: trace (world st) /\
  environ (world st') = environ (world st) /\ self st' = self st.
Proof.
  unfold lift, subprocess_Popen. cbv [bind get modify ret raise].
  destruct (existsb (mem NUL) argv); [discriminate|].
  destruct (refused cwd); [discriminate|].
  destruct (stat (world st) cwd) as [[| | |]|]; intros H; inversion H; subst.
  now repeat split.
Qed.

(** The steps of [start] behind the spawning of the emulator set the
    pid to that of the process. *)
Lemma start_records_pid {A} p msg (rest : M St A) st st' :
  (rest ;;
   set_self (Mc.set_pid (Some (popen_pid p))) ;;
   set_self (Mc.set_booted true) ;;
   log_info msg) st = Returned tt st' ->
  pid (self st') = Some (popen_pid p).
Proof.
  intros H. apply bind_inv_returned in H. destruct H as (? & s1 & _ & H).
  cbv [bind set_self modify log_info get lift logger_info] in H.
  inversion H. reflexivity.
Qed.

Lemma qemu_options_allow_reboot m m' env a b :
  allow_reboot m' = allow_reboot m -> qemu_options m' env a b = qemu_options m env a b.
Proof. intros H. unfold qemu_options. now rewrite H. Qed.

(** X16.  [start] leaves the environment of the driver as it was,
    however it ends.  When it returns on a machine that was not
    booted, it has spawned the script of the machine through the shell
    in the state directory, the pid it recorded is that of the process
    spawned, and the environment of that process is the environment of
    the driver with [TMPDIR] set to the state directory, [SHARED_DIR]
    to the shared directory, [USE_TMPDIR] to 1 and [QEMU_OPTS] to the
    options [start] builds. *)
Theorem start_spawns_emulator (st st' : St) :
  environ (world (final (start st))) = environ (world st) /\
  (booted (self st) = false -> start st = Returned tt st' ->
   exists env p,
     In (Spawned ["/bin/sh"; "-c"; script (self st)] (state_dir (self st)) env p)
        (trace (world st')) /\
     pid (self st') = Some p /\
     env !! "TMPDIR" = Some (state_dir (self st)) /\
     env !! "SHARED_DIR" = Some (shared_dir (self st)) /\
     env !! "USE_TMPDIR" = Some "1" /\
     env !! "QEMU_OPTS"
     = Some (qemu_options (self st) (environ (world st))
               (path_join (state_dir (self st)) "monitor")
               (path_join (state_dir (self st)) "shell")) /\
     forall k, k <> "TMPDIR" -> k <> "SHARED_DIR" -> k <> "USE_TMPDIR" ->
               k <> "QEMU_OPTS" -> env !! k = environ (world st) !! k).
Proof.
  split; [exact (proj1 (carries_start st))|].
  intros Hb H. unfold start in H. rewrite Consistency.bind_get, Hb in H.
  assert (Hpre : exists s5 p s6,
             follows st s5 /\
             lift (subprocess_Popen ["/bin/sh"; "-c"; script (self s5)]
                     (state_dir (self s5))
                     (<["QEMU_OPTS" := qemu_options (self s5) (environ (world s5))
                                         (path_join (state_dir (self st)) "monitor")
                                         (path_join (state_dir (self st)) "shell")]>
                      (<["USE_TMPDIR" := "1"]>
                       (<["SHARED_DIR" := shared_dir (self s5)]>
                        (<["TMPDIR" := state_dir (self s5)]> (environ (world s5)))))))
                  s5 = Returned p s6 /\
             follows s6 st' /\ pid (self st') = Some (popen_pid p)).
  { apply bind_inv_returned in H. destruct H as (? & s1 & H1 & H).
    apply bind_inv_returned in H. destruct H as (? & s2 & H2 & H).
    apply bind_inv_returned in H. destruct H as (? & s3 & H3 & H).
    apply bind_inv_returned in H. destruct H as (? & s4 & H4 & H).
    apply bind_inv_returned in H. destruct H as (? & s5 & H5 & H).
    rewrite Consistency.bind_get in H.
    apply bind_inv_returned in H. destruct H as (p & s6 & HP & H).
    exists s5, p, s6. split; [|split; [exact HP|split]].
    - apply (follows_trans _ s1);
        [apply (carries_returned _ _ _ _ (carries_log_info _) H1)|].
      apply (follows_trans _ s2);
        [refine (carries_returned _ _ _ _ _ H2); carries_auto|].
      apply (follows_trans _ s3);
        [refine (carries_returned _ _ _ _ _ H3); carries_auto|].
      apply (follows_trans _ s4);
        [refine (carries_returned _ _ _ _ _ H4); carries_auto|].
      refine (carries_returned _ _ _ _ _ H5); carries_auto.
    - refine (carries_returned _ _ _ _ _ H).
      carries_auto;
        first [apply carries_log_info|apply carries_wait_for_monitor_prompt].
    - apply bind_inv_returned in H. destruct H as (? & s7 & _ & H).
      apply bind_inv_returned in H. destruct H as (? & s8 & _ & H).
      apply bind_inv_returned in H. destruct H as (? & s9 & _ & H).
      apply bind_inv_returned in H. destruct H as (? & s10 & _ & H).
      apply bind_inv_returned in H. destruct H as (? & s11 & _ & H).
      apply bind_inv_returned in H. destruct H as (? & s12 & _ & H).
      apply bind_inv_returned in H. destruct H as (? & s13 & _ & H).
      exact (start_records_pid p _ wait_for_monitor_prompt s13 st' H). }
  destruct Hpre as (s5 & p & s6 & F5 & HP & F6 & Hpid).
  destruct F5 as (E5 & _ & S5 & D5 & X5 & R5).
  rewrite E5, S5, D5, X5, (qemu_options_allow_reboot _ _ _ _ _ R5) in HP.
  apply popen_returned in HP. destruct HP as (T6 & _ & _).
  destruct F6 as (_ & [more T'] & _).
  eexists. exists (popen_pid p).
  split; [rewrite T', T6; apply in_or_app; right; left; reflexivity|].
  split; [exact Hpid|].
  split; [now rewrite !lookup_insert_ne, lookup_insert_eq by discriminate|].
  split; [now rewrite !lookup_insert_ne, lookup_insert_eq by discriminate|].
  split; [now rewrite !lookup_insert_ne, lookup_insert_eq by discriminate|].
  split; [now rewrite lookup_insert_eq|].
  intros k K1 K2 K3 K4. now rewrite !lookup_insert_ne by congruence.
Qed.


Lemma start_spawns_emulator_witness :
  booted (self booting) = false /\
  start booting = Returned tt (final (start booting)) /\
  environ (world (final (start booting))) = environ (world booting) /\
  exists env p,
    In (Spawned ["/bin/sh"; "-c"; script (self booting)] (state_dir (self booting))
          env p)
       (trace (world (final (start booting)))) /\
    pid (self (final (start booting))) = Some p /\
    env !! "TMPDIR" = Some (state_dir (self booting)) /\
    env !! "VLANS" = environ (world booting) !! "VLANS".
Proof.
  assert (H : start booting = Returned tt (final (start booting)))
    by (vm_compute; reflexivity).
  split; [reflexivity|]. split; [exact H|].
  destruct (start_spawns_emulator booting (final (start booting))) as [He Hs].
  split; [exact He|].
  destruct (Hs eq_refl H) as (env & p & H1 & H2 & H3 & _ & _ & _ & H7).
  exists env, p. split; [exact H1|]. split; [exact H2|]. split; [exact H3|].
  apply H7; discriminate.
Defined.

(** *** Sockets left by an earlier run *)



(** Where [bind] has no directory to make the socket in, where the
    path is too long for it, and where a dangling link is in the
    way. *)
Example create_socket_refused :
  create_socket "/gone/monitor" (host [] [])
  = Raised (Exn "FileNotFoundError" "/gone/monitor")
      (W.set_next_fd 4 (host [] [])) /\
  create_socket ("/tmp/" ++ filler 103) (host [] [])
  = Raised (Exn "OSError" "AF_UNIX path too long") (W.set_next_fd 4 (host [] [])) /\
  create_socket "/tmp/monitor" (W.set_fs (insert "/tmp/monitor" DanglingLink) (host [] []))
  = Raised (Exn "OSError" "Address already in use")
      (W.set_next_fd 4 (W.set_fs (insert "/tmp/monitor" DanglingLink) (host [] []))).
Proof. repeat split; vm_compute; reflexivity. Qed.

(** A machine that was shut down starts again in the same state
    directory. *)
Example machine_starts_again :
  exists st1 st2,
    Script.run [Script.Start; Script.Shutdown]
      {| self := fresh_machine; world := host [banner; banner] [] |}
    = Returned tt st1 /\
    booted (self st1) = false /\
    start st1 = Returned tt st2 /\
    booted (self st2) = true /\ pid (self st2) = Some 101.
Proof.
  eexists. eexists. split; [vm_compute; reflexivity|].
  split; [reflexivity|]. split; [vm_compute; reflexivity|].
  split; reflexivity.
Qed.

End Spawning.

(** ** The key table *)

Module KeysExamples.
Import Text Host Driver Methods Scenario.

(** No character is listed twice, so that looking a key up from the
    front of the table is looking it up in the dictionary. *)
Example CHAR_TO_KEY_keys_distinct : NoDup (map fst CHAR_TO_KEY).
Proof. apply (bool_decide_unpack _). vm_compute. reflexivity. Qed.

Example keys_looked_up :
  dict_get CHAR_TO_KEY "A" "A" = "shift-a" /\
  dict_get CHAR_TO_KEY nl nl = "ret" /\
  dict_get CHAR_TO_KEY "a" "a" = "a" /\
  dict_get CHAR_TO_KEY "esc" "esc" = "esc".
Proof. repeat split. Qed.

(** The key goes to the monitor, and the call waits for the prompt. *)
Example send_key_on_monitor :
  exists st,
    send_key "A" (running ["(qemu) "] []) = Returned tt st /\
    trace (world st)
    = [Sent MonitorChannel ("sendkey shift-a" ++ nl);
       Log "client: sending monitor command: sendkey shift-a"].
Proof. eexists. split; vm_compute; reflexivity. Qed.

End KeysExamples.
